(** * Linux split-tunnel process tracker (daemon/src/linux/proc_tracker.cpp)

    A shallow embedding of [ProcFs] and [ProcTracker]: the tracker's member
    variables are a record, the kernel facilities it drives (cgroup procs
    files, ip rules and routes, the two firewall anchors, the rp_filter
    sysctl) are a second record, and every method is a function passing both
    along.  The recursion over child processes has no bound in the source, so
    the embedding runs it on fuel and answers [None] when the fuel is spent. *)

From Stdlib Require Import ZArith Ascii String.
From stdpp Require Import base option list relations gmap sets strings.

#[local] Set Warnings "-clear-no-such-hyp".

Local Open Scope Z_scope.
Local Open Scope string_scope.

(** ** Loops in state-passing style *)

(** [for (x : xs) body] where the body may fail to return. *)
Fixpoint for_each {A S : Type} (xs : list A) (body : A → S → option S) (s : S)
  : option S :=
  match xs with
  | [] => Some s
  | x :: rest =>
      match body x s with
      | Some s' => for_each rest body s'
      | None => None
      end
  end.

(** ** /proc *)

Module ProcFs.

(** What the tracker reads of one /proc/<pid> directory: the target of the
    exe link (empty when it cannot be resolved) and the PPid line of the
    status file (absent when the file cannot be opened or has no match).  A
    snapshot of /proc maps the numeric directory names to these. *)
Record ProcStatus := mkProcStatus { exe : string; PPid : option Z }.

Definition filterPids (proc : gmap Z ProcStatus) (filterFunc : Z → bool)
  : gset Z :=
  filter (λ pid, Is_true (filterFunc pid)) (dom proc).

Definition pathForPid (proc : gmap Z ProcStatus) (pid : Z) : string :=
  match proc !! pid with
  | Some st => exe st
  | None => ""
  end.

Definition isChildOf (proc : gmap Z ProcStatus) (parentPid pid : Z) : bool :=
  match proc !! pid with
  | Some st =>
      match PPid st with
      | Some foundParentPid => bool_decide (foundParentPid = parentPid)
      | None => false
      end
  | None => false
  end.

Definition pidsForPath (proc : gmap Z ProcStatus) (path : string) : gset Z :=
  filterPids proc (λ pid, bool_decide (pathForPid proc pid = path)).

Definition childPidsOf (proc : gmap Z ProcStatus) (parentPid : Z) : gset Z :=
  filterPids proc (λ pid, isChildOf proc parentPid pid).

End ProcFs.

Import ProcFs.

(** ** Kernel state driven by the tracker *)

(** The three cgroup procs files of [Path]. *)
Inductive Path := ParentVpnExclusionsFile | VpnExclusionsFile | VpnOnlyFile.

(** The two routing tables of [IpTablesFirewall]. *)
Inductive RTable := kRtableName | kVpnOnlyRtableName.

#[global] Instance Path_eq_dec : EqDecision Path.
Proof. solve_decision. Defined.

#[global] Instance RTable_eq_dec : EqDecision RTable.
Proof. solve_decision. Defined.

(** The command lines handed to [::shellExecute]. *)
Inductive ShellCmd :=
| IpRouteReplace (via dev : string) (table : RTable)
| IpRouteFlushCache
| IpRuleAdd (from : string) (table : RTable)
| IpRuleDel (from : string) (table : RTable)
| SysctlRead
| SysctlWrite (value : string).

Record Kernel := mkKernel {
  cgroup_procs : gmap Z Path;          (* pid ↦ cgroup it was last moved to *)
  ip_rules : list (string * RTable);   (* source-IP rules, pri 101 *)
  route_bypass : option (string * string);
  route_vpnOnly : option (string * string);
  anchor_tagPkts : bool;               (* 100.tagPkts, mangle table *)
  anchor_transIp : bool;               (* 100.transIp, nat table *)
  transIp_rules : list string;         (* content of 100.transIp *)
  rp_filter : string;                  (* net.ipv4.conf.all.rp_filter *)
  shell_log : list ShellCmd            (* commands run, oldest first *)
}.

Definition set_cgroup_procs (v : gmap Z Path) (k : Kernel) : Kernel :=
  mkKernel v (ip_rules k) (route_bypass k) (route_vpnOnly k) (anchor_tagPkts k)
    (anchor_transIp k) (transIp_rules k) (rp_filter k) (shell_log k).

Definition set_ip_rules (v : list (string * RTable)) (k : Kernel) : Kernel :=
  mkKernel (cgroup_procs k) v (route_bypass k) (route_vpnOnly k)
    (anchor_tagPkts k) (anchor_transIp k) (transIp_rules k) (rp_filter k)
    (shell_log k).

Definition set_route (t : RTable) (v : option (string * string)) (k : Kernel)
  : Kernel :=
  match t with
  | kRtableName =>
      mkKernel (cgroup_procs k) (ip_rules k) v (route_vpnOnly k)
        (anchor_tagPkts k) (anchor_transIp k) (transIp_rules k) (rp_filter k)
        (shell_log k)
  | kVpnOnlyRtableName =>
      mkKernel (cgroup_procs k) (ip_rules k) (route_bypass k) v
        (anchor_tagPkts k) (anchor_transIp k) (transIp_rules k) (rp_filter k)
        (shell_log k)
  end.

Definition set_anchor_tagPkts (v : bool) (k : Kernel) : Kernel :=
  mkKernel (cgroup_procs k) (ip_rules k) (route_bypass k) (route_vpnOnly k) v
    (anchor_transIp k) (transIp_rules k) (rp_filter k) (shell_log k).

Definition set_anchor_transIp (v : bool) (k : Kernel) : Kernel :=
  mkKernel (cgroup_procs k) (ip_rules k) (route_bypass k) (route_vpnOnly k)
    (anchor_tagPkts k) v (transIp_rules k) (rp_filter k) (shell_log k).

Definition set_transIp_rules (v : list string) (k : Kernel) : Kernel :=
  mkKernel (cgroup_procs k) (ip_rules k) (route_bypass k) (route_vpnOnly k)
    (anchor_tagPkts k) (anchor_transIp k) v (rp_filter k) (shell_log k).

Definition set_rp_filter (v : string) (k : Kernel) : Kernel :=
  mkKernel (cgroup_procs k) (ip_rules k) (route_bypass k) (route_vpnOnly k)
    (anchor_tagPkts k) (anchor_transIp k) (transIp_rules k) v (shell_log k).

Definition set_shell_log (v : list ShellCmd) (k : Kernel) : Kernel :=
  mkKernel (cgroup_procs k) (ip_rules k) (route_bypass k) (route_vpnOnly k)
    (anchor_tagPkts k) (anchor_transIp k) (transIp_rules k) (rp_filter k) v.

(** [ip rule del] deletes one matching rule, and none when there is none. *)
Fixpoint ip_rule_del (r : string * RTable) (rs : list (string * RTable))
  : list (string * RTable) :=
  match rs with
  | [] => []
  | r' :: rest => if decide (r' = r) then rest else r' :: ip_rule_del r rest
  end.

(** Modelled from the spec: [::shellExecute] is defined outside this file.
    Each command is given the effect the spec states for it: [ip route
    replace] installs or replaces the default route of its table, a rule
    binds a source address to a table, [sysctl -w] sets rp_filter.  [ip rule
    add] is taken at its most permissive: the rule is added even when an
    equal one is installed already. *)
Definition run_cmd (cmd : ShellCmd) (k : Kernel) : Kernel :=
  match cmd with
  | IpRouteReplace via dev t => set_route t (Some (via, dev)) k
  | IpRouteFlushCache => k
  | IpRuleAdd a t => set_ip_rules (ip_rules k ++ [(a, t)])%list k
  | IpRuleDel a t => set_ip_rules (ip_rule_del (a, t) (ip_rules k)) k
  | SysctlRead => k
  | SysctlWrite v => set_rp_filter v k
  end.

(** A command runs and is appended to the history. *)
Definition shellExecute (cmd : ShellCmd) (k : Kernel) : Kernel :=
  set_shell_log (shell_log k ++ [cmd])%list (run_cmd cmd k).

(** The observable kernel state: cgroup memberships, source-IP rules,
    routes, anchors and rp_filter; everything but the command history. *)
Definition observable (k : Kernel) :=
  (cgroup_procs k, ip_rules k, route_bypass k, route_vpnOnly k,
   anchor_tagPkts k, anchor_transIp k, transIp_rules k, rp_filter k).

(** ** Inputs of the tracker *)

(** Modelled from the spec: [OriginalNetworkScan] is declared outside this
    file; the spec gives it three strings and calls it valid when none of
    them is empty. *)
Record OriginalNetworkScan := mkScan {
  gatewayIp : string;
  interfaceName : string;
  ipAddress : string
}.

(** Modelled from the spec: a scan is valid iff all three fields are
    non-empty. *)
Definition isValid (scan : OriginalNetworkScan) : bool :=
  bool_decide (gatewayIp scan ≠ "" ∧ interfaceName scan ≠ ""
               ∧ ipAddress scan ≠ "").

(** A default-constructed scan, [OriginalNetworkScan{}]. *)
Definition noScan : OriginalNetworkScan := mkScan "" "" "".

(** The fields of [FirewallParams] this file reads. *)
Record FirewallParams := mkParams {
  splitTunnelNetScan : OriginalNetworkScan;
  excludeApps : list string;
  vpnOnlyApps : list string
}.

(** What the system calls of [initiateConnection] answer. *)
Record ConnectEnv := mkEnv {
  socket_ret : Z;     (* ::socket: the descriptor, or -1 *)
  bind_ret : Z;       (* ::bind: -1 on failure *)
  send_ret : Z;       (* ::send of the subscription: -1 on failure *)
  sysctl_exit : Z     (* exit code of the sysctl -n call *)
}.

(** [QString::toInt]: the decimal value of the text, 0 when it is not a
    number. *)
Definition digit_of (c : ascii) : option Z :=
  let n := Z.of_nat (nat_of_ascii c) in
  if decide (48 ≤ n ≤ 57)%Z then Some (n - 48) else None.

Fixpoint digits_value (acc : Z) (s : string) : option Z :=
  match s with
  | EmptyString => Some acc
  | String c rest =>
      match digit_of c with
      | Some d => digits_value (10 * acc + d) rest
      | None => None
      end
  end.

Definition toInt (s : string) : Z :=
  match s with
  | EmptyString => 0
  | String "-"%char rest =>
      match rest with
      | EmptyString => 0
      | _ => default 0 (Z.opp <$> digits_value 0 rest)
      end
  | _ => default 0 (digits_value 0 s)
  end.

(** ** The tracker *)

Record ProcTracker := mkTracker {
  _sockFd : Z;
  _readNotifier : option Z;   (* the socket the notifier watches *)
  _exclusionsMap : gmap string (gset Z);
  _vpnOnlyMap : gmap string (gset Z);
  _previousNetScan : OriginalNetworkScan;
  _previousTunnelDeviceLocalAddress : string;
  _previousRPFilter : string
}.

(** A tracker together with the kernel it acts on. *)
Record State := mkState { self : ProcTracker; sys : Kernel }.

Definition set_sockFd (v : Z) (t : ProcTracker) : ProcTracker :=
  mkTracker v (_readNotifier t) (_exclusionsMap t) (_vpnOnlyMap t)
    (_previousNetScan t) (_previousTunnelDeviceLocalAddress t)
    (_previousRPFilter t).

Definition set_readNotifier (v : option Z) (t : ProcTracker) : ProcTracker :=
  mkTracker (_sockFd t) v (_exclusionsMap t) (_vpnOnlyMap t)
    (_previousNetScan t) (_previousTunnelDeviceLocalAddress t)
    (_previousRPFilter t).

Definition set_exclusionsMap (v : gmap string (gset Z)) (t : ProcTracker)
  : ProcTracker :=
  mkTracker (_sockFd t) (_readNotifier t) v (_vpnOnlyMap t)
    (_previousNetScan t) (_previousTunnelDeviceLocalAddress t)
    (_previousRPFilter t).

Definition set_vpnOnlyMap (v : gmap string (gset Z)) (t : ProcTracker)
  : ProcTracker :=
  mkTracker (_sockFd t) (_readNotifier t) (_exclusionsMap t) v
    (_previousNetScan t) (_previousTunnelDeviceLocalAddress t)
    (_previousRPFilter t).

Definition set_previousNetScan (v : OriginalNetworkScan) (t : ProcTracker)
  : ProcTracker :=
  mkTracker (_sockFd t) (_readNotifier t) (_exclusionsMap t) (_vpnOnlyMap t)
    v (_previousTunnelDeviceLocalAddress t) (_previousRPFilter t).

Definition set_previousTunnelDeviceLocalAddress (v : string) (t : ProcTracker)
  : ProcTracker :=
  mkTracker (_sockFd t) (_readNotifier t) (_exclusionsMap t) (_vpnOnlyMap t)
    (_previousNetScan t) v (_previousRPFilter t).

Definition set_previousRPFilter (v : string) (t : ProcTracker) : ProcTracker :=
  mkTracker (_sockFd t) (_readNotifier t) (_exclusionsMap t) (_vpnOnlyMap t)
    (_previousNetScan t) (_previousTunnelDeviceLocalAddress t) v.

(** A freshly constructed tracker. *)
Definition newTracker : ProcTracker :=
  mkTracker (-1) None ∅ ∅ noScan "" "".

(** *** Cgroup writer *)

(** Writing a pid to a cgroup procs file moves that process there; the kernel
    refuses the write (the source logs it and goes on) for a pid that is not
    running. *)
Definition writePidToCGroup (proc : gmap Z ProcStatus) (pid : Z)
    (cGroupPath : Path) (k : Kernel) : Kernel :=
  if decide (is_Some (proc !! pid))
  then set_cgroup_procs (<[pid := cGroupPath]> (cgroup_procs k)) k
  else k.

Fixpoint addPidToCgroup (fuel : nat) (proc : gmap Z ProcStatus) (pid : Z)
    (cGroupPath : Path) (k : Kernel) : option Kernel :=
  match fuel with
  | O => None
  | S fuel' =>
      let k1 := writePidToCGroup proc pid cGroupPath k in
      (* addChildPidsToCgroup(pid, cGroupPath) *)
      for_each (elements (childPidsOf proc pid))
        (λ child, addPidToCgroup fuel' proc child cGroupPath) k1
  end.

Definition addChildPidsToCgroup (fuel : nat) (proc : gmap Z ProcStatus)
    (parentPid : Z) (cGroupPath : Path) (k : Kernel) : option Kernel :=
  for_each (elements (childPidsOf proc parentPid))
    (λ pid, addPidToCgroup fuel proc pid cGroupPath) k.

Fixpoint removePidFromCgroup (fuel : nat) (proc : gmap Z ProcStatus) (pid : Z)
    (cGroupPath : Path) (k : Kernel) : option Kernel :=
  match fuel with
  | O => None
  | S fuel' =>
      (* a pid leaves a cgroup by being written to the parent cgroup *)
      let k1 := writePidToCGroup proc pid cGroupPath k in
      (* removeChildPidsFromCgroup(pid, cGroupPath) *)
      for_each (elements (childPidsOf proc pid))
        (λ child, removePidFromCgroup fuel' proc child cGroupPath) k1
  end.

Definition removeChildPidsFromCgroup (fuel : nat) (proc : gmap Z ProcStatus)
    (parentPid : Z) (cGroupPath : Path) (k : Kernel) : option Kernel :=
  for_each (elements (childPidsOf proc parentPid))
    (λ pid, removePidFromCgroup fuel proc pid cGroupPath) k.

(** *** Rule controller *)

Definition updateMasquerade (interfaceName : string) (k : Kernel) : Kernel :=
  if decide (interfaceName = "")
  then set_transIp_rules [] k
  else set_transIp_rules
         ["-o " +:+ interfaceName +:+ " -j MASQUERADE";
          "-o tun+ -j MASQUERADE"] k.

Definition updateRoutes (gatewayIp interfaceName tunnelDeviceName
    tunnelDeviceRemoteAddress : string) (k : Kernel) : Kernel :=
  let k1 :=
    if decide (gatewayIp = "" ∨ interfaceName = "") then k
    else shellExecute (IpRouteReplace gatewayIp interfaceName kRtableName) k in
  let k2 :=
    if decide (tunnelDeviceRemoteAddress = "" ∨ tunnelDeviceName = "") then k1
    else shellExecute (IpRouteReplace tunnelDeviceRemoteAddress
                         tunnelDeviceName kVpnOnlyRtableName) k1 in
  shellExecute IpRouteFlushCache k2.

Definition addRoutingPolicyForSourceIp (ipAddress : string)
    (routingTableName : RTable) (k : Kernel) : Kernel :=
  if decide (ipAddress ≠ "")
  then shellExecute (IpRuleAdd ipAddress routingTableName) k
  else k.

Definition removeRoutingPolicyForSourceIp (ipAddress : string)
    (routingTableName : RTable) (k : Kernel) : Kernel :=
  if decide (ipAddress ≠ "")
  then shellExecute (IpRuleDel ipAddress routingTableName) k
  else k.

(** Modelled from the spec: [IpTablesFirewall::setAnchorEnabled] and
    [replaceAnchor] are defined outside this file; an anchor is a flag, and
    100.transIp has the rules last handed to [replaceAnchor]. *)
Definition setupFirewall (k : Kernel) : Kernel :=
  set_anchor_transIp true (set_anchor_tagPkts true k).

Definition teardownFirewall (k : Kernel) : Kernel :=
  set_anchor_tagPkts false (set_anchor_transIp false k).

Definition updateNetwork (params : FirewallParams) (tunnelDeviceName
    tunnelDeviceLocalAddress tunnelDeviceRemoteAddress : string) (s : State)
  : State :=
  let t := self s in
  let scan := splitTunnelNetScan params in
  let k1 :=
    if decide (interfaceName (_previousNetScan t) ≠ interfaceName scan)
    then updateMasquerade (interfaceName scan) (sys s)
    else sys s in
  let k2 :=
    if decide (ipAddress (_previousNetScan t) ≠ ipAddress scan)
    then addRoutingPolicyForSourceIp (ipAddress scan) kRtableName
           (removeRoutingPolicyForSourceIp (ipAddress (_previousNetScan t))
              kRtableName k1)
    else k1 in
  let k3 :=
    if decide (_previousTunnelDeviceLocalAddress t ≠ tunnelDeviceLocalAddress)
    then addRoutingPolicyForSourceIp tunnelDeviceLocalAddress
           kVpnOnlyRtableName
           (removeRoutingPolicyForSourceIp (_previousTunnelDeviceLocalAddress t)
              kVpnOnlyRtableName k2)
    else k2 in
  let k4 := updateRoutes (gatewayIp scan) (interfaceName scan)
              tunnelDeviceName tunnelDeviceRemoteAddress k3 in
  mkState
    (set_previousTunnelDeviceLocalAddress tunnelDeviceLocalAddress
       (set_previousNetScan scan t))
    k4.

Definition setupReversePathFiltering (exitCode : Z) (s : State) : State :=
  let k := shellExecute SysctlRead (sys s) in
  let out := rp_filter k in
  if decide (exitCode = 0) then
    if decide (toInt out ≠ 2)
    then mkState (set_previousRPFilter out (self s))
           (shellExecute (SysctlWrite "2") k)
    else mkState (self s) k
  else mkState (set_previousRPFilter "" (self s)) k.

Definition teardownReversePathFiltering (s : State) : State :=
  if decide (_previousRPFilter (self s) ≠ "")
  then mkState (self s)
         (shellExecute (SysctlWrite (_previousRPFilter (self s))) (sys s))
  else s.

(** *** App maps

    [addApps] and [removeApps] take the map by reference; here it is passed in
    and handed back together with the kernel. *)

Definition addApps (fuel : nat) (proc : gmap Z ProcStatus) (apps : list string)
    (cGroupPath : Path) (st : gmap string (gset Z) * Kernel)
  : option (gmap string (gset Z) * Kernel) :=
  for_each apps
    (λ app '(appMap, k),
       for_each (elements (pidsForPath proc app))
         (λ pid '(appMap, k),
            k' ← addPidToCgroup fuel proc pid cGroupPath k;
            Some (<[app := default ∅ (appMap !! app) ∪ {[pid]}]> appMap, k'))
         (<[app := ∅]> appMap, k))
    st.

Definition removeApps (fuel : nat) (proc : gmap Z ProcStatus)
    (keepApps : list string) (st : gmap string (gset Z) * Kernel)
  : option (gmap string (gset Z) * Kernel) :=
  for_each (elements (dom (fst st)))
    (λ app '(appMap, k),
       if decide (app ∈ keepApps) then Some (appMap, k)
       else
         k' ← for_each (elements (default ∅ (appMap !! app)))
                (λ pid, removePidFromCgroup fuel proc pid
                          ParentVpnExclusionsFile) k;
         Some (delete app appMap, k'))
    st.

Definition updateApps (fuel : nat) (proc : gmap Z ProcStatus)
    (excludedApps vpnOnlyApps : list string) (s : State) : option State :=
  let excludedApps :=
    if isValid (_previousNetScan (self s)) then excludedApps else [] in
  '(ex, k) ← removeApps fuel proc excludedApps (_exclusionsMap (self s), sys s);
  '(ex, k) ← addApps fuel proc excludedApps VpnExclusionsFile (ex, k);
  '(vo, k) ← removeApps fuel proc vpnOnlyApps (_vpnOnlyMap (self s), k);
  '(vo, k) ← addApps fuel proc vpnOnlyApps VpnOnlyFile (vo, k);
  Some (mkState (set_vpnOnlyMap vo (set_exclusionsMap ex (self s))) k).

Definition removeAllApps (fuel : nat) (proc : gmap Z ProcStatus) (s : State)
  : option State :=
  '(_, k) ← removeApps fuel proc [] (_exclusionsMap (self s), sys s);
  '(_, k) ← removeApps fuel proc [] (_vpnOnlyMap (self s), k);
  Some (mkState (set_vpnOnlyMap ∅ (set_exclusionsMap ∅ (self s))) k).

(** *** Session *)

Definition subscribeToProcEvents (send_ret : Z) : Z :=
  if decide (send_ret = -1) then -1 else 0.

Definition shutdownConnection (fuel : nat) (proc : gmap Z ProcStatus)
    (s : State) : option State :=
  (* the notifier is disabled and deleted; unsubscribing and closing the
     socket change nothing that is kept here *)
  let s1 := mkState (set_readNotifier None (self s)) (teardownFirewall (sys s)) in
  s2 ← removeAllApps fuel proc s1;
  let k3 := removeRoutingPolicyForSourceIp
              (ipAddress (_previousNetScan (self s2))) kRtableName (sys s2) in
  let k4 := removeRoutingPolicyForSourceIp
              (_previousTunnelDeviceLocalAddress (self s2))
              kVpnOnlyRtableName k3 in
  let s5 := teardownReversePathFiltering (mkState (self s2) k4) in
  Some (mkState (set_sockFd (-1) (set_previousNetScan noScan (self s5)))
          (sys s5)).

Definition updateSplitTunnel (fuel : nat) (proc : gmap Z ProcStatus)
    (params : FirewallParams) (tunnelDeviceName tunnelDeviceLocalAddress
    tunnelDeviceRemoteAddress : string) (excludedApps vpnOnlyApps : list string)
    (s : State) : option State :=
  updateApps fuel proc excludedApps vpnOnlyApps
    (updateNetwork params tunnelDeviceName tunnelDeviceLocalAddress
       tunnelDeviceRemoteAddress s).

Definition initiateConnection (fuel : nat) (proc : gmap Z ProcStatus)
    (env : ConnectEnv) (params : FirewallParams) (tunnelDeviceName
    tunnelDeviceLocalAddress tunnelDeviceRemoteAddress : string) (s : State)
  : option State :=
  s ← (if decide (_sockFd (self s) ≠ -1)
       then shutdownConnection fuel proc s else Some s);
  let sock := socket_ret env in
  if decide (sock = -1) then Some s
  (* on the next two failures the socket is closed again *)
  else if decide (bind_ret env = -1) then Some s
  else if decide (subscribeToProcEvents (send_ret env) = -1) then Some s
  else
    let s1 := mkState (set_sockFd sock (self s)) (setupFirewall (sys s)) in
    s2 ← updateSplitTunnel fuel proc params tunnelDeviceName
           tunnelDeviceLocalAddress tunnelDeviceRemoteAddress
           (excludeApps params) (vpnOnlyApps params) s1;
    let s3 := setupReversePathFiltering (sysctl_exit env) s2 in
    Some (mkState (set_readNotifier (Some sock) (self s3)) (sys s3)).

(** *** Process events *)

Definition removeTerminatedApp (pid : Z) (s : State) : State :=
  mkState
    (set_vpnOnlyMap ((λ set, set ∖ {[pid]}) <$> _vpnOnlyMap (self s))
       (set_exclusionsMap ((λ set, set ∖ {[pid]}) <$> _exclusionsMap (self s))
          (self s)))
    (sys s).

Definition addLaunchedApp (fuel : nat) (proc : gmap Z ProcStatus) (pid : Z)
    (s : State) : option State :=
  let t := self s in
  let appName := pathForPid proc pid in
  if decide (appName = "") then Some s
  else if decide (is_Some (_exclusionsMap t !! appName)) then
    if isValid (_previousNetScan t) then
      let ex := <[appName := default ∅ (_exclusionsMap t !! appName) ∪ {[pid]}]>
                  (_exclusionsMap t) in
      k ← addPidToCgroup fuel proc pid VpnExclusionsFile (sys s);
      Some (mkState (set_exclusionsMap ex t) k)
    else Some s
  else if decide (is_Some (_vpnOnlyMap t !! appName)) then
    let vo := <[appName := default ∅ (_vpnOnlyMap t !! appName) ∪ {[pid]}]>
                (_vpnOnlyMap t) in
    k ← addPidToCgroup fuel proc pid VpnOnlyFile (sys s);
    Some (mkState (set_vpnOnlyMap vo t) k)
  else Some s.

(** The part of a [proc_event] that [readFromSocket] looks at. *)
Inductive proc_event :=
| PROC_EVENT_NONE
| PROC_EVENT_EXEC (process_pid : Z)
| PROC_EVENT_EXIT (process_pid : Z)
| PROC_EVENT_other.

Definition readFromSocket (fuel : nat) (proc : gmap Z ProcStatus)
    (what : proc_event) (s : State) : option State :=
  match what with
  | PROC_EVENT_NONE => Some s
  | PROC_EVENT_EXEC pid => addLaunchedApp fuel proc pid s
  | PROC_EVENT_EXIT pid => Some (removeTerminatedApp pid s)
  | PROC_EVENT_other => Some s
  end.

(** ** Sequences of public operations *)

Inductive Op :=
| InitiateConnection (env : ConnectEnv) (params : FirewallParams)
    (tunnelDeviceName tunnelDeviceLocalAddress tunnelDeviceRemoteAddress : string)
| UpdateSplitTunnel (params : FirewallParams)
    (tunnelDeviceName tunnelDeviceLocalAddress tunnelDeviceRemoteAddress : string)
    (excludedApps vpnOnlyApps : list string)
| ShutdownConnection
| AddLaunchedApp (pid : Z)
| RemoveTerminatedApp (pid : Z).

(** One call, made while /proc reads as [proc]. *)
Definition step (fuel : nat) (proc : gmap Z ProcStatus) (op : Op) (s : State)
  : option State :=
  match op with
  | InitiateConnection env params tn tl tr =>
      initiateConnection fuel proc env params tn tl tr s
  | UpdateSplitTunnel params tn tl tr ex vo =>
      updateSplitTunnel fuel proc params tn tl tr ex vo s
  | ShutdownConnection => shutdownConnection fuel proc s
  | AddLaunchedApp pid => addLaunchedApp fuel proc pid s
  | RemoveTerminatedApp pid => Some (removeTerminatedApp pid s)
  end.

Definition run (fuel : nat) (calls : list (gmap Z ProcStatus * Op)) (s : State)
  : option State :=
  for_each calls (λ '(proc, op), step fuel proc op) s.

(** A kernel on which the tracker has not acted yet. *)
Definition bootKernel (rp : string) : Kernel :=
  mkKernel ∅ [] None None false false [] rp [].

Definition initial (rp : string) : State := mkState newTracker (bootKernel rp).

(** ** The writes of a recursive cgroup assignment

    [descendants fuel proc pid] lists, in the order they are written, the
    pids that [addPidToCgroup] (or [removePidFromCgroup]) writes when started
    on [pid]; the methods themselves are then one pass of writes. *)

Fixpoint collect {A : Type} (wr : A → option (list Z)) (xs : list A)
  : option (list Z) :=
  match xs with
  | [] => Some []
  | x :: rest => ws ← wr x; ws' ← collect wr rest; Some (ws ++ ws')%list
  end.

Fixpoint descendants (fuel : nat) (proc : gmap Z ProcStatus) (pid : Z)
  : option (list Z) :=
  match fuel with
  | O => None
  | S fuel' =>
      ws ← collect (descendants fuel' proc) (elements (childPidsOf proc pid));
      Some (pid :: ws)
  end.

(** One pass of writes to a cgroup procs file. *)
Definition write_all (proc : gmap Z ProcStatus) (cGroupPath : Path)
    (pids : list Z) (k : Kernel) : Kernel :=
  foldl (λ k pid, writePidToCGroup proc pid cGroupPath k) k pids.

(** The parent relation read off /proc/<pid>/status. *)
Definition child_of (proc : gmap Z ProcStatus) (parentPid pid : Z) : Prop :=
  pid ∈ childPidsOf proc parentPid.

(** No process is its own ancestor. *)
Definition acyclic (proc : gmap Z ProcStatus) : Prop :=
  ∀ pid, ¬ tc (child_of proc) pid pid.

(** ** Vocabulary of the statements *)

(** The map after [removeApps]: the entries of [apps] not kept are gone. *)
Definition evict (keepApps apps : list string) (m : gmap string (gset Z))
  : gmap string (gset Z) :=
  foldl (λ m app, if decide (app ∈ keepApps) then m else delete app m) m apps.

(** The map after [addApps]: every app listed maps to the pids running it. *)
Definition scan_map (proc : gmap Z ProcStatus) (apps : list string)
    (m : gmap string (gset Z)) : gmap string (gset Z) :=
  foldl (λ m app, <[app := pidsForPath proc app]> m) m apps.

(** The pids written for one app of [addApps], and for one of [removeApps]. *)
Definition app_writes (fuel : nat) (proc : gmap Z ProcStatus) (app : string)
  : option (list Z) :=
  collect (descendants fuel proc) (elements (pidsForPath proc app)).

Definition evict_writes (fuel : nat) (proc : gmap Z ProcStatus)
    (keepApps : list string) (m : gmap string (gset Z)) (app : string)
  : option (list Z) :=
  if decide (app ∈ keepApps) then Some []
  else collect (descendants fuel proc) (elements (default ∅ (m !! app))).

(** An invalid scan comes with an empty exclusions map. *)
Definition gating (s : State) : Prop :=
  isValid (_previousNetScan (self s)) = false → _exclusionsMap (self s) = ∅.

(** [pid] is in the set the map holds for [path]. *)
Definition tracked (m : gmap string (gset Z)) (path : string) (pid : Z) : Prop :=
  ∃ X, m !! path = Some X ∧ pid ∈ X.

(** No pid is in a set of the exclusions map and in a set of the vpn-only
    map. *)
Definition pid_disjoint (s : State) : Prop :=
  ∀ pid a b,
    tracked (_exclusionsMap (self s)) a pid →
    tracked (_vpnOnlyMap (self s)) b pid → False.

(** The call puts a pid into a set of both maps.  A connect that succeeds,
    or an [updateSplitTunnel], does so when its scan is valid and both of
    its lists name a path that a process of the snapshot runs; an exec
    event does so when the handler adds the pid to one map while the other
    map holds it. *)
Definition shares_pid (proc : gmap Z ProcStatus) (op : Op) (s : State) : Prop :=
  match op with
  | InitiateConnection env params _ _ _ =>
      socket_ret env ≠ -1 ∧ bind_ret env ≠ -1 ∧ send_ret env ≠ -1
      ∧ isValid (splitTunnelNetScan params) = true
      ∧ ∃ a pid, a ∈ excludeApps params ∧ a ∈ vpnOnlyApps params
                 ∧ pid ∈ pidsForPath proc a
  | UpdateSplitTunnel params _ _ _ excludedApps vpnOnlyApps =>
      isValid (splitTunnelNetScan params) = true
      ∧ ∃ a pid, a ∈ excludedApps ∧ a ∈ vpnOnlyApps ∧ pid ∈ pidsForPath proc a
  | AddLaunchedApp pid =>
      let appName := pathForPid proc pid in
      appName ≠ ""
      ∧ ((is_Some (_exclusionsMap (self s) !! appName)
          ∧ isValid (_previousNetScan (self s)) = true
          ∧ ∃ b, tracked (_vpnOnlyMap (self s)) b pid)
         ∨ (_exclusionsMap (self s) !! appName = None
            ∧ is_Some (_vpnOnlyMap (self s) !! appName)
            ∧ ∃ a, tracked (_exclusionsMap (self s)) a pid))
  | ShutdownConnection | RemoveTerminatedApp _ => False
  end.

(** No call of the sequence, made in the state the calls before it leave,
    puts a pid into both maps. *)
Fixpoint never_shares (fuel : nat) (calls : list (gmap Z ProcStatus * Op))
    (s : State) : Prop :=
  match calls with
  | [] => True
  | (proc, op) :: rest =>
      ¬ shares_pid proc op s
      ∧ match step fuel proc op s with
        | Some s' => never_shares fuel rest s'
        | None => True
        end
  end.

(** [q] is a process that one call of [updateSplitTunnel] writes to the
    exclusions cgroup and then evicts together with a vpn-only app that
    left the list: the scan is valid, [q] is at or below a process running
    an excluded app, at or below a pid of a vpn-only entry whose path is not
    in the new list, and not at or below a process running a vpn-only app
    of the new list. *)
Definition evicted_excluded (proc : gmap Z ProcStatus) (params : FirewallParams)
    (excludedApps vpnOnlyApps : list string) (s : State) (q : Z) : Prop :=
  isValid (splitTunnelNetScan params) = true
  ∧ (∃ app pid, app ∈ excludedApps ∧ pid ∈ pidsForPath proc app
                ∧ rtc (child_of proc) pid q)
  ∧ (∃ app pid, (app ∉ vpnOnlyApps) ∧ tracked (_vpnOnlyMap (self s)) app pid
                ∧ rtc (child_of proc) pid q)
  ∧ ¬ (∃ app pid, app ∈ vpnOnlyApps ∧ pid ∈ pidsForPath proc app
                  ∧ rtc (child_of proc) pid q).

(** The source addresses bound to table [t]. *)
Fixpoint rules_for (t : RTable) (rs : list (string * RTable)) : list string :=
  match rs with
  | [] => []
  | (a, t') :: rest =>
      if decide (t' = t) then a :: rules_for t rest else rules_for t rest
  end.

(** The effect of one command of the history on the rules. *)
Definition rules_step (rs : list (string * RTable)) (cmd : ShellCmd)
  : list (string * RTable) :=
  match cmd with
  | IpRuleAdd a t => (rs ++ [(a, t)])%list
  | IpRuleDel a t => ip_rule_del (a, t) rs
  | _ => rs
  end.

(** The rules a command history leaves, starting from [rs]. *)
Definition replay (rs : list (string * RTable)) (log : list ShellCmd)
  : list (string * RTable) :=
  foldl rules_step rs log.

(** Every [ip rule add] of the history finds its table without a rule: the
    rule installed before it, if any, was deleted first. *)
Fixpoint adds_after_removal (rs : list (string * RTable)) (log : list ShellCmd)
  : Prop :=
  match log with
  | [] => True
  | cmd :: rest =>
      match cmd with
      | IpRuleAdd _ t => rules_for t rs = []
      | _ => True
      end
      ∧ adds_after_removal (rules_step rs cmd) rest
  end.

(** The history accounts for the rules installed, and its adds are clean. *)
Definition log_ok (k : Kernel) : Prop :=
  ip_rules k = replay [] (shell_log k) ∧ adds_after_removal [] (shell_log k).

(** Table [t] has no rule, or the one rule for [addr]. *)
Definition rule_inv (t : RTable) (addr : string) (k : Kernel) : Prop :=
  rules_for t (ip_rules k) = []
  ∨ (rules_for t (ip_rules k) = [addr] ∧ addr ≠ "").

(** The rules installed are those of the addresses the tracker stores. *)
Definition rules_inv (s : State) : Prop :=
  log_ok (sys s)
  ∧ rule_inv kRtableName (ipAddress (_previousNetScan (self s))) (sys s)
  ∧ rule_inv kVpnOnlyRtableName (_previousTunnelDeviceLocalAddress (self s))
      (sys s).

(** The default routes are the ones [updateRoutes] would install. *)
Definition routes_set (gw ifc tn tr : string) (k : Kernel) : Prop :=
  (gw = "" ∨ ifc = "" ∨ route_bypass k = Some (gw, ifc))
  ∧ (tr = "" ∨ tn = "" ∨ route_vpnOnly k = Some (tr, tn)).

(** ** Scenarios

    Concrete snapshots of /proc and call sequences on which the theorems
    below are exercised. *)

(** A snapshot read while pids 2 and 3 were being reused: each names the
    other as its parent. *)
Definition cyclic_proc : gmap Z ProcStatus :=
  <[2 := mkProcStatus "/usr/bin/foo" (Some 3)]>
    (<[3 := mkProcStatus "/bin/sh" (Some 2)]> ∅).

Definition scan_up : OriginalNetworkScan :=
  mkScan "192.168.1.1" "eth0" "192.168.1.5".

Definition env_ok : ConnectEnv := mkEnv 7 0 0 0.

(** pid 1234 runs /usr/bin/foo. *)
Definition proc_foo : gmap Z ProcStatus :=
  <[1234 := mkProcStatus "/usr/bin/foo" (Some 1)]> ∅.

(** pid 3000 runs /usr/bin/foo and has the child 3001, running /bin/cat. *)
Definition proc_family : gmap Z ProcStatus :=
  <[3000 := mkProcStatus "/usr/bin/foo" (Some 1)]>
    (<[3001 := mkProcStatus "/bin/cat" (Some 3000)]> ∅).

(** A session with /usr/bin/foo excluded, then the scan is lost. *)
Definition calls_disconnect : list (gmap Z ProcStatus * Op) :=
  [(proc_foo, InitiateConnection env_ok (mkParams scan_up ["/usr/bin/foo"] [])
                "tun0" "10.0.0.2" "10.0.0.1");
   (proc_foo, UpdateSplitTunnel (mkParams noScan ["/usr/bin/foo"] [])
                "" "" "" ["/usr/bin/foo"] [])].

(** Both lists name /usr/bin/foo. *)
Definition calls_shared_path : list (gmap Z ProcStatus * Op) :=
  [(proc_foo,
    InitiateConnection env_ok
      (mkParams scan_up ["/usr/bin/foo"] ["/usr/bin/foo"])
      "tun0" "10.0.0.2" "10.0.0.1")].

(** The lists are disjoint, but pid 1234, tracked for the excluded
    /usr/bin/foo, then executes the vpn-only /usr/bin/bar. *)
Definition calls_exec_other : list (gmap Z ProcStatus * Op) :=
  [(proc_foo,
    InitiateConnection env_ok
      (mkParams scan_up ["/usr/bin/foo"] ["/usr/bin/bar"])
      "tun0" "10.0.0.2" "10.0.0.1");
   (<[1234 := mkProcStatus "/usr/bin/bar" (Some 1)]> ∅, AddLaunchedApp 1234)].

(** pid 1234 runs the excluded /usr/bin/foo, pid 1300 the vpn-only
    /usr/bin/bar. *)
Definition proc_two : gmap Z ProcStatus :=
  <[1234 := mkProcStatus "/usr/bin/foo" (Some 1)]>
    (<[1300 := mkProcStatus "/usr/bin/bar" (Some 1)]> ∅).

Definition calls_two_lists : list (gmap Z ProcStatus * Op) :=
  [(proc_two,
    InitiateConnection env_ok
      (mkParams scan_up ["/usr/bin/foo"] ["/usr/bin/bar"])
      "tun0" "10.0.0.2" "10.0.0.1");
   (proc_two, AddLaunchedApp 1300);
   (proc_two, RemoveTerminatedApp 1234)].

(** The physical address and the tunnel address change during the session,
    which is then shut down and started again. *)
Definition calls_roaming : list (gmap Z ProcStatus * Op) :=
  [(proc_foo, InitiateConnection env_ok (mkParams scan_up ["/usr/bin/foo"] [])
                "tun0" "10.0.0.2" "10.0.0.1");
   (proc_foo, UpdateSplitTunnel
                (mkParams (mkScan "10.1.1.1" "wlan0" "10.1.1.7")
                   ["/usr/bin/foo"] [])
                "tun0" "10.0.0.9" "10.0.0.1" ["/usr/bin/foo"] []);
   (proc_foo, ShutdownConnection);
   (proc_foo, InitiateConnection env_ok (mkParams scan_up ["/usr/bin/foo"] [])
                "tun0" "10.0.0.2" "10.0.0.1")].

(** /usr/bin/foo is tracked with pid 1234, which has exited; pid 1235 runs
    it now. *)
Definition proc_restarted : gmap Z ProcStatus :=
  <[1235 := mkProcStatus "/usr/bin/foo" (Some 1)]> ∅.

Definition map_foo_1234 : gmap string (gset Z) :=
  <["/usr/bin/foo" := {[1234]}]> ∅.

(** One session on a system whose rp_filter is 1. *)
Definition calls_session : list (gmap Z ProcStatus * Op) :=
  [(proc_foo, InitiateConnection env_ok (mkParams scan_up ["/usr/bin/foo"] [])
                "tun0" "10.0.0.2" "10.0.0.1");
   (proc_foo, ShutdownConnection)].

(** pid 10 runs the vpn-only /usr/bin/bar; its child 11 runs /usr/bin/foo. *)
Definition proc_cross : gmap Z ProcStatus :=
  <[10 := mkProcStatus "/usr/bin/bar" (Some 1)]>
    (<[11 := mkProcStatus "/usr/bin/foo" (Some 10)]> ∅).

(** pid 2000 is a shell when the session starts and then executes the
    excluded /usr/bin/foo. *)
Definition proc_shell : gmap Z ProcStatus :=
  <[2000 := mkProcStatus "/bin/sh" (Some 1)]> ∅.

Definition proc_shell_exec : gmap Z ProcStatus :=
  <[2000 := mkProcStatus "/usr/bin/foo" (Some 1)]> ∅.

Definition calls_exec_after_connect : list (gmap Z ProcStatus * Op) :=
  [(proc_shell,
    InitiateConnection env_ok
      (mkParams scan_up ["/usr/bin/foo"] ["/usr/bin/bar"])
      "tun0" "10.0.0.2" "10.0.0.1");
   (proc_shell_exec, AddLaunchedApp 2000)].

(** The session of [proc_cross] with /usr/bin/bar as the one vpn-only
    app. *)
Definition calls_bar_vpnOnly : list (gmap Z ProcStatus * Op) :=
  [(proc_cross,
    InitiateConnection env_ok (mkParams scan_up [] ["/usr/bin/bar"])
      "tun0" "10.0.0.2" "10.0.0.1")].

(** ** Further vocabulary and scenarios *)

(** pid 3000 runs /usr/bin/foo with the child 3001 running /bin/cat, whose
    own child 3002 runs /usr/bin/bar; pid 4000 runs /usr/bin/foo apart. *)
Definition proc_tree : gmap Z ProcStatus :=
  <[3000 := mkProcStatus "/usr/bin/foo" (Some 1)]>
    (<[3001 := mkProcStatus "/bin/cat" (Some 3000)]>
       (<[3002 := mkProcStatus "/usr/bin/bar" (Some 3001)]>
          (<[4000 := mkProcStatus "/usr/bin/foo" (Some 1)]> ∅))).

(** /usr/bin/foo is tracked with pid 3000, /bin/cat with pid 3001. *)
Definition map_foo_cat : gmap string (gset Z) :=
  <["/usr/bin/foo" := {[3000]}]> (<["/bin/cat" := {[3001]}]> ∅).

(** A tracker with a valid scan that tracks /usr/bin/foo as excluded and
    /usr/bin/bar as vpn-only, no process of either being known yet. *)
Definition tracking_foo_bar : State :=
  mkState
    (set_previousNetScan scan_up
       (set_vpnOnlyMap (<["/usr/bin/bar" := ∅]> ∅)
          (set_exclusionsMap (<["/usr/bin/foo" := ∅]> ∅) newTracker)))
    (bootKernel "1").

(** A session started while pid 3000 runs the excluded /usr/bin/foo with
    its child 3001. *)
Definition calls_family : list (gmap Z ProcStatus * Op) :=
  [(proc_family,
    InitiateConnection env_ok (mkParams scan_up ["/usr/bin/foo"] [])
      "tun0" "10.0.0.2" "10.0.0.1")].

(** The bypass table holds the rule of the stored source address, and no
    rule when no address is stored. *)
Definition bypass_rule_exact (s : State) : Prop :=
  rules_for kRtableName (ip_rules (sys s)) =
  if decide (ipAddress (_previousNetScan (self s)) = "") then []
  else [ipAddress (_previousNetScan (self s))].

(** A call made while a session runs: neither a connect nor a shutdown. *)
Definition within_session (c : gmap Z ProcStatus * Op) : Prop :=
  match c.2 with
  | InitiateConnection _ _ _ _ _ | ShutdownConnection => False
  | _ => True
  end.

(** /usr/bin/foo stops being excluded while the session runs, and pid 1234
    exits. *)
Definition calls_in_session : list (gmap Z ProcStatus * Op) :=
  [(proc_foo, AddLaunchedApp 1234);
   (proc_foo, UpdateSplitTunnel (mkParams scan_up [] []) "tun0" "10.0.0.2"
                "10.0.0.1" [] []);
   (proc_foo, RemoveTerminatedApp 1234)].

(** * Proofs *)

(** ** Basic facts *)

Lemma elem_of_filterPids proc f pid :
  pid ∈ filterPids proc f ↔ f pid = true ∧ is_Some (proc !! pid).
Proof.
  unfold filterPids. rewrite elem_of_filter, elem_of_dom.
  split; intros [H1 H2]; split; auto; by apply Is_true_true.
Qed.

Lemma elem_of_pidsForPath proc path pid :
  pid ∈ pidsForPath proc path ↔
  pathForPid proc pid = path ∧ is_Some (proc !! pid).
Proof.
  unfold pidsForPath. rewrite elem_of_filterPids, bool_decide_eq_true. done.
Qed.

Lemma elem_of_childPidsOf proc parentPid pid :
  pid ∈ childPidsOf proc parentPid ↔
  ∃ st, proc !! pid = Some st ∧ PPid st = Some parentPid.
Proof.
  unfold childPidsOf. rewrite elem_of_filterPids. unfold isChildOf.
  split.
  - intros [H [st Hst]]. rewrite Hst in H. exists st. split; [done|].
    destruct (PPid st) as [pp|]; [|done].
    apply bool_decide_eq_true in H. by subst.
  - intros (st & Hst & Hpp). rewrite Hst, Hpp. split; [|by eexists].
    by apply bool_decide_eq_true.
Qed.

Lemma write_all_nil proc cg k : write_all proc cg [] k = k.
Proof. done. Qed.

Lemma write_all_app proc cg xs ys k :
  write_all proc cg (xs ++ ys)%list k = write_all proc cg ys (write_all proc cg xs k).
Proof. unfold write_all. by rewrite foldl_app. Qed.

Lemma writePidToCGroup_frame proc pid cg k :
  let k' := writePidToCGroup proc pid cg k in
  ip_rules k' = ip_rules k ∧ route_bypass k' = route_bypass k
  ∧ route_vpnOnly k' = route_vpnOnly k ∧ anchor_tagPkts k' = anchor_tagPkts k
  ∧ anchor_transIp k' = anchor_transIp k ∧ transIp_rules k' = transIp_rules k
  ∧ rp_filter k' = rp_filter k ∧ shell_log k' = shell_log k.
Proof. unfold writePidToCGroup. simpl. by case_decide. Qed.

Lemma write_all_frame proc cg pids k :
  let k' := write_all proc cg pids k in
  ip_rules k' = ip_rules k ∧ route_bypass k' = route_bypass k
  ∧ route_vpnOnly k' = route_vpnOnly k ∧ anchor_tagPkts k' = anchor_tagPkts k
  ∧ anchor_transIp k' = anchor_transIp k ∧ transIp_rules k' = transIp_rules k
  ∧ rp_filter k' = rp_filter k ∧ shell_log k' = shell_log k.
Proof.
  revert k; induction pids as [|p pids IH]; intros k; simpl; [done|].
  specialize (IH (writePidToCGroup proc p cg k)). simpl in IH.
  pose proof (writePidToCGroup_frame proc p cg k) as H. simpl in H.
  destruct IH as (->&->&->&->&->&->&->&->). done.
Qed.

(** The cgroup of a pid after a pass of writes. *)
Lemma write_all_lookup proc cg pids k q :
  cgroup_procs (write_all proc cg pids k) !! q =
  if decide (q ∈ pids ∧ is_Some (proc !! q)) then Some cg
  else cgroup_procs k !! q.
Proof.
  revert k; induction pids as [|p pids IH]; intros k.
  - change (write_all proc cg [] k) with k.
    rewrite decide_False; [done|]. intros [H _]. by apply elem_of_nil in H.
  - change (write_all proc cg (p :: pids) k)
      with (write_all proc cg pids (writePidToCGroup proc p cg k)).
    rewrite IH. unfold writePidToCGroup.
    destruct (decide (q ∈ pids ∧ is_Some (proc !! q))) as [[H1 H2]|Hn].
    + rewrite decide_True; [done|]. split; [by right|done].
    + destruct (decide (is_Some (proc !! p))) as [Hp|Hp]; simpl.
      * destruct (decide (p = q)) as [->|Hne].
        -- rewrite lookup_insert_eq. rewrite decide_True; [done|].
           split; [by left|done].
        -- rewrite lookup_insert_ne by done.
           rewrite decide_False; [done|].
           intros [Hin Hq]. apply elem_of_cons in Hin as [->|Hin]; [done|].
           apply Hn. done.
      * rewrite decide_False; [done|].
        intros [Hin Hq]. apply elem_of_cons in Hin as [->|Hin]; [done|].
        apply Hn. done.
Qed.

(** *** The methods as one pass of writes *)

Lemma for_each_writes {A : Type} proc cg (body : A → Kernel → option Kernel)
    (wr : A → option (list Z)) (xs : list A) k :
  (∀ x k, body x k = ws ← wr x; Some (write_all proc cg ws k)) →
  for_each xs body k = ws ← collect wr xs; Some (write_all proc cg ws k).
Proof.
  intros Hbody. revert k; induction xs as [|x xs IH]; intros k; simpl; [done|].
  rewrite Hbody. destruct (wr x) as [ws|]; simpl; [|done].
  rewrite IH. destruct (collect wr xs) as [ws'|]; simpl; [|done].
  by rewrite write_all_app.
Qed.

Lemma addPidToCgroup_writes fuel proc pid cg k :
  addPidToCgroup fuel proc pid cg k =
  ws ← descendants fuel proc pid; Some (write_all proc cg ws k).
Proof.
  revert pid k; induction fuel as [|fuel IH]; intros pid k; simpl; [done|].
  rewrite (for_each_writes proc cg _ (descendants fuel proc)) by (intros; apply IH).
  by destruct (collect _ _).
Qed.

Lemma removePidFromCgroup_writes fuel proc pid cg k :
  removePidFromCgroup fuel proc pid cg k =
  ws ← descendants fuel proc pid; Some (write_all proc cg ws k).
Proof.
  revert pid k; induction fuel as [|fuel IH]; intros pid k; simpl; [done|].
  rewrite (for_each_writes proc cg _ (descendants fuel proc)) by (intros; apply IH).
  by destruct (collect _ _).
Qed.

Lemma addPidToCgroup_unfold fuel proc pid cg k :
  addPidToCgroup (S fuel) proc pid cg k =
  addChildPidsToCgroup fuel proc pid cg (writePidToCGroup proc pid cg k).
Proof. done. Qed.

Lemma removePidFromCgroup_unfold fuel proc pid cg k :
  removePidFromCgroup (S fuel) proc pid cg k =
  removeChildPidsFromCgroup fuel proc pid cg (writePidToCGroup proc pid cg k).
Proof. done. Qed.

(** ** Termination of the recursion over child processes *)

Lemma collect_is_Some {A : Type} (wr : A → option (list Z)) (xs : list A) :
  (∀ x, x ∈ xs → is_Some (wr x)) → is_Some (collect wr xs).
Proof.
  induction xs as [|x xs IH]; intros H; simpl; [by eexists|].
  destruct (H x) as [ws ->]; [by left|]. simpl.
  destruct IH as [ws' ->]; [|by eexists].
  intros y Hy. apply H. by right.
Qed.

Lemma collect_ext {A : Type} (wr wr' : A → option (list Z)) (xs : list A) ws :
  (∀ x w, x ∈ xs → wr x = Some w → wr' x = Some w) →
  collect wr xs = Some ws → collect wr' xs = Some ws.
Proof.
  revert ws; induction xs as [|x xs IH]; intros ws H; simpl; [done|].
  destruct (wr x) as [w|] eqn:Hx; simpl; [|done].
  rewrite (H x w) by (done || by left). simpl.
  destruct (collect wr xs) as [w'|] eqn:Hxs; simpl; [|done].
  rewrite (IH w'); [done| |done].
  intros y wy Hy. apply H. by right.
Qed.

Lemma descendants_S fuel proc pid :
  descendants (S fuel) proc pid =
  ws ← collect (descendants fuel proc) (elements (childPidsOf proc pid));
  Some (pid :: ws).
Proof. done. Qed.

(** More fuel never changes an answer. *)
Lemma descendants_mono fuel fuel' proc pid ws :
  (fuel ≤ fuel')%nat →
  descendants fuel proc pid = Some ws → descendants fuel' proc pid = Some ws.
Proof.
  revert fuel' pid ws; induction fuel as [|fuel IH]; intros fuel' pid ws Hle H;
    [done|].
  destruct fuel' as [|fuel']; [lia|].
  rewrite descendants_S in H. rewrite descendants_S.
  destruct (collect (descendants fuel proc) _) as [w|] eqn:Hc; simpl in H;
    [|done].
  injection H as <-.
  rewrite (collect_ext (descendants fuel proc) (descendants fuel' proc) _ w);
    [done| |done].
  intros x wx _. apply IH. lia.
Qed.

Lemma tc_child_of_listed proc pid q :
  tc (child_of proc) pid q → q ∈ dom proc.
Proof.
  induction 1 as [p q H|]; [|done].
  apply elem_of_childPidsOf in H as (st & Hst & _).
  apply elem_of_dom. by eexists.
Qed.

Lemma descendants_total_in proc :
  acyclic proc →
  ∀ (n : nat) (X : gset Z) pid,
    (size X ≤ n)%nat → (∀ q, tc (child_of proc) pid q → q ∈ X) →
    is_Some (descendants (S n) proc pid).
Proof.
  intros Hacyc n. induction n as [|n IH]; intros X pid Hsize Hdesc.
  - rewrite descendants_S.
    destruct (collect_is_Some (descendants 0 proc)
                (elements (childPidsOf proc pid))) as [ws ->]; [|by eexists].
    intros c Hc. apply elem_of_elements in Hc.
    assert (c ∈ X) as HcX by (apply Hdesc; by apply tc_once).
    assert (X ≡ ∅) as HX by (apply size_empty_iff; lia).
    rewrite HX in HcX. by apply not_elem_of_empty in HcX.
  - rewrite descendants_S.
    destruct (collect_is_Some (descendants (S n) proc)
                (elements (childPidsOf proc pid))) as [ws ->]; [|by eexists].
    intros c Hc. apply elem_of_elements in Hc.
    assert (c ∈ X) as HcX by (apply Hdesc; by apply tc_once).
    apply (IH (X ∖ {[c]})).
    + rewrite size_difference by set_solver.
      rewrite size_singleton.
      assert (size X ≠ 0)%nat by (apply size_non_empty_iff; set_solver).
      lia.
    + intros q Hq. apply elem_of_difference. split.
      * apply Hdesc. by eapply tc_l.
      * rewrite elem_of_singleton. intros ->. by apply (Hacyc c).
Qed.

Lemma descendants_total proc pid (fuel : nat) :
  acyclic proc → (size proc < fuel)%nat → is_Some (descendants fuel proc pid).
Proof.
  intros Hacyc Hfuel.
  destruct (descendants_total_in proc Hacyc (size proc) (dom proc) pid)
    as [ws Hws].
  - by rewrite size_dom.
  - intros q. apply tc_child_of_listed.
  - exists ws. eapply descendants_mono; [|done]. lia.
Qed.

Lemma descendants_cyclic fuel :
  descendants fuel cyclic_proc 2 = None ∧ descendants fuel cyclic_proc 3 = None.
Proof.
  induction fuel as [|fuel [IH2 IH3]]; [done|].
  split.
  - rewrite descendants_S.
    replace (elements (childPidsOf cyclic_proc 2)) with [3] by by vm_compute.
    simpl. by rewrite IH3.
  - rewrite descendants_S.
    replace (elements (childPidsOf cyclic_proc 3)) with [2] by by vm_compute.
    simpl. by rewrite IH2.
Qed.

(** C9, as stated, fails: the source has no depth bound, and on a snapshot
    whose PPid lines form the cycle 2 → 3 → 2 neither recursion returns,
    whatever the fuel. *)
Lemma recursion_unbounded_on_cycle :
  ¬ (∀ proc pid cg k,
       (∃ fuel, is_Some (addPidToCgroup fuel proc pid cg k))
       ∧ (∃ fuel, is_Some (removePidFromCgroup fuel proc pid cg k))).
Proof.
  intros H.
  destruct (H cyclic_proc 2 VpnExclusionsFile (bootKernel "1"))
    as [[fuel [k' Hk']] _].
  rewrite addPidToCgroup_writes in Hk'.
  by rewrite (proj1 (descendants_cyclic fuel)) in Hk'.
Qed.

(** C9, amended: when the PPid lines of the snapshot contain no cycle, the
    recursive assignment and the recursive removal both return, at any
    depth allowance above the number of processes listed. *)
Theorem recursion_terminates_when_acyclic proc pid cg k (fuel : nat) :
  acyclic proc → (size proc < fuel)%nat →
  (∃ k', addPidToCgroup fuel proc pid cg k = Some k')
  ∧ (∃ k', removePidFromCgroup fuel proc pid cg k = Some k').
Proof.
  intros Hacyc Hfuel.
  destruct (descendants_total proc pid fuel Hacyc Hfuel) as [ws Hws].
  rewrite addPidToCgroup_writes, removePidFromCgroup_writes, Hws. simpl.
  split; by eexists.
Qed.

(** A snapshot in which every child ranks above its parent has no cycle. *)
Lemma acyclic_by_rank proc (rank : Z → nat) :
  (∀ parentPid pid, child_of proc parentPid pid →
                    (rank parentPid < rank pid)%nat) →
  acyclic proc.
Proof.
  intros Hrank pid Hcyc.
  assert (∀ p q, tc (child_of proc) p q → (rank p < rank q)%nat) as Hlt.
  { induction 1 as [p q H|p q r H _ IH].
    - by apply Hrank.
    - specialize (Hrank _ _ H). lia. }
  specialize (Hlt _ _ Hcyc). lia.
Qed.

Lemma proc_family_acyclic : acyclic proc_family.
Proof.
  apply (acyclic_by_rank proc_family Z.to_nat).
  intros parentPid pid H. apply elem_of_childPidsOf in H as (st & Hst & Hpp).
  unfold proc_family in Hst.
  destruct (decide (pid = 3000)) as [->|H1].
  - rewrite lookup_insert_eq in Hst. injection Hst as <-.
    injection Hpp as <-. lia.
  - rewrite lookup_insert_ne in Hst by done.
    destruct (decide (pid = 3001)) as [->|H2].
    + rewrite lookup_insert_eq in Hst. injection Hst as <-.
      injection Hpp as <-. lia.
    + rewrite lookup_insert_ne in Hst by done. by rewrite lookup_empty in Hst.
Defined.

Lemma recursion_terminates_when_acyclic_witness :
  (∃ k', addPidToCgroup 3 proc_family 3000 VpnExclusionsFile (bootKernel "1")
         = Some k')
  ∧ (∃ k', removePidFromCgroup 3 proc_family 3000 ParentVpnExclusionsFile
             (bootKernel "1") = Some k').
Proof.
  split.
  - apply (recursion_terminates_when_acyclic proc_family 3000
             VpnExclusionsFile (bootKernel "1") 3%nat proc_family_acyclic).
    vm_compute. lia.
  - apply (recursion_terminates_when_acyclic proc_family 3000
             ParentVpnExclusionsFile (bootKernel "1") 3%nat
             proc_family_acyclic).
    vm_compute. lia.
Defined.

(** ** What [removeApps] and [addApps] compute *)

Lemma collect_cons {A : Type} (wr : A → option (list Z)) x xs :
  collect wr (x :: xs) = ws ← wr x; ws' ← collect wr xs; Some (ws ++ ws')%list.
Proof. done. Qed.

Lemma evict_writes_keep fuel proc keepApps (m : gmap string (gset Z)) app :
  app ∈ keepApps → evict_writes fuel proc keepApps m app = Some [].
Proof. intros H. unfold evict_writes. by rewrite decide_True. Qed.

Lemma evict_writes_drop fuel proc keepApps (m : gmap string (gset Z)) app :
  app ∉ keepApps →
  evict_writes fuel proc keepApps m app =
  collect (descendants fuel proc) (elements (default ∅ (m !! app))).
Proof. intros H. unfold evict_writes. by rewrite decide_False. Qed.

Lemma lookup_evict keepApps apps (m : gmap string (gset Z)) a :
  evict keepApps apps m !! a =
  if decide (a ∈ apps ∧ a ∉ keepApps) then None else m !! a.
Proof.
  revert m; induction apps as [|app apps IH]; intros m.
  - change (evict keepApps [] m) with m.
    rewrite decide_False; [done|]. intros [H _]. by apply elem_of_nil in H.
  - change (evict keepApps (app :: apps) m) with
      (evict keepApps apps (if decide (app ∈ keepApps) then m else delete app m)).
    rewrite IH.
    destruct (decide (a ∈ apps ∧ a ∉ keepApps)) as [[H1 H2]|Hn].
    + rewrite decide_True; [done|]. split; [by right|done].
    + destruct (decide (app ∈ keepApps)) as [Hk|Hk].
      * rewrite decide_False; [done|]. intros [Hin Hnk].
        apply elem_of_cons in Hin as [->|Hin]; [done|]. by apply Hn.
      * destruct (decide (a = app)) as [->|Hne].
        -- rewrite lookup_delete_eq. rewrite decide_True; [done|].
           split; [by left|done].
        -- rewrite lookup_delete_ne by done.
           rewrite decide_False; [done|]. intros [Hin Hnk].
           apply elem_of_cons in Hin as [->|Hin]; [done|]. by apply Hn.
Qed.

Lemma lookup_scan_map proc apps (m : gmap string (gset Z)) a :
  scan_map proc apps m !! a =
  if decide (a ∈ apps) then Some (pidsForPath proc a) else m !! a.
Proof.
  revert m; induction apps as [|app apps IH]; intros m.
  - change (scan_map proc [] m) with m.
    rewrite decide_False; [done|]. apply not_elem_of_nil.
  - change (scan_map proc (app :: apps) m) with
      (scan_map proc apps (<[app := pidsForPath proc app]> m)).
    rewrite IH. destruct (decide (a ∈ apps)) as [Hin|Hn].
    + rewrite decide_True; [done|]. by right.
    + destruct (decide (a = app)) as [->|Hne].
      * rewrite lookup_insert_eq. rewrite decide_True; [done|]. by left.
      * rewrite lookup_insert_ne by done. rewrite decide_False; [done|].
        intros Hin. apply elem_of_cons in Hin as [->|Hin]; done.
Qed.

(** After a removal pass over all the keys and a scan, the map is decided by
    the list and /proc alone. *)
Lemma lookup_scan_evict proc apps (m : gmap string (gset Z)) a :
  scan_map proc apps (evict apps (elements (dom m)) m) !! a =
  if decide (a ∈ apps) then Some (pidsForPath proc a) else None.
Proof.
  rewrite lookup_scan_map. destruct (decide (a ∈ apps)) as [Hin|Hn]; [done|].
  rewrite lookup_evict. case_decide as H; [done|].
  apply not_elem_of_dom. intros Hd. apply H. split; [|done].
  by apply elem_of_elements.
Qed.

Lemma addApps_pids fuel proc cg app pids (m : gmap string (gset Z)) X k :
  m !! app = Some X →
  for_each pids
    (λ pid '(appMap, k),
       k' ← addPidToCgroup fuel proc pid cg k;
       Some (<[app := default ∅ (appMap !! app) ∪ {[pid]}]> appMap, k'))
    (m, k) =
  ws ← collect (descendants fuel proc) pids;
  Some (<[app := X ∪ list_to_set pids]> m, write_all proc cg ws k).
Proof.
  revert m X k; induction pids as [|pid pids IH]; intros m X k Hm.
  - simpl. rewrite union_empty_r_L. by rewrite insert_id.
  - simpl. rewrite addPidToCgroup_writes.
    destruct (descendants fuel proc pid) as [w|]; simpl; [|done].
    rewrite (IH _ (X ∪ {[pid]})) by (rewrite Hm; simpl; apply lookup_insert_eq).
    destruct (collect (descendants fuel proc) pids) as [ws|]; simpl; [|done].
    rewrite Hm. simpl. rewrite insert_insert_eq, write_all_app.
    do 3 f_equal. set_solver.
Qed.

Lemma addApps_eq fuel proc apps cg (m : gmap string (gset Z)) k :
  addApps fuel proc apps cg (m, k) =
  ws ← collect (app_writes fuel proc) apps;
  Some (scan_map proc apps m, write_all proc cg ws k).
Proof.
  unfold addApps. revert m k; induction apps as [|app apps IH]; intros m k.
  - done.
  - rewrite collect_cons. cbn [for_each].
    change (scan_map proc (app :: apps) m) with
      (scan_map proc apps (<[app := pidsForPath proc app]> m)).
    rewrite (addApps_pids fuel proc cg app _ (<[app := ∅]> m) ∅ k)
      by apply lookup_insert_eq.
    change (app_writes fuel proc app) with
      (collect (descendants fuel proc) (elements (pidsForPath proc app))).
    destruct (collect (descendants fuel proc) _) as [w|]; simpl; [|done].
    rewrite insert_insert_eq, union_empty_l_L, list_to_set_elements_L.
    rewrite IH.
    destruct (collect (app_writes fuel proc) apps) as [ws|]; simpl; [|done].
    by rewrite write_all_app.
Qed.

Lemma removeApps_loop fuel proc keepApps (m0 : gmap string (gset Z)) apps
    (m : gmap string (gset Z)) k :
  NoDup apps → (∀ app, app ∈ apps → m !! app = m0 !! app) →
  for_each apps
    (λ app '(appMap, k),
       if decide (app ∈ keepApps) then Some (appMap, k)
       else
         k' ← for_each (elements (default ∅ (appMap !! app)))
                (λ pid, removePidFromCgroup fuel proc pid
                          ParentVpnExclusionsFile) k;
         Some (delete app appMap, k'))
    (m, k) =
  ws ← collect (evict_writes fuel proc keepApps m0) apps;
  Some (evict keepApps apps m, write_all proc ParentVpnExclusionsFile ws k).
Proof.
  revert m k; induction apps as [|app apps IH]; intros m k Hnd Hm; [done|].
  apply NoDup_cons in Hnd as [Hnotin Hnd].
  rewrite collect_cons. cbn [for_each].
  change (evict keepApps (app :: apps) m) with
    (evict keepApps apps (if decide (app ∈ keepApps) then m else delete app m)).
  destruct (decide (app ∈ keepApps)) as [Hk|Hk].
  - rewrite evict_writes_keep by done. rewrite IH; [|done|].
    + by destruct (collect _ apps).
    + intros a Ha. apply Hm. by right.
  - rewrite evict_writes_drop by done.
    rewrite (for_each_writes proc ParentVpnExclusionsFile _
               (descendants fuel proc))
      by (intros; apply removePidFromCgroup_writes).
    rewrite Hm by by left.
    destruct (collect (descendants fuel proc) _) as [w|]; simpl; [|done].
    rewrite IH; [|done|].
    + destruct (collect _ apps) as [ws|]; simpl; [|done].
      by rewrite write_all_app.
    + intros a Ha. rewrite lookup_delete_ne; [apply Hm; by right|].
      intros ->. done.
Qed.

Lemma removeApps_eq fuel proc keepApps (m : gmap string (gset Z)) k :
  removeApps fuel proc keepApps (m, k) =
  ws ← collect (evict_writes fuel proc keepApps m) (elements (dom m));
  Some (evict keepApps (elements (dom m)) m,
        write_all proc ParentVpnExclusionsFile ws k).
Proof.
  unfold removeApps. simpl.
  apply removeApps_loop; [apply NoDup_elements|done].
Qed.

(** [updateApps], unfolded into its four passes. *)
Lemma updateApps_eq fuel proc excludedApps vpnOnlyApps s :
  updateApps fuel proc excludedApps vpnOnlyApps s =
  let exl := if isValid (_previousNetScan (self s)) then excludedApps else [] in
  let em := _exclusionsMap (self s) in
  let vm := _vpnOnlyMap (self s) in
  wR1 ← collect (evict_writes fuel proc exl em) (elements (dom em));
  wE ← collect (app_writes fuel proc) exl;
  wR2 ← collect (evict_writes fuel proc vpnOnlyApps vm) (elements (dom vm));
  wV ← collect (app_writes fuel proc) vpnOnlyApps;
  Some (mkState
          (set_vpnOnlyMap
             (scan_map proc vpnOnlyApps
                (evict vpnOnlyApps (elements (dom vm)) vm))
             (set_exclusionsMap
                (scan_map proc exl (evict exl (elements (dom em)) em))
                (self s)))
          (write_all proc VpnOnlyFile wV
             (write_all proc ParentVpnExclusionsFile wR2
                (write_all proc VpnExclusionsFile wE
                   (write_all proc ParentVpnExclusionsFile wR1 (sys s)))))).
Proof.
  unfold updateApps. cbv zeta.
  rewrite removeApps_eq.
  destruct (collect (evict_writes _ _ _ (_exclusionsMap _)) _) as [wR1|];
    [|done].
  cbn [mbind option_bind]. rewrite addApps_eq.
  destruct (collect (app_writes fuel proc) (if isValid _ then _ else _))
    as [wE|]; [|done].
  cbn [mbind option_bind]. rewrite removeApps_eq.
  destruct (collect (evict_writes _ _ _ (_vpnOnlyMap _)) _) as [wR2|];
    [|done].
  cbn [mbind option_bind]. rewrite addApps_eq.
  by destruct (collect (app_writes fuel proc) vpnOnlyApps) as [wV|].
Qed.

Lemma updateApps_inv fuel proc excludedApps vpnOnlyApps s s' :
  updateApps fuel proc excludedApps vpnOnlyApps s = Some s' →
  let exl := if isValid (_previousNetScan (self s)) then excludedApps else [] in
  let em := _exclusionsMap (self s) in
  let vm := _vpnOnlyMap (self s) in
  ∃ wR1 wE wR2 wV,
    collect (evict_writes fuel proc exl em) (elements (dom em)) = Some wR1
    ∧ collect (app_writes fuel proc) exl = Some wE
    ∧ collect (evict_writes fuel proc vpnOnlyApps vm) (elements (dom vm))
      = Some wR2
    ∧ collect (app_writes fuel proc) vpnOnlyApps = Some wV
    ∧ s' = mkState
             (set_vpnOnlyMap
                (scan_map proc vpnOnlyApps
                   (evict vpnOnlyApps (elements (dom vm)) vm))
                (set_exclusionsMap
                   (scan_map proc exl (evict exl (elements (dom em)) em))
                   (self s)))
             (write_all proc VpnOnlyFile wV
                (write_all proc ParentVpnExclusionsFile wR2
                   (write_all proc VpnExclusionsFile wE
                      (write_all proc ParentVpnExclusionsFile wR1 (sys s))))).
Proof.
  rewrite updateApps_eq. cbv zeta. intros H.
  apply bind_Some in H as (wR1 & E1 & H).
  apply bind_Some in H as (wE & E2 & H).
  apply bind_Some in H as (wR2 & E3 & H).
  apply bind_Some in H as (wV & E4 & H).
  injection H as <-. by exists wR1, wE, wR2, wV.
Qed.

(** What [updateApps] leaves in the tracker. *)
Lemma updateApps_self fuel proc excludedApps vpnOnlyApps s s' :
  updateApps fuel proc excludedApps vpnOnlyApps s = Some s' →
  let exl := if isValid (_previousNetScan (self s)) then excludedApps else [] in
  (∀ a, _exclusionsMap (self s') !! a =
        if decide (a ∈ exl) then Some (pidsForPath proc a) else None)
  ∧ (∀ a, _vpnOnlyMap (self s') !! a =
          if decide (a ∈ vpnOnlyApps) then Some (pidsForPath proc a) else None)
  ∧ _sockFd (self s') = _sockFd (self s)
  ∧ _readNotifier (self s') = _readNotifier (self s)
  ∧ _previousNetScan (self s') = _previousNetScan (self s)
  ∧ _previousTunnelDeviceLocalAddress (self s')
    = _previousTunnelDeviceLocalAddress (self s)
  ∧ _previousRPFilter (self s') = _previousRPFilter (self s).
Proof.
  intros H. apply updateApps_inv in H as (wR1 & wE & wR2 & wV & _ & _ & _ & _ & ->).
  cbv zeta. simpl.
  split; [intros a; apply lookup_scan_evict|].
  split; [intros a; apply lookup_scan_evict|]. done.
Qed.

(** [updateApps] acts on the kernel through cgroup writes only. *)
Lemma updateApps_sys fuel proc excludedApps vpnOnlyApps s s' :
  updateApps fuel proc excludedApps vpnOnlyApps s = Some s' →
  ip_rules (sys s') = ip_rules (sys s)
  ∧ route_bypass (sys s') = route_bypass (sys s)
  ∧ route_vpnOnly (sys s') = route_vpnOnly (sys s)
  ∧ anchor_tagPkts (sys s') = anchor_tagPkts (sys s)
  ∧ anchor_transIp (sys s') = anchor_transIp (sys s)
  ∧ transIp_rules (sys s') = transIp_rules (sys s)
  ∧ rp_filter (sys s') = rp_filter (sys s)
  ∧ shell_log (sys s') = shell_log (sys s).
Proof.
  intros H. apply updateApps_inv in H as (wR1 & wE & wR2 & wV & _ & _ & _ & _ & ->).
  simpl.
  pose proof (write_all_frame proc ParentVpnExclusionsFile wR1 (sys s)) as H1.
  pose proof (write_all_frame proc VpnExclusionsFile wE
                (write_all proc ParentVpnExclusionsFile wR1 (sys s))) as H2.
  pose proof (write_all_frame proc ParentVpnExclusionsFile wR2
                (write_all proc VpnExclusionsFile wE
                   (write_all proc ParentVpnExclusionsFile wR1 (sys s)))) as H3.
  pose proof (write_all_frame proc VpnOnlyFile wV
                (write_all proc ParentVpnExclusionsFile wR2
                   (write_all proc VpnExclusionsFile wE
                      (write_all proc ParentVpnExclusionsFile wR1 (sys s)))))
    as H4.
  simpl in H1, H2, H3, H4.
  destruct H1 as (E1&E2&E3&E4&E5&E6&E7&E8).
  destruct H2 as (F1&F2&F3&F4&F5&F6&F7&F8).
  destruct H3 as (G1&G2&G3&G4&G5&G6&G7&G8).
  destruct H4 as (I1&I2&I3&I4&I5&I6&I7&I8).
  repeat split; congruence.
Qed.

Lemma removeAllApps_inv fuel proc s s' :
  removeAllApps fuel proc s = Some s' →
  self s' = set_vpnOnlyMap ∅ (set_exclusionsMap ∅ (self s))
  ∧ ∃ ws, sys s' = write_all proc ParentVpnExclusionsFile ws (sys s).
Proof.
  unfold removeAllApps. rewrite removeApps_eq.
  destruct (collect (evict_writes _ _ _ (_exclusionsMap _)) _) as [w1|];
    [|done].
  cbn [mbind option_bind]. rewrite removeApps_eq.
  destruct (collect (evict_writes _ _ _ (_vpnOnlyMap _)) _) as [w2|]; [|done].
  cbn [mbind option_bind]. intros [= <-]. simpl. split; [done|].
  exists (w1 ++ w2)%list. by rewrite write_all_app.
Qed.

(** What [shutdownConnection] leaves in the tracker. *)
Lemma shutdownConnection_self fuel proc s s' :
  shutdownConnection fuel proc s = Some s' →
  self s' =
  mkTracker (-1) None ∅ ∅ noScan (_previousTunnelDeviceLocalAddress (self s))
    (_previousRPFilter (self s)).
Proof.
  unfold shutdownConnection.
  destruct (removeAllApps _ _ _) as [s2|] eqn:E; simpl; [|done].
  apply removeAllApps_inv in E as [E _]. simpl in E.
  intros [= <-]. unfold teardownReversePathFiltering. simpl.
  case_decide; simpl; by rewrite E.
Qed.

(** ** Every call returns on a snapshot without a cycle *)

Lemma collect_descendants_total fuel proc (pids : list Z) :
  acyclic proc → (size proc < fuel)%nat →
  is_Some (collect (descendants fuel proc) pids).
Proof.
  intros Hacyc Hfuel. apply collect_is_Some. intros pid _.
  by apply descendants_total.
Qed.

Lemma collect_app_writes_total fuel proc (apps : list string) :
  acyclic proc → (size proc < fuel)%nat →
  is_Some (collect (app_writes fuel proc) apps).
Proof.
  intros Hacyc Hfuel. apply collect_is_Some. intros app _.
  by apply collect_descendants_total.
Qed.

Lemma collect_evict_writes_total fuel proc keepApps
    (m : gmap string (gset Z)) (apps : list string) :
  acyclic proc → (size proc < fuel)%nat →
  is_Some (collect (evict_writes fuel proc keepApps m) apps).
Proof.
  intros Hacyc Hfuel. apply collect_is_Some. intros app _.
  unfold evict_writes. case_decide; [by eexists|].
  by apply collect_descendants_total.
Qed.

Lemma updateApps_returns fuel proc excludedApps vpnOnlyApps s :
  acyclic proc → (size proc < fuel)%nat →
  is_Some (updateApps fuel proc excludedApps vpnOnlyApps s).
Proof.
  intros Hacyc Hfuel. rewrite updateApps_eq. cbv zeta.
  destruct (collect_evict_writes_total fuel proc
              (if isValid (_previousNetScan (self s)) then excludedApps else [])
              (_exclusionsMap (self s))
              (elements (dom (_exclusionsMap (self s)))) Hacyc Hfuel)
    as [wR1 ->].
  destruct (collect_app_writes_total fuel proc
              (if isValid (_previousNetScan (self s)) then excludedApps else [])
              Hacyc Hfuel) as [wE ->].
  destruct (collect_evict_writes_total fuel proc vpnOnlyApps
              (_vpnOnlyMap (self s)) (elements (dom (_vpnOnlyMap (self s))))
              Hacyc Hfuel) as [wR2 ->].
  destruct (collect_app_writes_total fuel proc vpnOnlyApps Hacyc Hfuel)
    as [wV ->].
  by eexists.
Qed.

Lemma removeAllApps_returns fuel proc s :
  acyclic proc → (size proc < fuel)%nat → is_Some (removeAllApps fuel proc s).
Proof.
  intros Hacyc Hfuel. unfold removeAllApps.
  rewrite removeApps_eq.
  destruct (collect_evict_writes_total fuel proc [] (_exclusionsMap (self s))
              (elements (dom (_exclusionsMap (self s)))) Hacyc Hfuel)
    as [w1 ->].
  cbn [mbind option_bind]. rewrite removeApps_eq.
  destruct (collect_evict_writes_total fuel proc [] (_vpnOnlyMap (self s))
              (elements (dom (_vpnOnlyMap (self s)))) Hacyc Hfuel)
    as [w2 ->].
  by eexists.
Qed.

Lemma shutdownConnection_returns fuel proc s :
  acyclic proc → (size proc < fuel)%nat →
  is_Some (shutdownConnection fuel proc s).
Proof.
  intros Hacyc Hfuel. unfold shutdownConnection.
  destruct (removeAllApps_returns fuel proc
              (mkState (set_readNotifier None (self s))
                 (teardownFirewall (sys s))) Hacyc Hfuel) as [s2 ->].
  by eexists.
Qed.

Lemma addLaunchedApp_returns fuel proc pid s :
  acyclic proc → (size proc < fuel)%nat →
  is_Some (addLaunchedApp fuel proc pid s).
Proof.
  intros Hacyc Hfuel. unfold addLaunchedApp. cbv zeta.
  assert (∀ cg, is_Some (addPidToCgroup fuel proc pid cg (sys s))) as Hadd.
  { intros cg. rewrite addPidToCgroup_writes.
    destruct (descendants_total proc pid fuel Hacyc Hfuel) as [ws ->].
    by eexists. }
  destruct (decide (pathForPid proc pid = "")); [by eexists|].
  destruct (decide (is_Some (_exclusionsMap (self s) !! _))).
  { destruct (isValid _); [|by eexists].
    destruct (Hadd VpnExclusionsFile) as [k ->]. by eexists. }
  destruct (decide (is_Some (_vpnOnlyMap (self s) !! _))); [|by eexists].
  destruct (Hadd VpnOnlyFile) as [k ->]. by eexists.
Qed.

Lemma initiateConnection_returns fuel proc env params tn tl tr s :
  acyclic proc → (size proc < fuel)%nat →
  is_Some (initiateConnection fuel proc env params tn tl tr s).
Proof.
  intros Hacyc Hfuel. unfold initiateConnection.
  assert (is_Some (if decide (_sockFd (self s) ≠ -1)
                   then shutdownConnection fuel proc s else Some s))
    as [s1 ->].
  { case_decide; [by apply shutdownConnection_returns|by eexists]. }
  cbn [mbind option_bind]. cbv zeta.
  destruct (decide (socket_ret env = -1)); [by eexists|].
  destruct (decide (bind_ret env = -1)); [by eexists|].
  destruct (decide (subscribeToProcEvents (send_ret env) = -1));
    [by eexists|].
  unfold updateSplitTunnel.
  destruct (updateApps_returns fuel proc (excludeApps params)
              (vpnOnlyApps params)
              (updateNetwork params tn tl tr
                 (mkState (set_sockFd (socket_ret env) (self s1))
                    (setupFirewall (sys s1)))) Hacyc Hfuel) as [s2 ->].
  by eexists.
Qed.

Lemma step_returns fuel proc op s :
  acyclic proc → (size proc < fuel)%nat → is_Some (step fuel proc op s).
Proof.
  intros Hacyc Hfuel.
  destruct op as [env params tn tl tr|params tn tl tr ex vo| |pid|pid]; simpl.
  - by apply initiateConnection_returns.
  - by apply updateApps_returns.
  - by apply shutdownConnection_returns.
  - by apply addLaunchedApp_returns.
  - by eexists.
Qed.

(** A sequence of public operations returns when no snapshot it is run
    under has a cycle and the depth allowance exceeds their sizes. *)
Lemma run_returns fuel calls s :
  Forall (λ c, acyclic c.1 ∧ (size c.1 < fuel)%nat) calls →
  is_Some (run fuel calls s).
Proof.
  intros Hcalls. unfold run.
  revert s; induction Hcalls as [|[proc op] calls [Hacyc Hfuel] _ IH];
    intros s; simpl; [by eexists|].
  destruct (step_returns fuel proc op s Hacyc Hfuel) as [s1 ->].
  apply IH.
Qed.

(** ** Session start that fails (C8) *)

(** C8: when ::socket, ::bind or the subscription fails, [initiateConnection]
    does what the implicit [shutdownConnection] does when a socket was open
    and nothing else: the result is the state after that shutdown, or the
    state as it was when no socket was open; the descriptor is -1 either
    way.  The state holds the maps, the previous scan and tunnel address, the
    anchors, routes, source-IP rules, rp_filter and the command history. *)
Theorem initiateConnection_failure fuel proc env params tn tl tr s :
  socket_ret env = -1 ∨ bind_ret env = -1 ∨ send_ret env = -1 →
  initiateConnection fuel proc env params tn tl tr s
  = (if decide (_sockFd (self s) ≠ -1) then shutdownConnection fuel proc s
     else Some s)
  ∧ ∀ s', initiateConnection fuel proc env params tn tl tr s = Some s' →
          _sockFd (self s') = -1 ∧ (_sockFd (self s) = -1 → s' = s).
Proof.
  intros Hfail.
  assert (initiateConnection fuel proc env params tn tl tr s
          = (if decide (_sockFd (self s) ≠ -1) then shutdownConnection fuel proc s
             else Some s)) as Heq.
  { unfold initiateConnection.
    destruct (if decide (_sockFd (self s) ≠ -1) then _ else _) as [s1|];
      [|done].
    cbn [mbind option_bind].
    destruct (decide (socket_ret env = -1)) as [|Hs]; [done|].
    destruct (decide (bind_ret env = -1)) as [|Hb]; [done|].
    destruct (decide (subscribeToProcEvents (send_ret env) = -1)) as [|Hn];
      [done|].
    exfalso. destruct Hfail as [?|[?|Hsend]]; [done|done|].
    apply Hn. unfold subscribeToProcEvents. by rewrite decide_True. }
  split; [done|]. intros s'. rewrite Heq.
  destruct (decide (_sockFd (self s) ≠ -1)) as [Hopen|Hclosed].
  - intros H. apply shutdownConnection_self in H. rewrite H. simpl.
    split; [done|]. intros Hc. by destruct Hopen.
  - intros [= <-]. apply dec_stable in Hclosed. done.
Qed.

Lemma initiateConnection_failure_witness :
  initiateConnection 3 ∅ (mkEnv 7 (-1) 0 0)
    (mkParams (mkScan "192.168.1.1" "eth0" "192.168.1.5") ["/usr/bin/foo"] [])
    "tun0" "10.0.0.2" "10.0.0.1" (initial "1")
  = Some (initial "1").
Proof.
  refine (proj1 (initiateConnection_failure 3 ∅ (mkEnv 7 (-1) 0 0)
            (mkParams (mkScan "192.168.1.1" "eth0" "192.168.1.5")
               ["/usr/bin/foo"] [])
            "tun0" "10.0.0.2" "10.0.0.1" (initial "1") _)).
  right. left. reflexivity.
Defined.

(** ** Gating of the exclusions map (C2) *)

Lemma updateApps_gating fuel proc excludedApps vpnOnlyApps s s' :
  updateApps fuel proc excludedApps vpnOnlyApps s = Some s' →
  isValid (_previousNetScan (self s)) = false →
  _exclusionsMap (self s') = ∅.
Proof.
  intros H Hinv. apply updateApps_self in H as (Hex & _). cbv zeta in Hex.
  rewrite Hinv in Hex. apply map_eq. intros a. rewrite Hex, lookup_empty.
  rewrite decide_False; [done|]. apply not_elem_of_nil.
Qed.

Lemma updateSplitTunnel_gating fuel proc params tn tl tr ex vo s s' :
  updateSplitTunnel fuel proc params tn tl tr ex vo s = Some s' → gating s'.
Proof.
  unfold updateSplitTunnel. intros H Hinv.
  pose proof (updateApps_self _ _ _ _ _ _ H) as (_ & _ & _ & _ & Hscan & _).
  eapply updateApps_gating; [done|]. by rewrite <- Hscan.
Qed.

Lemma addLaunchedApp_invalid fuel proc pid s s' :
  isValid (_previousNetScan (self s)) = false →
  addLaunchedApp fuel proc pid s = Some s' →
  _exclusionsMap (self s') = _exclusionsMap (self s).
Proof.
  intros Hinv. unfold addLaunchedApp. rewrite Hinv.
  repeat case_decide; try (by intros [= <-]).
  intros Hb. apply bind_Some in Hb as (k & _ & [= <-]). done.
Qed.

Lemma addLaunchedApp_scan fuel proc pid s s' :
  addLaunchedApp fuel proc pid s = Some s' →
  _previousNetScan (self s') = _previousNetScan (self s).
Proof.
  unfold addLaunchedApp.
  repeat case_decide; try (by intros [= <-]).
  - destruct (isValid _); [|by intros [= <-]].
    intros Hb. apply bind_Some in Hb as (k & _ & [= <-]). done.
  - intros Hb. apply bind_Some in Hb as (k & _ & [= <-]). done.
Qed.

Lemma setupReversePathFiltering_maps exitCode s :
  let s' := setupReversePathFiltering exitCode s in
  _exclusionsMap (self s') = _exclusionsMap (self s)
  ∧ _vpnOnlyMap (self s') = _vpnOnlyMap (self s)
  ∧ _previousNetScan (self s') = _previousNetScan (self s)
  ∧ _previousTunnelDeviceLocalAddress (self s')
    = _previousTunnelDeviceLocalAddress (self s)
  ∧ _sockFd (self s') = _sockFd (self s).
Proof. unfold setupReversePathFiltering. simpl. by repeat case_decide. Qed.

Lemma step_gating fuel proc op s s' :
  gating s → step fuel proc op s = Some s' → gating s'.
Proof.
  intros Hg. destruct op as [env params tn tl tr|params tn tl tr ex vo| |pid|pid];
    simpl.
  - unfold initiateConnection. intros H.
    apply bind_Some in H as (s1 & H1 & H).
    assert (gating s1) as Hg1.
    { destruct (decide (_sockFd (self s) ≠ -1)).
      - apply shutdownConnection_self in H1. intros _. by rewrite H1.
      - by injection H1 as <-. }
    clear H1. cbv zeta in H.
    destruct (decide (socket_ret env = -1)); [by injection H as <-|].
    destruct (decide (bind_ret env = -1)); [by injection H as <-|].
    destruct (decide (subscribeToProcEvents (send_ret env) = -1));
      [by injection H as <-|].
    apply bind_Some in H as (s2 & Hupd & [= <-]).
    apply updateSplitTunnel_gating in Hupd.
    pose proof (setupReversePathFiltering_maps (sysctl_exit env) s2)
      as (E1 & _ & E3 & _).
    unfold gating in *. simpl. rewrite E1, E3. done.
  - apply updateSplitTunnel_gating.
  - intros H. apply shutdownConnection_self in H. intros _. by rewrite H.
  - intros H Hinv. pose proof (addLaunchedApp_scan _ _ _ _ _ H) as Hscan.
    rewrite Hscan in Hinv.
    rewrite (addLaunchedApp_invalid _ _ _ _ _ Hinv H). by apply Hg.
  - intros [= <-] Hinv. simpl in *. rewrite (Hg Hinv). by rewrite fmap_empty.
Qed.

Lemma run_invariant (P : State → Prop) fuel calls s s' :
  (∀ proc op s s', P s → step fuel proc op s = Some s' → P s') →
  P s → run fuel calls s = Some s' → P s'.
Proof.
  intros Hstep. unfold run.
  revert s; induction calls as [|[proc op] calls IH]; intros s HP; simpl.
  - by intros [= <-].
  - destruct (step fuel proc op s) as [s1|] eqn:E; [|done].
    apply IH. by eapply Hstep.
Qed.

(** C2: in every state reached from a fresh tracker by public operations,
    an invalid network scan means an empty exclusions map; [addLaunchedApp]
    leaves the exclusions map as it is while the scan is invalid, and
    [updateApps] with an invalid scan leaves it empty. *)
Theorem gating_invariant :
  (∀ rp fuel calls s',
     run fuel calls (initial rp) = Some s' →
     isValid (_previousNetScan (self s')) = false →
     _exclusionsMap (self s') = ∅)
  ∧ (∀ fuel proc pid s s',
       isValid (_previousNetScan (self s)) = false →
       addLaunchedApp fuel proc pid s = Some s' →
       _exclusionsMap (self s') = _exclusionsMap (self s))
  ∧ (∀ fuel proc excludedApps vpnOnlyApps s s',
       isValid (_previousNetScan (self s)) = false →
       updateApps fuel proc excludedApps vpnOnlyApps s = Some s' →
       _exclusionsMap (self s') = ∅).
Proof.
  split; [|split].
  - intros rp fuel calls s' Hrun.
    apply (run_invariant gating fuel calls (initial rp) s'); [|done|done].
    intros proc op s1 s2. apply step_gating.
  - intros fuel proc pid s s'. apply addLaunchedApp_invalid.
  - intros fuel proc ex vo s s' Hinv H. by eapply updateApps_gating.
Qed.

Lemma gating_invariant_witness :
  ∃ s', run 3 calls_disconnect (initial "1") = Some s'
        ∧ _exclusionsMap (self s') = ∅.
Proof.
  eexists. split; [vm_compute; reflexivity|].
  apply (proj1 gating_invariant "1" 3%nat calls_disconnect);
    vm_compute; reflexivity.
Defined.

(** ** How pids enter the maps (C3, C10) *)

Lemma initiateConnection_inv fuel proc env params tn tl tr s s' :
  initiateConnection fuel proc env params tn tl tr s = Some s' →
  ∃ s1,
    ((s1 = s ∧ _sockFd (self s) = -1)
     ∨ (shutdownConnection fuel proc s = Some s1 ∧ _sockFd (self s) ≠ -1))
    ∧ (s' = s1
       ∨ ∃ s2,
           updateSplitTunnel fuel proc params tn tl tr (excludeApps params)
             (vpnOnlyApps params)
             (mkState (set_sockFd (socket_ret env) (self s1))
                (setupFirewall (sys s1))) = Some s2
           ∧ s' = mkState
                    (set_readNotifier (Some (socket_ret env))
                       (self (setupReversePathFiltering (sysctl_exit env) s2)))
                    (sys (setupReversePathFiltering (sysctl_exit env) s2))).
Proof.
  unfold initiateConnection. intros H.
  apply bind_Some in H as (s1 & H1 & H). exists s1. split.
  - destruct (decide (_sockFd (self s) ≠ -1)) as [Ho|Hc].
    + by right.
    + left. apply dec_stable in Hc. by injection H1 as <-.
  - cbv zeta in H.
    destruct (decide (socket_ret env = -1)); [left; by injection H as <-|].
    destruct (decide (bind_ret env = -1)); [left; by injection H as <-|].
    destruct (decide (subscribeToProcEvents (send_ret env) = -1));
      [left; by injection H as <-|].
    apply bind_Some in H as (s2 & Hupd & [= <-]). right. by exists s2.
Qed.

Lemma tracked_scan proc (apps : list string) (m : gmap string (gset Z)) path
    pid :
  (∀ a, m !! a = if decide (a ∈ apps) then Some (pidsForPath proc a) else None) →
  tracked m path pid →
  path ∈ apps ∧ pathForPid proc pid = path ∧ is_Some (proc !! pid).
Proof.
  intros Hm (X & HX & Hpid). rewrite Hm in HX.
  case_decide; [|done]. injection HX as <-.
  by apply elem_of_pidsForPath in Hpid.
Qed.

Lemma tracked_insert_pid (m : gmap string (gset Z)) app pid path q :
  is_Some (m !! app) →
  tracked (<[app := default ∅ (m !! app) ∪ {[pid]}]> m) path q →
  tracked m path q ∨ (q = pid ∧ path = app).
Proof.
  intros [X HX] (Y & HY & Hq). rewrite HX in HY. simpl in HY.
  destruct (decide (path = app)) as [->|Hne].
  - rewrite lookup_insert_eq in HY. injection HY as <-.
    apply elem_of_union in Hq as [Hq|Hq].
    + left. by exists X.
    + right. by apply elem_of_singleton in Hq.
  - rewrite lookup_insert_ne in HY by done. left. by exists Y.
Qed.

Lemma tracked_remove_pid (m : gmap string (gset Z)) pid path q :
  tracked ((λ set, set ∖ {[pid]}) <$> m) path q → tracked m path q.
Proof.
  intros (Y & HY & Hq). rewrite lookup_fmap in HY.
  destruct (m !! path) as [X|] eqn:HX; [|done].
  injection HY as <-. exists X. split; [done|].
  by apply elem_of_difference in Hq as [Hq _].
Qed.

Lemma tracked_empty path pid : ¬ tracked ∅ path pid.
Proof. intros (X & HX & _). by rewrite lookup_empty in HX. Qed.

Lemma tracked_insert_union (m : gmap string (gset Z)) app X pid path q :
  m !! app = Some X →
  tracked (<[app := X ∪ {[pid]}]> m) path q ↔
  tracked m path q ∨ (q = pid ∧ path = app).
Proof.
  intros HX. split.
  - intros (Y & HY & Hq).
    destruct (decide (path = app)) as [->|Hne].
    + rewrite lookup_insert_eq in HY. injection HY as <-.
      apply elem_of_union in Hq as [Hq|Hq].
      * left. by exists X.
      * right. by apply elem_of_singleton in Hq.
    + rewrite lookup_insert_ne in HY by done. left. by exists Y.
  - intros [(Y & HY & Hq)|[-> ->]].
    + destruct (decide (path = app)) as [->|Hne].
      * exists (X ∪ {[pid]}). rewrite lookup_insert_eq. split; [done|].
        rewrite HX in HY. injection HY as <-. by apply elem_of_union_l.
      * exists Y. by rewrite lookup_insert_ne.
    + exists (X ∪ {[pid]}). rewrite lookup_insert_eq. split; [done|].
      apply elem_of_union_r. by apply elem_of_singleton.
Qed.

Lemma addLaunchedApp_inv fuel proc pid s s' :
  addLaunchedApp fuel proc pid s = Some s' →
  let path := pathForPid proc pid in
  (s' = s
   ∧ (path = ""
      ∨ (is_Some (_exclusionsMap (self s) !! path)
         ∧ isValid (_previousNetScan (self s)) = false)
      ∨ (_exclusionsMap (self s) !! path = None
         ∧ _vpnOnlyMap (self s) !! path = None)))
  ∨ (∃ X ws,
       path ≠ "" ∧ _exclusionsMap (self s) !! path = Some X
       ∧ isValid (_previousNetScan (self s)) = true
       ∧ descendants fuel proc pid = Some ws
       ∧ s' = mkState
                (set_exclusionsMap
                   (<[path := X ∪ {[pid]}]> (_exclusionsMap (self s)))
                   (self s))
                (write_all proc VpnExclusionsFile ws (sys s)))
  ∨ (∃ Y ws,
       path ≠ "" ∧ _exclusionsMap (self s) !! path = None
       ∧ _vpnOnlyMap (self s) !! path = Some Y
       ∧ descendants fuel proc pid = Some ws
       ∧ s' = mkState
                (set_vpnOnlyMap
                   (<[path := Y ∪ {[pid]}]> (_vpnOnlyMap (self s))) (self s))
                (write_all proc VpnOnlyFile ws (sys s))).
Proof.
  unfold addLaunchedApp. cbv zeta. intros H.
  destruct (decide (pathForPid proc pid = "")) as [|Hne];
    [left; injection H as <-; split; [done|by left]|].
  destruct (decide (is_Some (_exclusionsMap (self s) !! pathForPid proc pid)))
    as [[X HX]|Hno].
  - destruct (isValid (_previousNetScan (self s))) eqn:Hv;
      [|left; injection H as <-; split; [done|right; left; split; [by eexists|done]]].
    rewrite addPidToCgroup_writes in H.
    apply bind_Some in H as (k & Hk & [= <-]).
    apply bind_Some in Hk as (ws & Hws & [= <-]).
    right. left. exists X, ws. rewrite HX. done.
  - assert (_exclusionsMap (self s) !! pathForPid proc pid = None) as HX.
    { destruct (_ !! _) eqn:E; [|done]. destruct Hno. by eexists. }
    destruct (decide (is_Some (_vpnOnlyMap (self s) !! pathForPid proc pid)))
      as [[Y HY]|Hnv].
    2:{ left. injection H as <-. split; [done|]. right. right. split; [done|].
        destruct (_vpnOnlyMap _ !! _) eqn:E; [|done]. destruct Hnv.
        by eexists. }
    rewrite addPidToCgroup_writes in H.
    apply bind_Some in H as (k & Hk & [= <-]).
    apply bind_Some in Hk as (ws & Hws & [= <-]).
    right. right. exists Y, ws. rewrite HY. done.
Qed.

Lemma pathForPid_listed proc pid :
  pathForPid proc pid ≠ "" → is_Some (proc !! pid).
Proof. unfold pathForPid. destruct (proc !! pid); [by eexists|done]. Qed.

(** A pid found in a map after a call was there before, or /proc resolves
    its exe link to the key it is found under. *)
Lemma step_tracked fuel proc op s s' :
  step fuel proc op s = Some s' →
  (∀ path pid,
     tracked (_exclusionsMap (self s')) path pid →
     tracked (_exclusionsMap (self s)) path pid
     ∨ (pathForPid proc pid = path ∧ is_Some (proc !! pid)))
  ∧ (∀ path pid,
       tracked (_vpnOnlyMap (self s')) path pid →
       tracked (_vpnOnlyMap (self s)) path pid
       ∨ (pathForPid proc pid = path ∧ is_Some (proc !! pid))).
Proof.
  destruct op as [env params tn tl tr|params tn tl tr ex vo| |pid|pid]; simpl.
  - intros H. apply initiateConnection_inv in H as (s1 & Hs1 & Hs').
    assert ((∀ path pid, tracked (_exclusionsMap (self s1)) path pid →
                         tracked (_exclusionsMap (self s)) path pid)
            ∧ (∀ path pid, tracked (_vpnOnlyMap (self s1)) path pid →
                           tracked (_vpnOnlyMap (self s)) path pid))
      as [Hex1 Hvo1].
    { destruct Hs1 as [[-> _]|[Hsh _]]; [done|].
      apply shutdownConnection_self in Hsh. rewrite Hsh. simpl.
      split; intros path pid Ht; by apply tracked_empty in Ht. }
    destruct Hs' as [->|(s2 & Hupd & ->)]; [split; intros; left; auto|].
    unfold updateSplitTunnel in Hupd.
    apply updateApps_self in Hupd as (Hex & Hvo & _).
    pose proof (setupReversePathFiltering_maps (sysctl_exit env) s2)
      as (E1 & E2 & _).
    simpl. rewrite E1, E2.
    split; intros path pid Ht; right.
    + by apply (tracked_scan _ _ _ _ _ Hex) in Ht as (_ & ? & ?).
    + by apply (tracked_scan _ _ _ _ _ Hvo) in Ht as (_ & ? & ?).
  - unfold updateSplitTunnel. intros Hupd.
    apply updateApps_self in Hupd as (Hex & Hvo & _).
    split; intros path pid Ht; right.
    + by apply (tracked_scan _ _ _ _ _ Hex) in Ht as (_ & ? & ?).
    + by apply (tracked_scan _ _ _ _ _ Hvo) in Ht as (_ & ? & ?).
  - intros Hsh. apply shutdownConnection_self in Hsh. rewrite Hsh. simpl.
    split; intros path q Ht; by apply tracked_empty in Ht.
  - unfold addLaunchedApp.
    destruct (decide (pathForPid proc pid = "")) as [|Hname];
      [intros [= <-]; split; intros; by left|].
    assert (is_Some (proc !! pid)) as Hlive.
    { unfold pathForPid in Hname. destruct (proc !! pid); [by eexists|done]. }
    destruct (decide (is_Some (_exclusionsMap (self s) !! _))) as [Hin|_].
    { destruct (isValid _); [|intros [= <-]; split; intros; by left].
      intros Hb. apply bind_Some in Hb as (k & _ & [= <-]). simpl.
      split; intros path q Ht; [|by left].
      apply tracked_insert_pid in Ht as [Ht|[-> ->]]; [by left|by right|done]. }
    destruct (decide (is_Some (_vpnOnlyMap (self s) !! _))) as [Hin|_];
      [|intros [= <-]; split; intros; by left].
    intros Hb. apply bind_Some in Hb as (k & _ & [= <-]). simpl.
    split; intros path q Ht; [by left|].
    apply tracked_insert_pid in Ht as [Ht|[-> ->]]; [by left|by right|done].
  - intros [= <-]. simpl.
    split; intros path q Ht; left; by eapply tracked_remove_pid.
Qed.

Lemma run_invariant_on (Q : gmap Z ProcStatus * Op → Prop) (P : State → Prop)
    fuel calls s s' :
  (∀ proc op s s', Q (proc, op) → P s → step fuel proc op s = Some s' → P s') →
  Forall Q calls → P s → run fuel calls s = Some s' → P s'.
Proof.
  intros Hstep HQ. unfold run.
  revert s; induction HQ as [|[proc op] calls Hq HQ IH]; intros s HP; simpl.
  - by intros [= <-].
  - destruct (step fuel proc op s) as [s1|] eqn:E; [|done].
    apply IH. by eapply Hstep.
Qed.

(** *** Disjointness (C3) *)

(** The maps [updateSplitTunnel] leaves share a pid exactly when, under a
    valid scan, both lists name a path that a process runs. *)
Lemma updateSplitTunnel_pid_disjoint fuel proc params tn tl tr
    (ex vo : list string) s s' :
  updateSplitTunnel fuel proc params tn tl tr ex vo s = Some s' →
  pid_disjoint s' ↔
  ¬ (isValid (splitTunnelNetScan params) = true
     ∧ ∃ a pid, a ∈ ex ∧ a ∈ vo ∧ pid ∈ pidsForPath proc a).
Proof.
  unfold updateSplitTunnel. intros H.
  apply updateApps_self in H as (Hex & Hvo & _). cbv zeta in Hex.
  assert (_previousNetScan (self (updateNetwork params tn tl tr s))
          = splitTunnelNetScan params) as Hscan by done.
  rewrite Hscan in Hex.
  split.
  - intros Hd (Hv & a & pid & Ha & Hb & Hpid).
    apply (Hd pid a a); exists (pidsForPath proc a).
    + rewrite Hex, Hv, decide_True by done. done.
    + rewrite Hvo, decide_True by done. done.
  - intros Hn pid a b Ha Hb. apply Hn.
    apply (tracked_scan _ _ _ _ _ Hex) in Ha as (Ha & Hpa & Hl).
    apply (tracked_scan _ _ _ _ _ Hvo) in Hb as (Hb & Hpb & _).
    rewrite Hpa in Hpb. subst b.
    destruct (isValid (splitTunnelNetScan params));
      [|by apply elem_of_nil in Ha].
    split; [done|]. exists a, pid. split; [done|]. split; [done|].
    by apply elem_of_pidsForPath.
Qed.

Lemma shutdownConnection_pid_disjoint fuel proc s s' :
  shutdownConnection fuel proc s = Some s' → pid_disjoint s'.
Proof.
  intros H. apply shutdownConnection_self in H. intros pid a b Ha _.
  rewrite H in Ha. by apply tracked_empty in Ha.
Qed.

(** [initiateConnection], with the outcome of the connect made explicit. *)
Lemma initiateConnection_cases fuel proc env params tn tl tr s s' :
  initiateConnection fuel proc env params tn tl tr s = Some s' →
  ∃ s1,
    ((s1 = s ∧ _sockFd (self s) = -1)
     ∨ (shutdownConnection fuel proc s = Some s1 ∧ _sockFd (self s) ≠ -1))
    ∧ ((s' = s1
        ∧ (socket_ret env = -1 ∨ bind_ret env = -1 ∨ send_ret env = -1))
       ∨ (socket_ret env ≠ -1 ∧ bind_ret env ≠ -1 ∧ send_ret env ≠ -1
          ∧ ∃ s2,
              updateSplitTunnel fuel proc params tn tl tr (excludeApps params)
                (vpnOnlyApps params)
                (mkState (set_sockFd (socket_ret env) (self s1))
                   (setupFirewall (sys s1))) = Some s2
              ∧ _exclusionsMap (self s') = _exclusionsMap (self s2)
              ∧ _vpnOnlyMap (self s') = _vpnOnlyMap (self s2))).
Proof.
  unfold initiateConnection. intros H.
  apply bind_Some in H as (s1 & H1 & H). exists s1. split.
  - destruct (decide (_sockFd (self s) ≠ -1)) as [Ho|Hc].
    + by right.
    + left. apply dec_stable in Hc. by injection H1 as <-.
  - cbv zeta in H.
    destruct (decide (socket_ret env = -1));
      [left; injection H as <-; auto|].
    destruct (decide (bind_ret env = -1)); [left; injection H as <-; auto|].
    unfold subscribeToProcEvents in H.
    destruct (decide (send_ret env = -1)) as [|Hsend];
      [left; injection H as <-; auto|].
    rewrite decide_False in H by done.
    apply bind_Some in H as (s2 & Hupd & [= <-]). right.
    split; [done|]. split; [done|]. split; [done|]. exists s2.
    split; [done|].
    pose proof (setupReversePathFiltering_maps (sysctl_exit env) s2)
      as (E1 & E2 & _).
    cbv zeta in E1, E2. done.
Qed.

(** From a state whose maps share no pid, a call leaves maps that share a
    pid exactly when it is one of the calls that [shares_pid] describes. *)
Lemma step_pid_disjoint fuel proc op s s' :
  pid_disjoint s → step fuel proc op s = Some s' →
  pid_disjoint s' ↔ ¬ shares_pid proc op s.
Proof.
  intros Hd.
  destruct op as [env params tn tl tr|params tn tl tr ex vo| |pid|pid];
    cbn [step shares_pid].
  - intros H. apply initiateConnection_cases in H as (s1 & Hs1 & Hs').
    assert (pid_disjoint s1) as Hd1.
    { destruct Hs1 as [[-> _]|[Hsh _]]; [done|].
      by eapply shutdownConnection_pid_disjoint. }
    destruct Hs' as [[-> Hfail]|(Hs & Hb & Hn & s2 & Hupd & E1 & E2)].
    + split; [|done]. intros _ (? & ? & ? & _). tauto.
    + apply updateSplitTunnel_pid_disjoint in Hupd.
      assert (pid_disjoint s' ↔ pid_disjoint s2) as ->
        by (unfold pid_disjoint; by rewrite E1, E2).
      rewrite Hupd. tauto.
  - apply updateSplitTunnel_pid_disjoint.
  - intros H. split; [tauto|]. intros _.
    by eapply shutdownConnection_pid_disjoint.
  - intros H. apply addLaunchedApp_inv in H. cbv zeta in H.
    destruct H as [[-> Hign]|[(X & ws & Hne & HX & Hv & _ & ->)
                             |(Y & ws & Hne & HX & HY & _ & ->)]].
    + split; [|done]. intros _ (Hne & [(He & Hv & _)|(He & Hvo & _)]).
      * destruct Hign as [?|[[_ Hv']|[He' _]]]; [done| |].
        -- by rewrite Hv in Hv'.
        -- rewrite He' in He. by destruct He.
      * destruct Hign as [?|[[He' _]|[_ Hvo']]]; [done| |].
        -- rewrite He in He'. by destruct He'.
        -- rewrite Hvo' in Hvo. by destruct Hvo.
    + unfold pid_disjoint.
      cbn [self set_exclusionsMap _exclusionsMap _vpnOnlyMap].
      split.
      * intros Hd' (_ & [(_ & _ & b & Hb)|(He & _)]);
          [|by rewrite HX in He].
        apply (Hd' pid (pathForPid proc pid) b); [|done].
        apply tracked_insert_union; [done|by right].
      * intros Hn q a b Ha Hb.
        apply (tracked_insert_union _ _ _ _ _ _ HX) in Ha as [Ha|[-> ->]].
        { by apply (Hd q a b). }
        apply Hn. split; [done|]. left.
        split; [by eexists|]. split; [done|]. by exists b.
    + unfold pid_disjoint.
      cbn [self set_vpnOnlyMap _exclusionsMap _vpnOnlyMap].
      split.
      * intros Hd' (_ & [([? He] & _)|(_ & _ & a & Ha)]);
          [by rewrite HX in He|].
        apply (Hd' pid a (pathForPid proc pid)); [done|].
        apply tracked_insert_union; [done|by right].
      * intros Hn q a b Ha Hb.
        apply (tracked_insert_union _ _ _ _ _ _ HY) in Hb as [Hb|[-> ->]].
        { by apply (Hd q a b). }
        apply Hn. split; [done|]. right.
        split; [done|]. split; [by eexists|]. by exists a.
  - intros [= <-]. split; [tauto|]. intros _ q a b Ha Hb.
    cbn [removeTerminatedApp self set_vpnOnlyMap set_exclusionsMap
         _exclusionsMap _vpnOnlyMap] in Ha, Hb.
    apply tracked_remove_pid in Ha, Hb. by apply (Hd q a b).
Qed.

Lemma run_pid_disjoint fuel calls s s' :
  pid_disjoint s → never_shares fuel calls s →
  run fuel calls s = Some s' → pid_disjoint s'.
Proof.
  unfold run.
  revert s; induction calls as [|[proc op] calls IH]; intros s Hd Hn; simpl.
  - by intros [= <-].
  - destruct Hn as [Hn Hrest].
    destruct (step fuel proc op s) as [s1|] eqn:E; [|done].
    apply IH; [|done]. by apply (step_pid_disjoint _ _ _ _ _ Hd E).
Qed.

(** C3, as stated, fails: when the two lists share /usr/bin/foo, pid 1234
    running it is put into both maps. *)
Lemma disjointness_fails_on_shared_path :
  ¬ (∀ rp fuel calls s',
       run fuel calls (initial rp) = Some s' → pid_disjoint s').
Proof.
  intros H.
  destruct (run 3 calls_shared_path (initial "1")) as [s'|] eqn:E;
    [|by vm_compute in E].
  apply (H _ _ _ _ E 1234 "/usr/bin/foo" "/usr/bin/foo").
  - vm_compute in E. injection E as <-. exists {[1234]}.
    split; [by vm_compute|]. by apply elem_of_singleton.
  - vm_compute in E. injection E as <-. exists {[1234]}.
    split; [by vm_compute|]. by apply elem_of_singleton.
Qed.

Lemma disjointness_fails_after_exec :
  ∃ s', run 3 calls_exec_other (initial "1") = Some s'
        ∧ tracked (_exclusionsMap (self s')) "/usr/bin/foo" 1234
        ∧ tracked (_vpnOnlyMap (self s')) "/usr/bin/bar" 1234.
Proof.
  eexists. split; [vm_compute; reflexivity|].
  split; exists {[1234]}; (split; [by vm_compute|by apply elem_of_singleton]).
Qed.

(** C3, amended: no pid is in a set of both maps after any sequence of
    public operations in which no call is one of the two kinds that put a
    pid into both: a connect that succeeds, or an [updateSplitTunnel],
    whose scan is valid and whose two lists name a path that a process
    runs; and an exec event whose pid the handler adds to one map while the
    other map holds it.  The snapshots of /proc are otherwise free: a pid
    may change its executable between calls. *)
Theorem disjoint_unless_call_shares rp fuel calls s' :
  never_shares fuel calls (initial rp) →
  run fuel calls (initial rp) = Some s' →
  pid_disjoint s'.
Proof.
  apply run_pid_disjoint. intros pid a b Ha _. by apply tracked_empty in Ha.
Qed.

Lemma disjoint_unless_call_shares_witness :
  ∃ s', run 3 calls_exec_after_connect (initial "1") = Some s'
        ∧ tracked (_exclusionsMap (self s')) "/usr/bin/foo" 2000
        ∧ pid_disjoint s'.
Proof.
  destruct (run 3 calls_exec_after_connect (initial "1")) as [s'|] eqn:E;
    [|by vm_compute in E].
  exists s'. split; [reflexivity|]. split.
  { vm_compute in E. injection E as <-. exists {[2000]}.
    split; [vm_compute; reflexivity|]. by apply elem_of_singleton. }
  apply (disjoint_unless_call_shares "1" 3%nat calls_exec_after_connect s');
    [|exact E].
  cbn [never_shares calls_exec_after_connect]. split.
  { intros (_ & _ & _ & _ & a & pid & Ha & Hb & _).
    apply list_elem_of_singleton in Ha, Hb. by subst. }
  destruct (step 3 proc_shell _ (initial "1")) as [s1|] eqn:E1; [|done].
  assert (_vpnOnlyMap (self s1) = <["/usr/bin/bar" := ∅]> ∅
          ∧ is_Some (_exclusionsMap (self s1) !! "/usr/bin/foo")) as [Hvm Hem].
  { vm_compute in E1. injection E1 as <-.
    split; [vm_compute; reflexivity|]. vm_compute. by eexists. }
  assert (pathForPid proc_shell_exec 2000 = "/usr/bin/foo") as Hpath
    by reflexivity.
  split; [|by destruct (step 3 proc_shell_exec _ s1)].
  cbn [shares_pid]. rewrite Hpath, Hvm.
  intros (_ & [(_ & _ & b & X & HX & Hin)|(He & _)]).
  - destruct (decide (b = "/usr/bin/bar")) as [->|Hne].
    + rewrite lookup_insert_eq in HX. injection HX as <-.
      by apply not_elem_of_empty in Hin.
    + by rewrite lookup_insert_ne, lookup_empty in HX.
  - rewrite He in Hem. by destruct Hem.
Defined.

(** *** Descendants are written, not tracked (C10) *)

Lemma collect_Some_inv {A : Type} (wr : A → option (list Z)) xs ws x :
  collect wr xs = Some ws → x ∈ xs →
  ∃ w, wr x = Some w ∧ ∀ q, q ∈ w → q ∈ ws.
Proof.
  revert ws; induction xs as [|y xs IH]; intros ws H Hx.
  - by apply elem_of_nil in Hx.
  - rewrite collect_cons in H.
    apply bind_Some in H as (w & Hw & H).
    apply bind_Some in H as (ws' & Hws' & [= <-]).
    apply elem_of_cons in Hx as [->|Hx].
    + exists w. split; [done|]. intros q Hq. apply elem_of_app. by left.
    + destruct (IH ws' Hws' Hx) as (w' & Hw' & Hsub).
      exists w'. split; [done|]. intros q Hq. apply elem_of_app. right. auto.
Qed.

(** Every process below [pid] in the parent relation is written. *)
Lemma descendants_rtc fuel proc pid ws q :
  descendants fuel proc pid = Some ws → rtc (child_of proc) pid q → q ∈ ws.
Proof.
  revert pid ws; induction fuel as [|fuel IH]; intros pid ws H Hq; [done|].
  rewrite descendants_S in H.
  apply bind_Some in H as (w & Hw & [= <-]).
  apply rtc_inv in Hq as [->|(c & Hc & Hq)]; [by left|].
  right. unfold child_of in Hc. apply elem_of_elements in Hc.
  destruct (collect_Some_inv _ _ _ _ Hw Hc) as (wc & Hwc & Hsub).
  apply Hsub. by eapply IH.
Qed.

Lemma addApps_descendant fuel proc apps cg (m : gmap string (gset Z)) k m' k'
    app parent child :
  addApps fuel proc apps cg (m, k) = Some (m', k') →
  app ∈ apps → parent ∈ pidsForPath proc app →
  tc (child_of proc) parent child →
  cgroup_procs k' !! child = Some cg
  ∧ (pathForPid proc child ∉ apps → (∀ path, ¬ tracked m path child) →
     ∀ path, ¬ tracked m' path child).
Proof.
  rewrite addApps_eq. intros H Happ Hparent Hchild.
  apply bind_Some in H as (ws & Hws & [= <- <-]). split.
  - rewrite write_all_lookup. rewrite decide_True; [done|]. split.
    + destruct (collect_Some_inv _ _ _ _ Hws Happ) as (w & Hw & Hsub).
      apply Hsub. unfold app_writes in Hw.
      apply elem_of_elements in Hparent.
      destruct (collect_Some_inv _ _ _ _ Hw Hparent) as (wp & Hwp & Hsub').
      apply Hsub'. eapply descendants_rtc; [done|]. by apply tc_rtc.
    + apply elem_of_dom. by eapply tc_child_of_listed.
  - intros Hother Hnot path (X & HX & Hin).
    rewrite lookup_scan_map in HX. case_decide as Hp.
    + injection HX as <-. apply elem_of_pidsForPath in Hin as [Hin _].
      apply Hother. by rewrite Hin.
    + apply (Hnot path). by exists X.
Qed.

(** A recursion that returns has met no cycle through [pid]. *)
Lemma descendants_not_cyclic fuel proc pid ws :
  descendants fuel proc pid = Some ws → ¬ tc (child_of proc) pid pid.
Proof.
  intros H Hcyc.
  assert (∀ fuel q, tc (child_of proc) q q → descendants fuel proc q = None)
    as Hnone.
  { clear. intros fuel. induction fuel as [|fuel IH]; intros q Hq; [done|].
    rewrite descendants_S.
    assert (∃ c, child_of proc q c ∧ tc (child_of proc) c c) as (c & Hc & Hcc).
    { inversion Hq as [? ? Hqq|? c ? Hqc Hcq]; subst.
      - exists q. split; [done|]. by apply tc_once.
      - exists c. split; [done|]. by eapply tc_r. }
    destruct (collect (descendants fuel proc) (elements (childPidsOf proc q)))
      as [w|] eqn:E; [|done].
    unfold child_of in Hc. apply elem_of_elements in Hc.
    destruct (collect_Some_inv _ _ _ _ E Hc) as (wc & Hwc & _).
    by rewrite (IH c Hcc) in Hwc. }
  by rewrite (Hnone fuel pid Hcyc) in H.
Qed.

(** What [addLaunchedApp] does with the process it is called for and with
    the processes below it. *)
Lemma addLaunchedApp_descendant fuel proc pid s s' child :
  addLaunchedApp fuel proc pid s = Some s' →
  pathForPid proc pid ≠ "" →
  tc (child_of proc) pid child →
  (is_Some (_exclusionsMap (self s) !! pathForPid proc pid) →
   isValid (_previousNetScan (self s)) = true →
   tracked (_exclusionsMap (self s')) (pathForPid proc pid) pid
   ∧ cgroup_procs (sys s') !! child = Some VpnExclusionsFile
   ∧ (∀ path, tracked (_exclusionsMap (self s')) path child →
              tracked (_exclusionsMap (self s)) path child)
   ∧ _vpnOnlyMap (self s') = _vpnOnlyMap (self s))
  ∧ (_exclusionsMap (self s) !! pathForPid proc pid = None →
     is_Some (_vpnOnlyMap (self s) !! pathForPid proc pid) →
     tracked (_vpnOnlyMap (self s')) (pathForPid proc pid) pid
     ∧ cgroup_procs (sys s') !! child = Some VpnOnlyFile
     ∧ (∀ path, tracked (_vpnOnlyMap (self s')) path child →
                tracked (_vpnOnlyMap (self s)) path child)
     ∧ _exclusionsMap (self s') = _exclusionsMap (self s)).
Proof.
  intros H Hname Hchild.
  assert (is_Some (proc !! child)) as Hlisted
    by (apply elem_of_dom; by eapply tc_child_of_listed).
  apply addLaunchedApp_inv in H. cbv zeta in H.
  destruct H as [[-> Hign]|[(X & ws & _ & HX & Hv & Hws & ->)
                           |(Y & ws & _ & HX & HY & Hws & ->)]].
  - destruct Hign as [?|[[He Hv]|[He Hv]]]; [done|..]; split.
    + intros _ Hv'. by rewrite Hv in Hv'.
    + intros He'. rewrite He' in He. by destruct He.
    + intros He'. rewrite He in He'. by destruct He'.
    + intros _ Hv'. rewrite Hv in Hv'. by destruct Hv'.
  - assert (child ≠ pid) as Hne.
    { intros ->. by eapply descendants_not_cyclic. }
    split; [|intros He; by rewrite He in HX].
    intros _ _. cbn [self sys set_exclusionsMap _exclusionsMap _vpnOnlyMap].
    split; [apply tracked_insert_union; [done|by right]|].
    split.
    { rewrite write_all_lookup, decide_True; [done|]. split; [|done].
      eapply descendants_rtc; [done|]. by apply tc_rtc. }
    split; [|done].
    intros path Ht. apply tracked_insert_union in Ht as [Ht|[? _]]; done.
  - assert (child ≠ pid) as Hne.
    { intros ->. by eapply descendants_not_cyclic. }
    split; [intros [? He]; by rewrite HX in He|].
    intros _ _. cbn [self sys set_vpnOnlyMap _exclusionsMap _vpnOnlyMap].
    split; [apply tracked_insert_union; [done|by right]|].
    split.
    { rewrite write_all_lookup, decide_True; [done|]. split; [|done].
      eapply descendants_rtc; [done|]. by apply tc_rtc. }
    split; [|done].
    intros path Ht. apply tracked_insert_union in Ht as [Ht|[? _]]; done.
Qed.

(** C10: a pid found in either map after a public operation was there
    before or has its exe link resolved, by the /proc of that call, to the
    key it is found under.  A descendant of a scanned pid is written to the
    cgroup by [addApps] without being tracked, unless it runs a listed app
    itself or was tracked before.  [addLaunchedApp], when it tracks the pid
    of the event, writes every process below that pid to the cgroup of the
    map it adds to, and adds none of them to either map. *)
Theorem descendants_written_not_tracked :
  (∀ fuel proc op s s' path pid,
     step fuel proc op s = Some s' →
     (tracked (_exclusionsMap (self s')) path pid →
      tracked (_exclusionsMap (self s)) path pid
      ∨ (pathForPid proc pid = path ∧ is_Some (proc !! pid)))
     ∧ (tracked (_vpnOnlyMap (self s')) path pid →
        tracked (_vpnOnlyMap (self s)) path pid
        ∨ (pathForPid proc pid = path ∧ is_Some (proc !! pid))))
  ∧ (∀ fuel proc apps cg (m : gmap string (gset Z)) k m' k' app parent child,
       addApps fuel proc apps cg (m, k) = Some (m', k') →
       app ∈ apps → parent ∈ pidsForPath proc app →
       tc (child_of proc) parent child →
       pathForPid proc child ∉ apps → (∀ path, ¬ tracked m path child) →
       cgroup_procs k' !! child = Some cg ∧ ∀ path, ¬ tracked m' path child)
  ∧ (∀ fuel proc pid s s' child,
       addLaunchedApp fuel proc pid s = Some s' →
       pathForPid proc pid ≠ "" →
       tc (child_of proc) pid child →
       (is_Some (_exclusionsMap (self s) !! pathForPid proc pid) →
        isValid (_previousNetScan (self s)) = true →
        tracked (_exclusionsMap (self s')) (pathForPid proc pid) pid
        ∧ cgroup_procs (sys s') !! child = Some VpnExclusionsFile
        ∧ (∀ path, tracked (_exclusionsMap (self s')) path child →
                   tracked (_exclusionsMap (self s)) path child)
        ∧ _vpnOnlyMap (self s') = _vpnOnlyMap (self s))
       ∧ (_exclusionsMap (self s) !! pathForPid proc pid = None →
          is_Some (_vpnOnlyMap (self s) !! pathForPid proc pid) →
          tracked (_vpnOnlyMap (self s')) (pathForPid proc pid) pid
          ∧ cgroup_procs (sys s') !! child = Some VpnOnlyFile
          ∧ (∀ path, tracked (_vpnOnlyMap (self s')) path child →
                     tracked (_vpnOnlyMap (self s)) path child)
          ∧ _exclusionsMap (self s') = _exclusionsMap (self s))).
Proof.
  split; [|split].
  - intros fuel proc op s s' path pid Hstep.
    apply step_tracked in Hstep as [Hex Hvo]. split; auto.
  - intros fuel proc apps cg m k m' k' app parent child H Happ Hp Hc Ho Hn.
    destruct (addApps_descendant _ _ _ _ _ _ _ _ _ _ _ H Happ Hp Hc)
      as [Hcg Htr].
    split; [done|]. by apply Htr.
  - intros fuel proc pid s s' child. apply addLaunchedApp_descendant.
Qed.

(** The spec's scenario of descendant capture, through a whole session
    start: both pids are in the exclusions cgroup, only 3000 is tracked. *)
Lemma descendant_capture_scenario :
  ∃ s',
    run 3 [(proc_family,
            InitiateConnection env_ok (mkParams scan_up ["/usr/bin/foo"] [])
              "tun0" "10.0.0.2" "10.0.0.1")] (initial "1") = Some s'
    ∧ cgroup_procs (sys s') !! 3000 = Some VpnExclusionsFile
    ∧ cgroup_procs (sys s') !! 3001 = Some VpnExclusionsFile
    ∧ _exclusionsMap (self s') = {["/usr/bin/foo" := {[3000]}]}
    ∧ _vpnOnlyMap (self s') = ∅.
Proof. eexists. split; [vm_compute; reflexivity|]. by vm_compute. Qed.

(** The same snapshot under [addApps]: 3000 runs /usr/bin/foo, its child
    3001 runs /bin/cat; the child lands in the exclusions cgroup and in no
    entry of the map.  And under [addLaunchedApp]: on the exec of 3000 the
    child lands in the exclusions cgroup, and only 3000 is tracked. *)
Lemma descendants_written_not_tracked_witness :
  (∃ m' k',
     addApps 3 proc_family ["/usr/bin/foo"] VpnExclusionsFile (∅, bootKernel "1")
     = Some (m', k')
     ∧ cgroup_procs k' !! 3001 = Some VpnExclusionsFile
     ∧ ∀ path, ¬ tracked m' path 3001)
  ∧ (∃ s',
       addLaunchedApp 3 proc_family 3000 tracking_foo_bar = Some s'
       ∧ tracked (_exclusionsMap (self s')) "/usr/bin/foo" 3000
       ∧ cgroup_procs (sys s') !! 3001 = Some VpnExclusionsFile
       ∧ ∀ path, ¬ tracked (_exclusionsMap (self s')) path 3001).
Proof.
  split.
  - eexists _, _. split; [vm_compute; reflexivity|].
    apply (proj1 (proj2 descendants_written_not_tracked) 3%nat proc_family
             ["/usr/bin/foo"] VpnExclusionsFile ∅ (bootKernel "1") _ _
             "/usr/bin/foo" 3000 3001).
    + vm_compute. reflexivity.
    + by left.
    + apply elem_of_pidsForPath. split; [reflexivity|by eexists].
    + apply tc_once. apply elem_of_childPidsOf. by eexists.
    + intros H. apply list_elem_of_singleton in H. discriminate H.
    + intros path. apply tracked_empty.
  - destruct (addLaunchedApp 3 proc_family 3000 tracking_foo_bar)
      as [s'|] eqn:E; [|by vm_compute in E].
    exists s'. split; [reflexivity|].
    destruct (proj1 (proj2 (proj2 descendants_written_not_tracked) 3%nat
                       proc_family 3000 tracking_foo_bar s' 3001 E
                       ltac:(discriminate)
                       ltac:(apply tc_once; apply elem_of_childPidsOf;
                             by eexists))
                ltac:(by eexists) ltac:(reflexivity))
      as (Ht & Hcg & Hno & _).
    split; [exact Ht|]. split; [exact Hcg|].
    intros path Hp. apply Hno in Hp. destruct Hp as (X & HX & Hin).
    unfold tracking_foo_bar in HX. simpl in HX.
    destruct (decide (path = "/usr/bin/foo")) as [->|Hne].
    + rewrite lookup_insert_eq in HX. injection HX as <-.
      by apply not_elem_of_empty in Hin.
    + rewrite lookup_insert_ne, lookup_empty in HX by done. done.
Defined.

(** ** Source-IP rules (C5) *)

Lemma rules_for_app t rs rs' :
  rules_for t (rs ++ rs')%list = (rules_for t rs ++ rules_for t rs')%list.
Proof.
  induction rs as [|[a t'] rs IH]; simpl; [done|].
  case_decide; simpl; by rewrite IH.
Qed.

Lemma rules_for_del_other t t' a rs :
  t' ≠ t → rules_for t (ip_rule_del (a, t') rs) = rules_for t rs.
Proof.
  intros Hne. induction rs as [|[b tb] rs IH]; simpl; [done|].
  destruct (decide ((b, tb) = (a, t'))) as [[= -> ->]|Hd].
  - by rewrite decide_False.
  - simpl. by rewrite IH.
Qed.

Lemma rules_for_del_nil t a rs :
  rules_for t rs = [] → rules_for t (ip_rule_del (a, t) rs) = [].
Proof.
  induction rs as [|[b tb] rs IH]; simpl; [done|].
  destruct (decide (tb = t)) as [->|Hne]; [done|]. intros H.
  destruct (decide ((b, tb) = (a, t))) as [[= -> ->]|Hd]; [done|].
  simpl. rewrite decide_False by done. by apply IH.
Qed.

Lemma rules_for_del_single t a rs :
  rules_for t rs = [a] → rules_for t (ip_rule_del (a, t) rs) = [].
Proof.
  induction rs as [|[b tb] rs IH]; simpl; [done|].
  destruct (decide (tb = t)) as [->|Hne].
  - intros [= -> H]. by rewrite decide_True.
  - intros H. rewrite decide_False by (intros [= _ ?]; done).
    simpl. rewrite decide_False by done. by apply IH.
Qed.

Lemma replay_snoc rs log cmd :
  replay rs (log ++ [cmd])%list = rules_step (replay rs log) cmd.
Proof. unfold replay. by rewrite foldl_app. Qed.

Lemma adds_after_removal_snoc rs log cmd :
  adds_after_removal rs (log ++ [cmd])%list ↔
  adds_after_removal rs log
  ∧ match cmd with
    | IpRuleAdd _ t => rules_for t (replay rs log) = []
    | _ => True
    end.
Proof.
  revert rs; induction log as [|c log IH]; intros rs; simpl.
  - tauto.
  - rewrite IH. tauto.
Qed.

Lemma ip_rules_run_cmd cmd k :
  ip_rules (run_cmd cmd k) = rules_step (ip_rules k) cmd.
Proof. destruct cmd as [? ? []| | | | |]; done. Qed.

Lemma shellExecute_log_ok cmd k :
  log_ok k →
  match cmd with
  | IpRuleAdd _ t => rules_for t (ip_rules k) = []
  | _ => True
  end →
  log_ok (shellExecute cmd k).
Proof.
  intros [Hr Ha] Hc. unfold log_ok, shellExecute.
  change (shell_log (set_shell_log ?l ?k)) with l.
  change (ip_rules (set_shell_log ?l ?k)) with (ip_rules k).
  rewrite ip_rules_run_cmd, replay_snoc, adds_after_removal_snoc, <- Hr.
  done.
Qed.

Lemma shellExecute_other_rules cmd k :
  match cmd with IpRuleAdd _ _ | IpRuleDel _ _ => False | _ => True end →
  ip_rules (shellExecute cmd k) = ip_rules k.
Proof.
  intros Hc. unfold shellExecute.
  change (ip_rules (set_shell_log ?l ?k)) with (ip_rules k).
  rewrite ip_rules_run_cmd. by destruct cmd.
Qed.

(** Deleting the stored rule leaves the table empty. *)
Lemma removeRouting_inv t prev k :
  log_ok k → rule_inv t prev k →
  let k' := removeRoutingPolicyForSourceIp prev t k in
  log_ok k' ∧ rules_for t (ip_rules k') = []
  ∧ ∀ t', t' ≠ t → rules_for t' (ip_rules k') = rules_for t' (ip_rules k).
Proof.
  intros Hlog Hinv. unfold removeRoutingPolicyForSourceIp. cbv zeta.
  destruct (decide (prev ≠ "")) as [Hne|He].
  - split; [by apply shellExecute_log_ok|].
    unfold shellExecute.
    change (ip_rules (set_shell_log ?l ?k)) with (ip_rules k).
    rewrite ip_rules_run_cmd. cbn [rules_step]. split.
    + destruct Hinv as [Hnil|[Hone _]].
      * by apply rules_for_del_nil.
      * by apply rules_for_del_single.
    + intros t' Ht'. by apply rules_for_del_other.
  - split; [done|]. split; [|done].
    destruct Hinv as [Hnil|[_ Hne]]; [done|]. by destruct He.
Qed.

(** Deleting the stored rule and adding the new one leaves the new one. *)
Lemma replaceRouting_inv t prev new k :
  log_ok k → rule_inv t prev k →
  let k' := addRoutingPolicyForSourceIp new t
              (removeRoutingPolicyForSourceIp prev t k) in
  log_ok k' ∧ rule_inv t new k'
  ∧ ∀ t', t' ≠ t → rules_for t' (ip_rules k') = rules_for t' (ip_rules k).
Proof.
  intros Hlog Hinv.
  destruct (removeRouting_inv t prev k Hlog Hinv) as (Hlog1 & Hnil & Hoth).
  cbv zeta in *. unfold addRoutingPolicyForSourceIp.
  destruct (decide (new ≠ "")) as [Hne|He].
  - split; [by apply shellExecute_log_ok|].
    unfold rule_inv, shellExecute.
    change (ip_rules (set_shell_log ?l ?k)) with (ip_rules k).
    rewrite ip_rules_run_cmd. cbn [rules_step]. split.
    + right. rewrite rules_for_app, Hnil. simpl.
      by rewrite decide_True.
    + intros t' Ht'. rewrite rules_for_app, Hoth by done. simpl.
      rewrite decide_False by done. by rewrite app_nil_r.
  - split; [done|]. split; [by left|done].
Qed.

Lemma rule_inv_same t addr k k' :
  rules_for t (ip_rules k') = rules_for t (ip_rules k) →
  rule_inv t addr k → rule_inv t addr k'.
Proof. unfold rule_inv. by intros ->. Qed.

Lemma log_ok_same k k' :
  ip_rules k' = ip_rules k → shell_log k' = shell_log k →
  log_ok k → log_ok k'.
Proof. unfold log_ok. by intros -> ->. Qed.

Lemma updateRoutes_rules gw ifc tn tr k :
  let k' := updateRoutes gw ifc tn tr k in
  ip_rules k' = ip_rules k ∧ (log_ok k → log_ok k').
Proof.
  unfold updateRoutes. cbv zeta.
  repeat case_decide;
    rewrite ?shellExecute_other_rules by done;
    (split; [done|]); intros Hlog;
    repeat (apply shellExecute_log_ok; [|done]); done.
Qed.

Lemma updateMasquerade_rules ifc k :
  ip_rules (updateMasquerade ifc k) = ip_rules k
  ∧ shell_log (updateMasquerade ifc k) = shell_log k.
Proof. unfold updateMasquerade. by case_decide. Qed.

Lemma updateNetwork_rules_inv params tn tl tr s :
  rules_inv s → rules_inv (updateNetwork params tn tl tr s).
Proof.
  intros (Hlog & Hby & Hvo). unfold updateNetwork. cbv zeta.
  set (scan := splitTunnelNetScan params).
  set (k1 := if decide (interfaceName (_previousNetScan (self s))
                        ≠ interfaceName scan)
             then updateMasquerade (interfaceName scan) (sys s) else sys s).
  assert (ip_rules k1 = ip_rules (sys s) ∧ shell_log k1 = shell_log (sys s))
    as [R1 L1].
  { subst k1. case_decide; [apply updateMasquerade_rules|done]. }
  assert (log_ok k1) as Hlog1 by by eapply log_ok_same.
  assert (rule_inv kRtableName (ipAddress (_previousNetScan (self s))) k1)
    as Hby1 by (eapply rule_inv_same; [by rewrite R1|done]).
  assert (rule_inv kVpnOnlyRtableName
            (_previousTunnelDeviceLocalAddress (self s)) k1)
    as Hvo1 by (eapply rule_inv_same; [by rewrite R1|done]).
  clearbody k1. clear Hlog Hby Hvo R1 L1.
  set (k2 := if decide (ipAddress (_previousNetScan (self s)) ≠ ipAddress scan)
             then addRoutingPolicyForSourceIp (ipAddress scan) kRtableName
                    (removeRoutingPolicyForSourceIp
                       (ipAddress (_previousNetScan (self s))) kRtableName k1)
             else k1).
  assert (log_ok k2 ∧ rule_inv kRtableName (ipAddress scan) k2
          ∧ rule_inv kVpnOnlyRtableName
              (_previousTunnelDeviceLocalAddress (self s)) k2)
    as (Hlog2 & Hby2 & Hvo2).
  { subst k2. destruct (decide (_ ≠ _)) as [Hne|Heq].
    - destruct (replaceRouting_inv kRtableName _ (ipAddress scan) k1 Hlog1 Hby1)
        as (Hl & Hr & Ho).
      cbv zeta in *. split; [done|]. split; [done|].
      eapply rule_inv_same; [|done]. by apply Ho.
    - apply dec_stable in Heq. rewrite <- Heq. done. }
  clearbody k2. clear Hlog1 Hby1 Hvo1.
  set (k3 := if decide (_previousTunnelDeviceLocalAddress (self s) ≠ tl)
             then addRoutingPolicyForSourceIp tl kVpnOnlyRtableName
                    (removeRoutingPolicyForSourceIp
                       (_previousTunnelDeviceLocalAddress (self s))
                       kVpnOnlyRtableName k2)
             else k2).
  assert (log_ok k3 ∧ rule_inv kRtableName (ipAddress scan) k3
          ∧ rule_inv kVpnOnlyRtableName tl k3) as (Hlog3 & Hby3 & Hvo3).
  { subst k3. destruct (decide (_ ≠ _)) as [Hne|Heq].
    - destruct (replaceRouting_inv kVpnOnlyRtableName _ tl k2 Hlog2 Hvo2)
        as (Hl & Hr & Ho).
      cbv zeta in *. split; [done|]. split; [|done].
      eapply rule_inv_same; [|done]. by apply Ho.
    - apply dec_stable in Heq. rewrite <- Heq. done. }
  clearbody k3. clear Hlog2 Hby2 Hvo2.
  destruct (updateRoutes_rules (gatewayIp scan) (interfaceName scan) tn tr k3)
    as [R4 L4]. cbv zeta in *.
  unfold rules_inv. simpl.
  split; [by apply L4|].
  split; (eapply rule_inv_same; [by rewrite R4|done]).
Qed.

Lemma updateApps_rules_inv fuel proc ex vo s s' :
  updateApps fuel proc ex vo s = Some s' → rules_inv s → rules_inv s'.
Proof.
  intros H (Hlog & Hby & Hvo).
  pose proof (updateApps_self _ _ _ _ _ _ H) as (_ & _ & _ & _ & Es & Et & _).
  pose proof (updateApps_sys _ _ _ _ _ _ H) as (Er & _ & _ & _ & _ & _ & _ & El).
  unfold rules_inv. rewrite Es, Et.
  split; [by eapply log_ok_same|].
  split; (eapply rule_inv_same; [by rewrite Er|done]).
Qed.

Lemma setupReversePathFiltering_rules exitCode s :
  let s' := setupReversePathFiltering exitCode s in
  ip_rules (sys s') = ip_rules (sys s) ∧ (log_ok (sys s) → log_ok (sys s')).
Proof.
  unfold setupReversePathFiltering. cbv zeta.
  repeat case_decide; simpl;
    rewrite ?shellExecute_other_rules by done;
    (split; [done|]); intros Hlog;
    repeat (apply shellExecute_log_ok; [|done]); done.
Qed.

Lemma shutdownConnection_rules_inv fuel proc s s' :
  shutdownConnection fuel proc s = Some s' → rules_inv s → rules_inv s'.
Proof.
  unfold shutdownConnection. intros H (Hlog & Hby & Hvo).
  apply bind_Some in H as (s2 & H2 & [= <-]).
  apply removeAllApps_inv in H2 as (E2 & ws & K2). simpl in E2, K2.
  pose proof (write_all_frame proc ParentVpnExclusionsFile ws
                (teardownFirewall (sys s))) as F.
  cbv zeta in F. rewrite <- K2 in F.
  destruct F as (Fr & _ & _ & _ & _ & _ & _ & Fl). simpl in Fr, Fl.
  assert (log_ok (sys s2)) as Hlog2 by by eapply log_ok_same.
  rewrite E2. simpl.
  destruct (removeRouting_inv kRtableName
              (ipAddress (_previousNetScan (self s))) (sys s2) Hlog2)
    as (Hl3 & Hn3 & Ho3); [eapply rule_inv_same; [by rewrite Fr|done]|].
  cbv zeta in *.
  set (k3 := removeRoutingPolicyForSourceIp _ kRtableName (sys s2)) in *.
  destruct (removeRouting_inv kVpnOnlyRtableName
              (_previousTunnelDeviceLocalAddress (self s)) k3 Hl3)
    as (Hl4 & Hn4 & Ho4).
  { eapply rule_inv_same; [|exact Hvo]. rewrite Ho3 by done. by rewrite Fr. }
  cbv zeta in *.
  set (k4 := removeRoutingPolicyForSourceIp _ kVpnOnlyRtableName k3) in *.
  assert (rules_for kRtableName (ip_rules k4) = []) as Hn3'
    by (rewrite Ho4 by done; done).
  unfold teardownReversePathFiltering. simpl.
  destruct (decide (_previousRPFilter (self s) ≠ "")); unfold rules_inv; simpl.
  - split; [by apply shellExecute_log_ok|].
    unfold rule_inv. rewrite shellExecute_other_rules by done.
    split; by left.
  - split; [done|]. split; by left.
Qed.

Lemma rules_inv_same s s' :
  _previousNetScan (self s') = _previousNetScan (self s) →
  _previousTunnelDeviceLocalAddress (self s')
  = _previousTunnelDeviceLocalAddress (self s) →
  ip_rules (sys s') = ip_rules (sys s) →
  shell_log (sys s') = shell_log (sys s) →
  rules_inv s → rules_inv s'.
Proof.
  intros Es Et Er El (Hlog & Hby & Hvo). unfold rules_inv. rewrite Es, Et.
  split; [by eapply log_ok_same|].
  split; (eapply rule_inv_same; [by rewrite Er|done]).
Qed.

(** [addLaunchedApp] touches the maps and the cgroups only. *)
Lemma addLaunchedApp_frame fuel proc pid s s' :
  addLaunchedApp fuel proc pid s = Some s' →
  _sockFd (self s') = _sockFd (self s)
  ∧ _previousNetScan (self s') = _previousNetScan (self s)
  ∧ _previousTunnelDeviceLocalAddress (self s')
    = _previousTunnelDeviceLocalAddress (self s)
  ∧ _previousRPFilter (self s') = _previousRPFilter (self s)
  ∧ ip_rules (sys s') = ip_rules (sys s)
  ∧ rp_filter (sys s') = rp_filter (sys s)
  ∧ shell_log (sys s') = shell_log (sys s).
Proof.
  unfold addLaunchedApp. intros H.
  assert (∀ cg k, addPidToCgroup fuel proc pid cg (sys s) = Some k →
                  ip_rules k = ip_rules (sys s)
                  ∧ rp_filter k = rp_filter (sys s)
                  ∧ shell_log k = shell_log (sys s)) as Hadd.
  { intros cg k Hk. rewrite addPidToCgroup_writes in Hk.
    apply bind_Some in Hk as (ws & _ & [= <-]).
    by pose proof (write_all_frame proc cg ws (sys s))
      as (? & _ & _ & _ & _ & _ & ? & ?). }
  destruct (decide (pathForPid proc pid = "")); [by injection H as <-|].
  destruct (decide (is_Some (_exclusionsMap (self s) !! _))).
  { destruct (isValid _); [|by injection H as <-].
    apply bind_Some in H as (k & Hk & [= <-]).
    apply Hadd in Hk as (? & ? & ?). done. }
  destruct (decide (is_Some (_vpnOnlyMap (self s) !! _)));
    [|by injection H as <-].
  apply bind_Some in H as (k & Hk & [= <-]).
  apply Hadd in Hk as (? & ? & ?). done.
Qed.

Lemma addLaunchedApp_rules_inv fuel proc pid s s' :
  addLaunchedApp fuel proc pid s = Some s' → rules_inv s → rules_inv s'.
Proof.
  intros H. apply addLaunchedApp_frame in H as (_ & ? & ? & _ & ? & _ & ?).
  by apply rules_inv_same.
Qed.

Lemma step_rules_inv fuel proc op s s' :
  rules_inv s → step fuel proc op s = Some s' → rules_inv s'.
Proof.
  intros Hinv.
  destruct op as [env params tn tl tr|params tn tl tr ex vo| |pid|pid]; simpl.
  - intros H. apply initiateConnection_inv in H as (s1 & Hs1 & Hs').
    assert (rules_inv s1) as Hinv1.
    { destruct Hs1 as [[-> _]|[Hsh _]]; [done|].
      by eapply shutdownConnection_rules_inv. }
    destruct Hs' as [->|(s2 & Hupd & ->)]; [done|].
    unfold updateSplitTunnel in Hupd.
    apply updateApps_rules_inv in Hupd.
    + destruct Hupd as (Hlog & Hby & Hvo).
      pose proof (setupReversePathFiltering_maps (sysctl_exit env) s2)
        as (_ & _ & Es & Et & _).
      pose proof (setupReversePathFiltering_rules (sysctl_exit env) s2)
        as (Er & Hl).
      cbv zeta in *. unfold rules_inv. simpl. rewrite Es, Et.
      split; [by apply Hl|].
      split; (eapply rule_inv_same; [by rewrite Er|done]).
    + apply updateNetwork_rules_inv.
      destruct Hinv1 as (Hlog & Hby & Hvo). done.
  - unfold updateSplitTunnel. intros Hupd.
    eapply updateApps_rules_inv; [done|]. by apply updateNetwork_rules_inv.
  - intros H. by eapply shutdownConnection_rules_inv.
  - intros H. by eapply addLaunchedApp_rules_inv.
  - by intros [= <-].
Qed.

Lemma rule_inv_length t addr k :
  rule_inv t addr k → (length (rules_for t (ip_rules k)) ≤ 1)%nat.
Proof. intros [->|[-> _]]; simpl; lia. Qed.

(** C5: over any sequence of public operations on a fresh tracker, every
    [ip rule add] in the command history finds its table without a rule
    (the rule for the address stored before was deleted first), the history
    accounts for the rules installed, and after every operation each of the
    two tables has at most one source-IP rule. *)
Theorem source_ip_rule_unique rp fuel calls s' :
  run fuel calls (initial rp) = Some s' →
  adds_after_removal [] (shell_log (sys s'))
  ∧ ip_rules (sys s') = replay [] (shell_log (sys s'))
  ∧ ∀ t, (length (rules_for t (ip_rules (sys s'))) ≤ 1)%nat.
Proof.
  intros Hrun.
  assert (rules_inv s') as ([Hr Ha] & Hby & Hvo).
  { apply (run_invariant rules_inv fuel calls (initial rp) s'); [|by compute; auto|done].
    intros proc op s1 s2. apply step_rules_inv. }
  split; [done|]. split; [done|].
  intros []; by eapply rule_inv_length.
Qed.

Lemma source_ip_rule_unique_witness :
  ∃ s', run 3 calls_roaming (initial "1") = Some s'
        ∧ adds_after_removal [] (shell_log (sys s'))
        ∧ ip_rules (sys s') = replay [] (shell_log (sys s'))
        ∧ ∀ t, (length (rules_for t (ip_rules (sys s'))) ≤ 1)%nat.
Proof.
  eexists. split; [vm_compute; reflexivity|].
  apply (source_ip_rule_unique "1" 3%nat calls_roaming).
  vm_compute. reflexivity.
Defined.

(** ** The add phase of [updateApps] (C7) *)

(** C7, as stated, fails: the entry of a path that is tracked already is
    replaced by a fresh scan as well. *)
Lemma addApps_replaces_tracked_entry :
  ¬ (∀ fuel proc apps cg (m : gmap string (gset Z)) k m' k' app,
       addApps fuel proc apps cg (m, k) = Some (m', k') →
       is_Some (m !! app) → m' !! app = m !! app).
Proof.
  intros H.
  destruct (addApps 3 proc_restarted ["/usr/bin/foo"] VpnExclusionsFile
              (map_foo_1234, bootKernel "1")) as [[m' k']|] eqn:E;
    [|by vm_compute in E].
  specialize (H _ _ _ _ _ _ _ _ "/usr/bin/foo" E).
  vm_compute in E. injection E as <- <-.
  assert (is_Some (map_foo_1234 !! "/usr/bin/foo")) as Hs by by eexists.
  apply H in Hs. vm_compute in Hs. discriminate Hs.
Qed.

(** C7, amended: the add phase gives every path of the desired list,
    tracked before or not, a fresh entry holding the pids that /proc shows
    running it, and writes each of them to the cgroup; the entries of paths
    that are not in the list are left as they were. *)
Theorem addApps_rescans_listed fuel proc apps cg (m : gmap string (gset Z)) k
    m' k' :
  addApps fuel proc apps cg (m, k) = Some (m', k') →
  (∀ app, app ∈ apps → m' !! app = Some (pidsForPath proc app))
  ∧ (∀ app pid, app ∈ apps → pid ∈ pidsForPath proc app →
                cgroup_procs k' !! pid = Some cg)
  ∧ (∀ app, app ∉ apps → m' !! app = m !! app).
Proof.
  rewrite addApps_eq. intros H.
  apply bind_Some in H as (ws & Hws & [= <- <-]).
  split; [|split].
  - intros app Happ. rewrite lookup_scan_map. by rewrite decide_True.
  - intros app pid Happ Hpid. rewrite write_all_lookup.
    rewrite decide_True; [done|].
    pose proof Hpid as Hlive. apply elem_of_pidsForPath in Hlive as [_ Hlive].
    split; [|done].
    destruct (collect_Some_inv _ _ _ _ Hws Happ) as (w & Hw & Hsub).
    apply Hsub. unfold app_writes in Hw. apply elem_of_elements in Hpid.
    destruct (collect_Some_inv _ _ _ _ Hw Hpid) as (wp & Hwp & Hsub').
    apply Hsub'. by eapply descendants_rtc.
  - intros app Happ. rewrite lookup_scan_map. by rewrite decide_False.
Qed.

Lemma addApps_rescans_listed_witness :
  ∃ m' k',
    addApps 3 proc_restarted ["/usr/bin/foo"] VpnExclusionsFile
      (map_foo_1234, bootKernel "1") = Some (m', k')
    ∧ m' !! "/usr/bin/foo" = Some (pidsForPath proc_restarted "/usr/bin/foo").
Proof.
  eexists _, _. split; [vm_compute; reflexivity|].
  refine (proj1 (addApps_rescans_listed 3%nat proc_restarted ["/usr/bin/foo"]
                   VpnExclusionsFile map_foo_1234 (bootKernel "1") _ _ _)
            "/usr/bin/foo" _).
  - vm_compute. reflexivity.
  - by left.
Defined.

(** ** Shutdown and the saved state (C1, C6) *)

(** The old value is saved exactly when the read succeeds and the value is
    not 2, and rp_filter is then set to 2. *)
Lemma setupReversePathFiltering_saves exitCode s :
  let s' := setupReversePathFiltering exitCode s in
  (exitCode = 0 → toInt (rp_filter (sys s)) ≠ 2 →
   _previousRPFilter (self s') = rp_filter (sys s) ∧ rp_filter (sys s') = "2")
  ∧ (exitCode = 0 → toInt (rp_filter (sys s)) = 2 →
     _previousRPFilter (self s') = _previousRPFilter (self s)
     ∧ rp_filter (sys s') = rp_filter (sys s))
  ∧ (exitCode ≠ 0 →
     _previousRPFilter (self s') = "" ∧ rp_filter (sys s') = rp_filter (sys s)).
Proof.
  cbv zeta. unfold setupReversePathFiltering.
  change (rp_filter (shellExecute SysctlRead (sys s))) with (rp_filter (sys s)).
  repeat case_decide; simpl; repeat split; intros; done.
Qed.

(** The restore writes whatever value the tracker holds, whichever session
    saved it. *)
Lemma teardownReversePathFiltering_restores s :
  let s' := teardownReversePathFiltering s in
  (_previousRPFilter (self s) ≠ "" →
   rp_filter (sys s') = _previousRPFilter (self s))
  ∧ (_previousRPFilter (self s) = "" → s' = s)
  ∧ _previousRPFilter (self s') = _previousRPFilter (self s).
Proof.
  cbv zeta. unfold teardownReversePathFiltering.
  case_decide; simpl; repeat split; intros; done.
Qed.

(** C1 at a concrete session: [shutdownConnection] resets the scan and the
    descriptor, but the tunnel address and the saved rp_filter value stay. *)
Theorem shutdownConnection_keeps_saved_fields :
  ∃ s', run 3 calls_session (initial "1") = Some s'
        ∧ _sockFd (self s') = -1
        ∧ _previousNetScan (self s') = noScan
        ∧ _previousTunnelDeviceLocalAddress (self s') = "10.0.0.2"
        ∧ _previousRPFilter (self s') = "1".
Proof. eexists. split; [vm_compute; reflexivity|]. by vm_compute. Qed.

(** What the stale tunnel address costs: a second session with the same
    tunnel address gets no source-IP rule for the vpn-only table. *)
Lemma reconnect_misses_vpnOnly_rule :
  ∃ s', run 3 (calls_session ++
               [(proc_foo,
                 InitiateConnection env_ok
                   (mkParams scan_up ["/usr/bin/foo"] [])
                   "tun0" "10.0.0.2" "10.0.0.1")])%list (initial "1") = Some s'
        ∧ _sockFd (self s') = 7
        ∧ rules_for kRtableName (ip_rules (sys s')) = ["192.168.1.5"]
        ∧ rules_for kVpnOnlyRtableName (ip_rules (sys s')) = [].
Proof. eexists. split; [vm_compute; reflexivity|]. by vm_compute. Qed.

(** C6 at a concrete run: the first session saves rp_filter 1 and restores
    it; the administrator then sets rp_filter to 2; the second session finds
    2, saves nothing, and its shutdown writes the 1 of the first session. *)
Theorem shutdown_restores_stale_rp_filter :
  ∃ s1 s2 s3,
    run 3 calls_session (initial "1") = Some s1
    ∧ rp_filter (sys s1) = "1"
    ∧ initiateConnection 3 proc_foo env_ok
        (mkParams scan_up ["/usr/bin/foo"] []) "tun0" "10.0.0.2" "10.0.0.1"
        (mkState (self s1) (set_rp_filter "2" (sys s1))) = Some s2
    ∧ rp_filter (sys s2) = "2"
    ∧ shell_log (sys s2)
      = (shell_log (sys s1) ++
         [IpRuleAdd "192.168.1.5" kRtableName;
          IpRouteReplace "192.168.1.1" "eth0" kRtableName;
          IpRouteReplace "10.0.0.1" "tun0" kVpnOnlyRtableName;
          IpRouteFlushCache; SysctlRead])%list
    ∧ shutdownConnection 3 proc_foo s2 = Some s3
    ∧ rp_filter (sys s3) = "1".
Proof.
  eexists _, _, _. split; [vm_compute; reflexivity|].
  split; [by vm_compute|].
  split; [vm_compute; reflexivity|].
  split; [by vm_compute|].
  split; [by vm_compute|].
  split; [vm_compute; reflexivity|].
  by vm_compute.
Qed.

(** ** Running [updateSplitTunnel] twice (C4) *)

(** C4 at a concrete call.  A session tracks /usr/bin/bar as vpn-only;
    pid 10 runs it and its child 11 runs /usr/bin/foo.  The lists then
    change to exclude /usr/bin/foo and to have no vpn-only app.  The first
    call writes pid 11 to the exclusions cgroup, tracks it in the exclusions
    map and then, evicting /usr/bin/bar with its descendants, writes it to
    the parent cgroup; the second call, with the same arguments and the same
    /proc, has nothing to evict and leaves pid 11 in the exclusions cgroup.
    The observable kernel state after two calls is not the one after one. *)
Theorem updateSplitTunnel_twice_differs :
  ∃ s s1 s2,
    run 3 calls_bar_vpnOnly (initial "1") = Some s
    ∧ updateSplitTunnel 3 proc_cross (mkParams scan_up ["/usr/bin/foo"] [])
        "tun0" "10.0.0.2" "10.0.0.1" ["/usr/bin/foo"] [] s = Some s1
    ∧ updateSplitTunnel 3 proc_cross (mkParams scan_up ["/usr/bin/foo"] [])
        "tun0" "10.0.0.2" "10.0.0.1" ["/usr/bin/foo"] [] s1 = Some s2
    ∧ tracked (_exclusionsMap (self s1)) "/usr/bin/foo" 11
    ∧ cgroup_procs (sys s1) !! 11 = Some ParentVpnExclusionsFile
    ∧ cgroup_procs (sys s2) !! 11 = Some VpnExclusionsFile
    ∧ observable (sys s2) ≠ observable (sys s1).
Proof.
  eexists _, _, _. split; [vm_compute; reflexivity|].
  split; [vm_compute; reflexivity|].
  split; [vm_compute; reflexivity|].
  split.
  { exists {[11]}. split; [vm_compute; reflexivity|].
    by apply elem_of_singleton. }
  split; [by vm_compute|]. split; [by vm_compute|].
  intros Heq.
  apply (f_equal (λ o, o.1.1.1.1.1.1.1 !! 11)) in Heq.
  vm_compute in Heq. discriminate Heq.
Qed.

Lemma observable_eq k k' :
  observable k' = observable k ↔
  cgroup_procs k' = cgroup_procs k ∧ ip_rules k' = ip_rules k
  ∧ route_bypass k' = route_bypass k ∧ route_vpnOnly k' = route_vpnOnly k
  ∧ anchor_tagPkts k' = anchor_tagPkts k
  ∧ anchor_transIp k' = anchor_transIp k
  ∧ transIp_rules k' = transIp_rules k ∧ rp_filter k' = rp_filter k.
Proof.
  unfold observable. split.
  - intros [= -> -> -> -> -> -> -> ->]. done.
  - intros (-> & -> & -> & -> & -> & -> & -> & ->). done.
Qed.

Lemma updateRoutes_sets gw ifc tn tr k :
  routes_set gw ifc tn tr (updateRoutes gw ifc tn tr k).
Proof.
  unfold updateRoutes, routes_set. cbv zeta.
  destruct (decide (gw = "" ∨ ifc = "")) as [Hb|Hb];
    destruct (decide (tr = "" ∨ tn = "")) as [Hv|Hv]; simpl;
    split; tauto.
Qed.

Lemma updateRoutes_again gw ifc tn tr k :
  routes_set gw ifc tn tr k →
  observable (updateRoutes gw ifc tn tr k) = observable k.
Proof.
  intros [Hb Hv]. apply observable_eq. unfold updateRoutes. cbv zeta.
  destruct (decide (gw = "" ∨ ifc = "")) as [Hb'|Hb'];
    destruct (decide (tr = "" ∨ tn = "")) as [Hv'|Hv']; simpl;
    repeat split; try done.
  - destruct Hv as [?|[?|Hv]]; [tauto|tauto|done].
  - destruct Hb as [?|[?|Hb]]; [tauto|tauto|done].
  - destruct Hb as [?|[?|Hb]]; [tauto|tauto|done].
  - destruct Hv as [?|[?|Hv]]; [tauto|tauto|done].
Qed.

Lemma updateNetwork_sets params tn tl tr s :
  let s0 := updateNetwork params tn tl tr s in
  let scan := splitTunnelNetScan params in
  _previousNetScan (self s0) = scan
  ∧ _previousTunnelDeviceLocalAddress (self s0) = tl
  ∧ _exclusionsMap (self s0) = _exclusionsMap (self s)
  ∧ _vpnOnlyMap (self s0) = _vpnOnlyMap (self s)
  ∧ routes_set (gatewayIp scan) (interfaceName scan) tn tr (sys s0).
Proof.
  cbv zeta. unfold updateNetwork. cbv zeta. simpl.
  repeat split; try done; apply updateRoutes_sets.
Qed.

(** With the scan and the tunnel address stored already, [updateNetwork]
    only replaces the routes. *)
Lemma updateNetwork_again params tn tl tr s :
  _previousNetScan (self s) = splitTunnelNetScan params →
  _previousTunnelDeviceLocalAddress (self s) = tl →
  updateNetwork params tn tl tr s =
  mkState (self s)
    (updateRoutes (gatewayIp (splitTunnelNetScan params))
       (interfaceName (splitTunnelNetScan params)) tn tr (sys s)).
Proof.
  intros Hs Ht. unfold updateNetwork. cbv zeta. rewrite Hs, Ht.
  rewrite !decide_False by (intros ?; done).
  f_equal. destruct s as [[] ?]. simpl in *. by subst.
Qed.

Lemma collect_all_nil {A : Type} (wr : A → option (list Z)) xs :
  (∀ x, x ∈ xs → wr x = Some []) → collect wr xs = Some [].
Proof.
  induction xs as [|x xs IH]; intros H; [done|].
  rewrite collect_cons, H by by left. simpl.
  rewrite IH; [done|]. intros y Hy. apply H. by right.
Qed.

Lemma evict_writes_all_kept fuel proc keepApps (m : gmap string (gset Z)) :
  (∀ app, app ∈ dom m → app ∈ keepApps) →
  collect (evict_writes fuel proc keepApps m) (elements (dom m)) = Some [].
Proof.
  intros H. apply collect_all_nil. intros app Happ.
  apply evict_writes_keep, H. by apply elem_of_elements.
Qed.

Lemma dom_scan_evict proc apps (m : gmap string (gset Z)) app :
  app ∈ dom (scan_map proc apps (evict apps (elements (dom m)) m)) →
  app ∈ apps.
Proof.
  intros H. apply elem_of_dom in H as [X HX].
  rewrite lookup_scan_evict in HX. by case_decide.
Qed.

Lemma scan_evict_again proc apps (m : gmap string (gset Z)) :
  let m1 := scan_map proc apps (evict apps (elements (dom m)) m) in
  scan_map proc apps (evict apps (elements (dom m1)) m1) = m1.
Proof. cbv zeta. apply map_eq. intros a. by rewrite !lookup_scan_evict. Qed.

(** * Further properties of the code *)

(** ** The recursive cgroup assignment *)

Lemma collect_elem_inv {A : Type} (wr : A → option (list Z)) xs ws q :
  collect wr xs = Some ws → q ∈ ws →
  ∃ x w, x ∈ xs ∧ wr x = Some w ∧ q ∈ w.
Proof.
  revert ws; induction xs as [|y xs IH]; intros ws H Hq.
  - injection H as <-. by apply elem_of_nil in Hq.
  - rewrite collect_cons in H.
    apply bind_Some in H as (w & Hw & H).
    apply bind_Some in H as (ws' & Hws' & [= <-]).
    apply elem_of_app in Hq as [Hq|Hq].
    + exists y, w. split; [by left|done].
    + destruct (IH ws' Hws' Hq) as (x & w' & Hx & Hw' & Hq').
      exists x, w'. split; [by right|done].
Qed.

(** Only processes below [pid] in the parent relation are written. *)
Lemma descendants_elem fuel proc pid ws q :
  descendants fuel proc pid = Some ws → q ∈ ws → rtc (child_of proc) pid q.
Proof.
  revert pid ws; induction fuel as [|fuel IH]; intros pid ws H Hq; [done|].
  rewrite descendants_S in H.
  apply bind_Some in H as (w & Hw & [= <-]).
  apply elem_of_cons in Hq as [->|Hq]; [done|].
  destruct (collect_elem_inv _ _ _ _ Hw Hq) as (c & wc & Hc & Hwc & Hq').
  apply elem_of_elements in Hc.
  eapply rtc_l; [exact Hc|]. by eapply IH.
Qed.

(** X2: when [addPidToCgroup] returns, every running process at or below
    [pid] in the parent relation is in the cgroup written to, every other
    pid is where it was, and nothing but cgroup membership has changed;
    [removePidFromCgroup] is the same traversal. *)
Theorem addPidToCgroup_moves_subtree fuel proc pid cg k k' :
  addPidToCgroup fuel proc pid cg k = Some k' →
  (∀ q, rtc (child_of proc) pid q → is_Some (proc !! q) →
        cgroup_procs k' !! q = Some cg)
  ∧ (∀ q, ¬ rtc (child_of proc) pid q →
          cgroup_procs k' !! q = cgroup_procs k !! q)
  ∧ (∀ q, proc !! q = None → cgroup_procs k' !! q = cgroup_procs k !! q)
  ∧ ip_rules k' = ip_rules k ∧ route_bypass k' = route_bypass k
  ∧ route_vpnOnly k' = route_vpnOnly k
  ∧ anchor_tagPkts k' = anchor_tagPkts k
  ∧ anchor_transIp k' = anchor_transIp k
  ∧ transIp_rules k' = transIp_rules k ∧ rp_filter k' = rp_filter k
  ∧ shell_log k' = shell_log k
  ∧ removePidFromCgroup fuel proc pid cg k = Some k'.
Proof.
  rewrite removePidFromCgroup_writes, addPidToCgroup_writes. intros H.
  apply bind_Some in H as (ws & Hws & [= <-]). rewrite Hws.
  split; [|split; [|split]].
  - intros q Hq Hlive. rewrite write_all_lookup. rewrite decide_True; [done|].
    split; [|done]. by eapply descendants_rtc.
  - intros q Hq. rewrite write_all_lookup. rewrite decide_False; [done|].
    intros [Hin _]. apply Hq. by eapply descendants_elem.
  - intros q Hq. rewrite write_all_lookup. rewrite decide_False; [done|].
    rewrite Hq. by intros [_ [? ?]].
  - pose proof (write_all_frame proc cg ws k) as F. cbv zeta in F.
    destruct F as (?&?&?&?&?&?&?&?). done.
Qed.

Lemma addPidToCgroup_moves_subtree_witness :
  ∃ k',
    addPidToCgroup 4 proc_tree 3000 VpnExclusionsFile (bootKernel "1") = Some k'
    ∧ cgroup_procs k' !! 3002 = Some VpnExclusionsFile
    ∧ cgroup_procs k' !! 4000 = None.
Proof.
  eexists. split; [vm_compute; reflexivity|].
  pose proof (addPidToCgroup_moves_subtree 4%nat proc_tree 3000
                VpnExclusionsFile (bootKernel "1") _
                ltac:(vm_compute; reflexivity)) as (Hin & _).
  split; [|by vm_compute].
  apply Hin; [|by eexists].
  apply (rtc_l _ _ 3001);
    [apply elem_of_childPidsOf; eexists; split; reflexivity|].
  apply rtc_once. apply elem_of_childPidsOf. eexists. split; reflexivity.
Defined.

(** ** What the passes of [updateApps] write *)

Lemma collect_descendants_mem fuel proc (pids : list Z) ws q :
  collect (descendants fuel proc) pids = Some ws →
  q ∈ ws ↔ ∃ pid, pid ∈ pids ∧ rtc (child_of proc) pid q.
Proof.
  intros H. split.
  - intros Hq. destruct (collect_elem_inv _ _ _ _ H Hq) as (pid & w & ? & ? & ?).
    exists pid. split; [done|]. by eapply descendants_elem.
  - intros (pid & Hpid & Hq).
    destruct (collect_Some_inv _ _ _ _ H Hpid) as (w & Hw & Hsub).
    apply Hsub. by eapply descendants_rtc.
Qed.

Lemma app_writes_mem fuel proc (apps : list string) ws q :
  collect (app_writes fuel proc) apps = Some ws →
  q ∈ ws ↔
  ∃ app pid, app ∈ apps ∧ pid ∈ pidsForPath proc app
             ∧ rtc (child_of proc) pid q.
Proof.
  intros H. split.
  - intros Hq. destruct (collect_elem_inv _ _ _ _ H Hq) as (app & w & ? & Hw & ?).
    apply (collect_descendants_mem _ _ _ _ q) in Hw.
    apply Hw in H1 as (pid & Hpid & Hr). apply elem_of_elements in Hpid.
    by exists app, pid.
  - intros (app & pid & Happ & Hpid & Hq).
    destruct (collect_Some_inv _ _ _ _ H Happ) as (w & Hw & Hsub).
    apply Hsub. apply (collect_descendants_mem _ _ _ _ q) in Hw. apply Hw.
    exists pid. split; [by apply elem_of_elements|done].
Qed.

Lemma evict_writes_mem fuel proc keepApps (m : gmap string (gset Z)) ws q :
  collect (evict_writes fuel proc keepApps m) (elements (dom m)) = Some ws →
  q ∈ ws ↔
  ∃ app pid, (app ∉ keepApps) ∧ tracked m app pid ∧ rtc (child_of proc) pid q.
Proof.
  intros H. split.
  - intros Hq.
    destruct (collect_elem_inv _ _ _ _ H Hq) as (app & w & Happ & Hw & Hqw).
    unfold evict_writes in Hw. case_decide as Hk.
    { injection Hw as <-. by apply elem_of_nil in Hqw. }
    apply (collect_descendants_mem _ _ _ _ q) in Hw.
    apply Hw in Hqw as (pid & Hpid & Hr). apply elem_of_elements in Hpid.
    exists app, pid. split; [done|]. split; [|done].
    apply elem_of_elements, elem_of_dom in Happ as [X HX].
    rewrite HX in Hpid. by exists X.
  - intros (app & pid & Hk & (X & HX & Hpid) & Hq).
    assert (app ∈ elements (dom m)) as Happ.
    { apply elem_of_elements, elem_of_dom. by eexists. }
    destruct (collect_Some_inv _ _ _ _ H Happ) as (w & Hw & Hsub).
    apply Hsub. rewrite evict_writes_drop in Hw by done.
    apply (collect_descendants_mem _ _ _ _ q) in Hw. apply Hw.
    exists pid. split; [|done]. rewrite HX. by apply elem_of_elements.
Qed.

Lemma rtc_child_of_listed proc pid q :
  is_Some (proc !! pid) → rtc (child_of proc) pid q → is_Some (proc !! q).
Proof.
  intros Hpid Hq. apply rtc_tc in Hq as [<-|Hq]; [done|].
  apply elem_of_dom. by eapply tc_child_of_listed.
Qed.

(** X3: [removeApps] drops exactly the entries whose path is not kept and
    leaves the kept entries as they were; every running process at or below
    a pid of a dropped entry ends in the parent cgroup, for the vpn-only map
    as for the exclusions map, and no other pid is moved. *)
Theorem removeApps_drops_unkept fuel proc keepApps (m : gmap string (gset Z)) k
    m' k' :
  removeApps fuel proc keepApps (m, k) = Some (m', k') →
  (∀ app, m' !! app = if decide (app ∈ keepApps) then m !! app else None)
  ∧ (∀ app pid q,
       app ∉ keepApps → tracked m app pid → rtc (child_of proc) pid q →
       is_Some (proc !! q) →
       cgroup_procs k' !! q = Some ParentVpnExclusionsFile)
  ∧ (∀ q,
       (∀ app pid, app ∉ keepApps → tracked m app pid →
                   ¬ rtc (child_of proc) pid q) →
       cgroup_procs k' !! q = cgroup_procs k !! q)
  ∧ ip_rules k' = ip_rules k ∧ shell_log k' = shell_log k.
Proof.
  rewrite removeApps_eq. intros H.
  apply bind_Some in H as (ws & Hws & [= <- <-]).
  split; [|split; [|split]].
  - intros app. rewrite lookup_evict.
    destruct (decide (app ∈ keepApps)) as [Hk|Hk].
    + rewrite decide_False; [done|]. by intros [_ ?].
    + destruct (m !! app) as [X|] eqn:HX.
      * rewrite decide_True; [done|]. split; [|done].
        apply elem_of_elements, elem_of_dom. by eexists.
      * by case_decide.
  - intros app pid q Hk Ht Hq Hlive. rewrite write_all_lookup.
    rewrite decide_True; [done|]. split; [|done].
    apply (evict_writes_mem _ _ _ _ _ q Hws). by exists app, pid.
  - intros q Hq. rewrite write_all_lookup. rewrite decide_False; [done|].
    intros [Hin _]. apply (evict_writes_mem _ _ _ _ _ q Hws) in Hin
      as (app & pid & Hk & Ht & Hr).
    by apply (Hq app pid).
  - pose proof (write_all_frame proc ParentVpnExclusionsFile ws k) as F.
    cbv zeta in F. destruct F as (?&_&_&_&_&_&_&?). done.
Qed.

Lemma removeApps_drops_unkept_witness :
  ∃ m' k',
    removeApps 4 proc_tree ["/bin/cat"] (map_foo_cat, bootKernel "1")
    = Some (m', k')
    ∧ m' !! "/usr/bin/foo" = None
    ∧ m' !! "/bin/cat" = map_foo_cat !! "/bin/cat".
Proof.
  eexists _, _. split; [vm_compute; reflexivity|].
  pose proof (removeApps_drops_unkept 4%nat proc_tree ["/bin/cat"] map_foo_cat
                (bootKernel "1") _ _ ltac:(vm_compute; reflexivity))
    as (Hm & _).
  split; [apply (Hm "/usr/bin/foo")|apply (Hm "/bin/cat")].
Defined.

(** ** What [updateSplitTunnel] leaves behind *)

(** X4: after [updateSplitTunnel] the two maps are decided by the lists, the
    scan passed in and /proc alone, whatever they held before: the
    exclusions map has an entry for each excluded app when the scan passed
    in is valid and none otherwise, the vpn-only map has an entry for each
    vpn-only app in either case, and each entry holds the pids /proc shows
    running that app; the scan and the tunnel address passed in are stored
    and the rest of the tracker is left alone. *)
Theorem updateSplitTunnel_reconciles fuel proc params tn tl tr
    (ex vo : list string) s s' :
  updateSplitTunnel fuel proc params tn tl tr ex vo s = Some s' →
  (∀ a, _exclusionsMap (self s') !! a =
        if decide (a ∈ ex ∧ isValid (splitTunnelNetScan params) = true)
        then Some (pidsForPath proc a) else None)
  ∧ (∀ a, _vpnOnlyMap (self s') !! a =
          if decide (a ∈ vo) then Some (pidsForPath proc a) else None)
  ∧ _previousNetScan (self s') = splitTunnelNetScan params
  ∧ _previousTunnelDeviceLocalAddress (self s') = tl
  ∧ _sockFd (self s') = _sockFd (self s)
  ∧ _readNotifier (self s') = _readNotifier (self s)
  ∧ _previousRPFilter (self s') = _previousRPFilter (self s).
Proof.
  unfold updateSplitTunnel. intros H.
  apply updateApps_self in H as (Hex & Hvo & Hfd & Hrn & Hscan & Htun & Hrp).
  cbv zeta in Hex.
  destruct (updateNetwork_sets params tn tl tr s) as (Es & Et & _).
  cbv zeta in Es, Et. rewrite Es in Hex, Hscan. rewrite Et in Htun.
  split; [|done].
  intros a. rewrite Hex.
  destruct (isValid (splitTunnelNetScan params)).
  - destruct (decide (a ∈ ex)).
    + by rewrite decide_True.
    + rewrite decide_False; [done|]. by intros [? _].
  - rewrite decide_False by apply not_elem_of_nil.
    rewrite decide_False; [done|]. by intros [_ ?].
Qed.

Lemma updateSplitTunnel_reconciles_witness :
  ∃ s',
    updateSplitTunnel 4 proc_tree (mkParams scan_up ["/usr/bin/foo"] [])
      "tun0" "10.0.0.2" "10.0.0.1" ["/usr/bin/foo"] []
      (mkState (set_exclusionsMap map_foo_cat newTracker) (bootKernel "1"))
    = Some s'
    ∧ _exclusionsMap (self s') !! "/bin/cat" = None
    ∧ _exclusionsMap (self s') !! "/usr/bin/foo"
      = Some (pidsForPath proc_tree "/usr/bin/foo").
Proof.
  eexists. split; [vm_compute; reflexivity|].
  pose proof (updateSplitTunnel_reconciles 4%nat proc_tree
                (mkParams scan_up ["/usr/bin/foo"] [])
                "tun0" "10.0.0.2" "10.0.0.1" ["/usr/bin/foo"] []
                (mkState (set_exclusionsMap map_foo_cat newTracker)
                   (bootKernel "1")) _ ltac:(vm_compute; reflexivity))
    as (Hm & _).
  split; [apply (Hm "/bin/cat")|apply (Hm "/usr/bin/foo")].
Defined.

(** X5: after [updateSplitTunnel] every process running a vpn-only app, and
    every process below it, is in the vpn-only cgroup, also when it runs an
    excluded app or sits below one; a process at or below a running excluded
    app (the scan being valid) is in the exclusions cgroup provided it is
    not at or below a pid of a vpn-only entry that the call drops nor at or
    below a process running a vpn-only app. *)
Theorem updateSplitTunnel_cgroups fuel proc params tn tl tr
    (ex vo : list string) s s' app pid q :
  updateSplitTunnel fuel proc params tn tl tr ex vo s = Some s' →
  pid ∈ pidsForPath proc app → rtc (child_of proc) pid q →
  (app ∈ vo → cgroup_procs (sys s') !! q = Some VpnOnlyFile)
  ∧ (app ∈ ex → isValid (splitTunnelNetScan params) = true →
     (∀ app' pid', app' ∉ vo → tracked (_vpnOnlyMap (self s)) app' pid' →
                   ¬ rtc (child_of proc) pid' q) →
     (∀ app' pid', app' ∈ vo → pid' ∈ pidsForPath proc app' →
                   ¬ rtc (child_of proc) pid' q) →
     cgroup_procs (sys s') !! q = Some VpnExclusionsFile).
Proof.
  unfold updateSplitTunnel. intros H Hpid Hq.
  destruct (updateNetwork_sets params tn tl tr s) as (Es & _ & _ & Evm & _).
  cbv zeta in Es, Evm.
  apply updateApps_inv in H
    as (wR1 & wE & wR2 & wV & E1 & E2 & E3 & E4 & ->).
  cbv zeta in *. rewrite Es in E2. rewrite Evm in E3.
  assert (is_Some (proc !! q)) as Hlive.
  { apply elem_of_pidsForPath in Hpid as [_ Hpid].
    by eapply rtc_child_of_listed. }
  simpl. split.
  - intros Happ. rewrite write_all_lookup. rewrite decide_True; [done|].
    split; [|done]. apply (app_writes_mem _ _ _ _ q E4). by exists app, pid.
  - intros Happ Hvalid HnR HnV. rewrite Hvalid in E2.
    rewrite write_all_lookup. rewrite decide_False.
    2:{ intros [Hin _]. apply (app_writes_mem _ _ _ _ q E4) in Hin
          as (app' & pid' & ? & ? & ?). by apply (HnV app' pid'). }
    rewrite write_all_lookup. rewrite decide_False.
    2:{ intros [Hin _]. apply (evict_writes_mem _ _ _ _ _ q E3) in Hin
          as (app' & pid' & ? & ? & ?). by apply (HnR app' pid'). }
    rewrite write_all_lookup. rewrite decide_True; [done|].
    split; [|done]. apply (app_writes_mem _ _ _ _ q E2). by exists app, pid.
Qed.

Lemma updateSplitTunnel_cgroups_witness :
  ∃ s',
    updateSplitTunnel 4 proc_tree
      (mkParams scan_up ["/usr/bin/foo"] ["/bin/cat"])
      "tun0" "10.0.0.2" "10.0.0.1" ["/usr/bin/foo"] ["/bin/cat"]
      (initial "1") = Some s'
    ∧ cgroup_procs (sys s') !! 3002 = Some VpnOnlyFile.
Proof.
  eexists. split; [vm_compute; reflexivity|].
  refine (proj1 (updateSplitTunnel_cgroups 4%nat proc_tree
                   (mkParams scan_up ["/usr/bin/foo"] ["/bin/cat"])
                   "tun0" "10.0.0.2" "10.0.0.1" ["/usr/bin/foo"] ["/bin/cat"]
                   (initial "1") _ "/bin/cat" 3001 3002 _ _ _) _).
  - vm_compute. reflexivity.
  - apply elem_of_pidsForPath. split; [reflexivity|by eexists].
  - apply rtc_once. apply elem_of_childPidsOf. eexists. split; reflexivity.
  - by left.
Defined.

(** ** Process events *)

(** X6: an exec of an app that the exclusions map tracks, while the scan is
    valid, adds the pid to that app's set and to no other, moves the process
    and every process below it to the exclusions cgroup and no other pid;
    the vpn-only map is left alone even when it tracks the same path. *)
Theorem addLaunchedApp_excluded fuel proc pid s s' X :
  pathForPid proc pid ≠ "" →
  _exclusionsMap (self s) !! pathForPid proc pid = Some X →
  isValid (_previousNetScan (self s)) = true →
  addLaunchedApp fuel proc pid s = Some s' →
  _exclusionsMap (self s')
  = <[pathForPid proc pid := X ∪ {[pid]}]> (_exclusionsMap (self s))
  ∧ _vpnOnlyMap (self s') = _vpnOnlyMap (self s)
  ∧ (∀ q, rtc (child_of proc) pid q →
          cgroup_procs (sys s') !! q = Some VpnExclusionsFile)
  ∧ (∀ q, ¬ rtc (child_of proc) pid q →
          cgroup_procs (sys s') !! q = cgroup_procs (sys s) !! q).
Proof.
  intros Hne HX Hv H. apply addLaunchedApp_inv in H. cbv zeta in H.
  destruct H as [[_ [?|[[_ Hi]|[Hn _]]]]
                |[(X' & ws & _ & HX' & _ & Hws & ->)
                 |(Y & ws & _ & HX' & _)]].
  - done.
  - by rewrite Hv in Hi.
  - by rewrite HX in Hn.
  - rewrite HX in HX'. injection HX' as <-. simpl.
    split; [done|]. split; [done|]. split.
    + intros q Hq. rewrite write_all_lookup. rewrite decide_True; [done|].
      split; [by eapply descendants_rtc|].
      eapply rtc_child_of_listed; [|done]. by apply pathForPid_listed.
    + intros q Hq. rewrite write_all_lookup. rewrite decide_False; [done|].
      intros [Hin _]. apply Hq. by eapply descendants_elem.
  - by rewrite HX in HX'.
Qed.

Lemma addLaunchedApp_excluded_witness :
  ∃ s',
    addLaunchedApp 4 proc_tree 3000 tracking_foo_bar = Some s'
    ∧ cgroup_procs (sys s') !! 3001 = Some VpnExclusionsFile
    ∧ cgroup_procs (sys s') !! 4000 = None.
Proof.
  eexists. split; [vm_compute; reflexivity|].
  pose proof (addLaunchedApp_excluded 4%nat proc_tree 3000 tracking_foo_bar _ ∅
                ltac:(discriminate) ltac:(reflexivity) ltac:(reflexivity)
                ltac:(vm_compute; reflexivity)) as (_ & _ & Hin & _).
  split; [|by vm_compute].
  apply Hin. apply rtc_once. apply elem_of_childPidsOf.
  eexists. split; reflexivity.
Defined.

(** X7: an exec of an app that only the vpn-only map tracks adds the pid to
    that app's set and moves the process and every process below it to the
    vpn-only cgroup, whether the scan is valid or not; the exclusions map is
    left alone. *)
Theorem addLaunchedApp_vpnOnly fuel proc pid s s' Y :
  pathForPid proc pid ≠ "" →
  _exclusionsMap (self s) !! pathForPid proc pid = None →
  _vpnOnlyMap (self s) !! pathForPid proc pid = Some Y →
  addLaunchedApp fuel proc pid s = Some s' →
  _vpnOnlyMap (self s')
  = <[pathForPid proc pid := Y ∪ {[pid]}]> (_vpnOnlyMap (self s))
  ∧ _exclusionsMap (self s') = _exclusionsMap (self s)
  ∧ (∀ q, rtc (child_of proc) pid q →
          cgroup_procs (sys s') !! q = Some VpnOnlyFile)
  ∧ (∀ q, ¬ rtc (child_of proc) pid q →
          cgroup_procs (sys s') !! q = cgroup_procs (sys s) !! q).
Proof.
  intros Hne HX HY H. apply addLaunchedApp_inv in H. cbv zeta in H.
  destruct H as [[_ [?|[[[? Hi] _]|[_ Hn]]]]
                |[(X' & ws & _ & HX' & _)
                 |(Y' & ws & _ & _ & HY' & Hws & ->)]].
  - done.
  - by rewrite HX in Hi.
  - by rewrite HY in Hn.
  - by rewrite HX in HX'.
  - rewrite HY in HY'. injection HY' as <-. simpl.
    split; [done|]. split; [done|]. split.
    + intros q Hq. rewrite write_all_lookup. rewrite decide_True; [done|].
      split; [by eapply descendants_rtc|].
      eapply rtc_child_of_listed; [|done]. by apply pathForPid_listed.
    + intros q Hq. rewrite write_all_lookup. rewrite decide_False; [done|].
      intros [Hin _]. apply Hq. by eapply descendants_elem.
Qed.

Lemma addLaunchedApp_vpnOnly_witness :
  ∃ s',
    addLaunchedApp 4 proc_tree 3002
      (mkState (set_previousNetScan noScan (self tracking_foo_bar))
         (sys tracking_foo_bar)) = Some s'
    ∧ _vpnOnlyMap (self s') !! "/usr/bin/bar" = Some {[3002]}
    ∧ cgroup_procs (sys s') !! 3002 = Some VpnOnlyFile.
Proof.
  eexists. split; [vm_compute; reflexivity|].
  pose proof (addLaunchedApp_vpnOnly 4%nat proc_tree 3002
                (mkState (set_previousNetScan noScan (self tracking_foo_bar))
                   (sys tracking_foo_bar)) _ ∅
                ltac:(discriminate) ltac:(reflexivity) ltac:(reflexivity)
                ltac:(vm_compute; reflexivity)) as (Hm & _ & Hin & _).
  split; [by vm_compute|]. apply Hin. apply rtc_refl.
Defined.

(** X8: [addLaunchedApp] returns at once, leaving tracker and kernel as they
    were, when the exe link of the pid cannot be resolved, when neither map
    tracks the path, and when the exclusions map tracks the path while the
    scan is invalid; in the last case the pid is not added to the vpn-only
    map either, though that map may track the path too. *)
Theorem addLaunchedApp_ignores fuel proc pid s :
  pathForPid proc pid = ""
  ∨ (_exclusionsMap (self s) !! pathForPid proc pid = None
     ∧ _vpnOnlyMap (self s) !! pathForPid proc pid = None)
  ∨ (is_Some (_exclusionsMap (self s) !! pathForPid proc pid)
     ∧ isValid (_previousNetScan (self s)) = false) →
  addLaunchedApp fuel proc pid s = Some s.
Proof.
  unfold addLaunchedApp. cbv zeta.
  intros [He|[[Hx Hv]|[Hx Hv]]].
  - by rewrite decide_True.
  - case_decide; [done|]. rewrite Hx, Hv.
    rewrite !decide_False; [done|by intros [? ?]|by intros [? ?]].
  - case_decide; [done|]. rewrite decide_True by done. by rewrite Hv.
Qed.

Lemma addLaunchedApp_ignores_witness :
  addLaunchedApp 0 proc_tree 3002
    (mkState
       (set_previousNetScan noScan
          (set_exclusionsMap (<["/usr/bin/bar" := ∅]> ∅)
             (self tracking_foo_bar)))
       (sys tracking_foo_bar))
  = Some (mkState
            (set_previousNetScan noScan
               (set_exclusionsMap (<["/usr/bin/bar" := ∅]> ∅)
                  (self tracking_foo_bar)))
            (sys tracking_foo_bar)).
Proof.
  apply addLaunchedApp_ignores. right. right.
  split; [by eexists|reflexivity].
Defined.

(** X9: [removeTerminatedApp] takes the pid out of every set of both maps
    and nothing else: every other pid stays where it is tracked, the keys of
    both maps stay (an app whose last process exits is still tracked, with
    an empty set), and the kernel, cgroups included, is not touched. *)
Theorem removeTerminatedApp_forgets pid s :
  let s' := removeTerminatedApp pid s in
  (∀ path q, tracked (_exclusionsMap (self s')) path q ↔
             tracked (_exclusionsMap (self s)) path q ∧ q ≠ pid)
  ∧ (∀ path q, tracked (_vpnOnlyMap (self s')) path q ↔
               tracked (_vpnOnlyMap (self s)) path q ∧ q ≠ pid)
  ∧ dom (_exclusionsMap (self s')) = dom (_exclusionsMap (self s))
  ∧ dom (_vpnOnlyMap (self s')) = dom (_vpnOnlyMap (self s))
  ∧ sys s' = sys s
  ∧ _sockFd (self s') = _sockFd (self s)
  ∧ _readNotifier (self s') = _readNotifier (self s)
  ∧ _previousNetScan (self s') = _previousNetScan (self s)
  ∧ _previousTunnelDeviceLocalAddress (self s')
    = _previousTunnelDeviceLocalAddress (self s)
  ∧ _previousRPFilter (self s') = _previousRPFilter (self s).
Proof.
  cbv zeta. unfold removeTerminatedApp. simpl.
  assert (∀ (m : gmap string (gset Z)) path q,
            tracked ((λ set, set ∖ {[pid]}) <$> m) path q ↔
            tracked m path q ∧ q ≠ pid) as Ht.
  { intros m path q. unfold tracked. rewrite lookup_fmap. split.
    - intros (Y & HY & Hq). destruct (m !! path) as [X|]; [|done].
      injection HY as <-. apply elem_of_difference in Hq as [Hq Hne].
      split; [by exists X|]. by rewrite elem_of_singleton in Hne.
    - intros [(X & HX & Hq) Hne]. rewrite HX. eexists. split; [done|].
      apply elem_of_difference. by rewrite elem_of_singleton. }
  split; [apply Ht|]. split; [apply Ht|].
  rewrite !dom_fmap_L. done.
Qed.

(** X10: an exec followed by the exit of the same pid leaves both maps as
    they were before the exec, when the pid was in no set then; the cgroup
    writes of the exec are not taken back. *)
Theorem exec_then_exit_restores_maps fuel proc pid s s1 :
  (∀ path, ¬ tracked (_exclusionsMap (self s)) path pid) →
  (∀ path, ¬ tracked (_vpnOnlyMap (self s)) path pid) →
  addLaunchedApp fuel proc pid s = Some s1 →
  self (removeTerminatedApp pid s1) = self s
  ∧ sys (removeTerminatedApp pid s1) = sys s1.
Proof.
  intros Hex Hvo H. split; [|done].
  assert (∀ (m : gmap string (gset Z)),
            (∀ path, ¬ tracked m path pid) →
            (λ set, set ∖ {[pid]}) <$> m = m) as Hsame.
  { intros m Hm. apply map_eq. intros a. rewrite lookup_fmap.
    destruct (m !! a) as [X|] eqn:HX; [|done]. simpl. f_equal.
    assert (pid ∉ X) by (intros ?; apply (Hm a); by exists X).
    set_solver. }
  assert (∀ (m : gmap string (gset Z)) path X,
            (∀ path, ¬ tracked m path pid) → m !! path = Some X →
            (λ set, set ∖ {[pid]}) <$> <[path := X ∪ {[pid]}]> m = m)
    as Hback.
  { intros m path X Hm HX. apply map_eq. intros a. rewrite lookup_fmap.
    destruct (decide (a = path)) as [->|Hne].
    - rewrite lookup_insert_eq, HX. simpl. f_equal.
      assert (pid ∉ X) by (intros ?; apply (Hm path); by exists X).
      set_solver.
    - rewrite lookup_insert_ne by done.
      destruct (m !! a) as [Y|] eqn:HY; [|done]. simpl. f_equal.
      assert (pid ∉ Y) by (intros ?; apply (Hm a); by exists Y).
      set_solver. }
  apply addLaunchedApp_inv in H. cbv zeta in H.
  unfold removeTerminatedApp.
  destruct H as [[-> _]
                |[(X & ws & _ & HX & _ & _ & ->)
                 |(Y & ws & _ & _ & HY & _ & ->)]]; simpl.
  - rewrite !Hsame by done. by destruct s as [[] ?].
  - rewrite Hback by done. rewrite Hsame by done. by destruct s as [[] ?].
  - rewrite Hback by done. rewrite Hsame by done. by destruct s as [[] ?].
Qed.

Lemma exec_then_exit_restores_maps_witness :
  ∃ s1,
    addLaunchedApp 4 proc_tree 3000 tracking_foo_bar = Some s1
    ∧ self (removeTerminatedApp 3000 s1) = self tracking_foo_bar.
Proof.
  eexists. split; [vm_compute; reflexivity|].
  refine (proj1 (exec_then_exit_restores_maps 4%nat proc_tree 3000
                   tracking_foo_bar _ _ _ _)).
  - intros path (X & HX & Hin). simpl in HX.
    destruct (decide (path = "/usr/bin/foo")) as [->|Hne].
    + rewrite lookup_insert_eq in HX. injection HX as <-.
      by apply not_elem_of_empty in Hin.
    + rewrite lookup_insert_ne in HX by done. by rewrite lookup_empty in HX.
  - intros path (X & HX & Hin). simpl in HX.
    destruct (decide (path = "/usr/bin/bar")) as [->|Hne].
    + rewrite lookup_insert_eq in HX. injection HX as <-.
      by apply not_elem_of_empty in Hin.
    + rewrite lookup_insert_ne in HX by done. by rewrite lookup_empty in HX.
  - vm_compute. reflexivity.
Defined.

(** X11: whatever event [readFromSocket] receives, the keys of both maps
    (the apps tracked), the session fields of the tracker, the rules, routes,
    anchors, rp_filter and the command history stay as they are, and a pid
    whose cgroup changes has been moved to the exclusions or the vpn-only
    cgroup, never to the parent cgroup. *)
Theorem readFromSocket_keeps_session fuel proc what s s' :
  readFromSocket fuel proc what s = Some s' →
  dom (_exclusionsMap (self s')) = dom (_exclusionsMap (self s))
  ∧ dom (_vpnOnlyMap (self s')) = dom (_vpnOnlyMap (self s))
  ∧ _sockFd (self s') = _sockFd (self s)
  ∧ _readNotifier (self s') = _readNotifier (self s)
  ∧ _previousNetScan (self s') = _previousNetScan (self s)
  ∧ _previousTunnelDeviceLocalAddress (self s')
    = _previousTunnelDeviceLocalAddress (self s)
  ∧ _previousRPFilter (self s') = _previousRPFilter (self s)
  ∧ ip_rules (sys s') = ip_rules (sys s)
  ∧ route_bypass (sys s') = route_bypass (sys s)
  ∧ route_vpnOnly (sys s') = route_vpnOnly (sys s)
  ∧ anchor_tagPkts (sys s') = anchor_tagPkts (sys s)
  ∧ anchor_transIp (sys s') = anchor_transIp (sys s)
  ∧ transIp_rules (sys s') = transIp_rules (sys s)
  ∧ rp_filter (sys s') = rp_filter (sys s)
  ∧ shell_log (sys s') = shell_log (sys s)
  ∧ ∀ q, cgroup_procs (sys s') !! q = cgroup_procs (sys s) !! q
         ∨ cgroup_procs (sys s') !! q = Some VpnExclusionsFile
         ∨ cgroup_procs (sys s') !! q = Some VpnOnlyFile.
Proof.
  destruct what as [|pid|pid|]; simpl.
  - intros [= <-]. repeat split; try done. by left.
  - intros H. apply addLaunchedApp_inv in H. cbv zeta in H.
    destruct H as [[-> _]
                  |[(X & ws & _ & HX & _ & _ & ->)
                   |(Y & ws & _ & _ & HY & _ & ->)]].
    + repeat split; try done. by left.
    + pose proof (write_all_frame proc VpnExclusionsFile ws (sys s)) as F.
      cbv zeta in F. destruct F as (?&?&?&?&?&?&?&?). simpl.
      split; [|repeat split; try done].
      * rewrite dom_insert_L.
        assert (pathForPid proc pid ∈ dom (_exclusionsMap (self s)))
          by (apply elem_of_dom; by eexists).
        set_solver.
      * intros q. rewrite write_all_lookup. case_decide; auto.
    + pose proof (write_all_frame proc VpnOnlyFile ws (sys s)) as F.
      cbv zeta in F. destruct F as (?&?&?&?&?&?&?&?). simpl.
      split; [done|]. split; [|repeat split; try done].
      * rewrite dom_insert_L.
        assert (pathForPid proc pid ∈ dom (_vpnOnlyMap (self s)))
          by (apply elem_of_dom; by eexists).
        set_solver.
      * intros q. rewrite write_all_lookup. case_decide; auto.
  - intros [= <-]. simpl. rewrite !dom_fmap_L. repeat split; try done.
    by left.
  - intros [= <-]. repeat split; try done. by left.
Qed.

Lemma readFromSocket_keeps_session_witness :
  ∃ s',
    readFromSocket 4 proc_tree (PROC_EVENT_EXEC 3000) tracking_foo_bar = Some s'
    ∧ dom (_exclusionsMap (self s')) = dom (_exclusionsMap (self tracking_foo_bar))
    ∧ shell_log (sys s') = [].
Proof.
  eexists. split; [vm_compute; reflexivity|].
  pose proof (readFromSocket_keeps_session 4%nat proc_tree
                (PROC_EVENT_EXEC 3000) tracking_foo_bar _
                ltac:(vm_compute; reflexivity)) as H.
  split; [apply H|apply H].
Defined.

(** ** Frames of the rule controller *)

Lemma shellExecute_frame cmd k :
  cgroup_procs (shellExecute cmd k) = cgroup_procs k
  ∧ anchor_tagPkts (shellExecute cmd k) = anchor_tagPkts k
  ∧ anchor_transIp (shellExecute cmd k) = anchor_transIp k
  ∧ transIp_rules (shellExecute cmd k) = transIp_rules k
  ∧ (match cmd with SysctlWrite _ => True
     | _ => rp_filter (shellExecute cmd k) = rp_filter k end)
  ∧ (match cmd with IpRouteReplace _ _ _ => True
     | _ => route_bypass (shellExecute cmd k) = route_bypass k
            ∧ route_vpnOnly (shellExecute cmd k) = route_vpnOnly k end).
Proof. destruct cmd as [? ? []| | | | |]; done. Qed.

Lemma routingPolicy_frame addr t k :
  let k1 := addRoutingPolicyForSourceIp addr t k in
  let k2 := removeRoutingPolicyForSourceIp addr t k in
  cgroup_procs k1 = cgroup_procs k ∧ cgroup_procs k2 = cgroup_procs k
  ∧ anchor_tagPkts k1 = anchor_tagPkts k ∧ anchor_tagPkts k2 = anchor_tagPkts k
  ∧ anchor_transIp k1 = anchor_transIp k ∧ anchor_transIp k2 = anchor_transIp k
  ∧ transIp_rules k1 = transIp_rules k ∧ transIp_rules k2 = transIp_rules k
  ∧ rp_filter k1 = rp_filter k ∧ rp_filter k2 = rp_filter k
  ∧ route_bypass k1 = route_bypass k ∧ route_bypass k2 = route_bypass k
  ∧ route_vpnOnly k1 = route_vpnOnly k ∧ route_vpnOnly k2 = route_vpnOnly k.
Proof.
  cbv zeta.
  unfold addRoutingPolicyForSourceIp, removeRoutingPolicyForSourceIp.
  by case_decide.
Qed.

(** [updateNetwork] leaves the cgroups, the anchor switches and rp_filter
    alone. *)
Lemma updateNetwork_frame params tn tl tr s :
  let s0 := updateNetwork params tn tl tr s in
  cgroup_procs (sys s0) = cgroup_procs (sys s)
  ∧ anchor_tagPkts (sys s0) = anchor_tagPkts (sys s)
  ∧ anchor_transIp (sys s0) = anchor_transIp (sys s)
  ∧ rp_filter (sys s0) = rp_filter (sys s)
  ∧ _sockFd (self s0) = _sockFd (self s)
  ∧ _readNotifier (self s0) = _readNotifier (self s)
  ∧ _previousRPFilter (self s0) = _previousRPFilter (self s).
Proof.
  cbv zeta. unfold updateNetwork. cbv zeta. simpl self. simpl sys.
  unfold updateRoutes, updateMasquerade, addRoutingPolicyForSourceIp,
    removeRoutingPolicyForSourceIp.
  repeat case_decide; done.
Qed.

(** What [updateNetwork] does to the routes and to the masquerade anchor. *)
Lemma updateNetwork_routes params tn tl tr s :
  let s0 := updateNetwork params tn tl tr s in
  let scan := splitTunnelNetScan params in
  route_bypass (sys s0)
  = (if decide (gatewayIp scan = "" ∨ interfaceName scan = "")
     then route_bypass (sys s)
     else Some (gatewayIp scan, interfaceName scan))
  ∧ route_vpnOnly (sys s0)
    = (if decide (tr = "" ∨ tn = "") then route_vpnOnly (sys s)
       else Some (tr, tn))
  ∧ transIp_rules (sys s0)
    = (if decide (interfaceName (_previousNetScan (self s))
                  = interfaceName scan)
       then transIp_rules (sys s)
       else if decide (interfaceName scan = "") then []
       else ["-o " +:+ interfaceName scan +:+ " -j MASQUERADE";
             "-o tun+ -j MASQUERADE"])
  ∧ last (shell_log (sys s0)) = Some IpRouteFlushCache.
Proof.
  cbv zeta. unfold updateNetwork. cbv zeta. simpl sys.
  split; [|split; [|split]].
  - unfold updateRoutes, updateMasquerade, addRoutingPolicyForSourceIp,
      removeRoutingPolicyForSourceIp.
    repeat case_decide; done.
  - unfold updateRoutes, updateMasquerade, addRoutingPolicyForSourceIp,
      removeRoutingPolicyForSourceIp.
    repeat case_decide; done.
  - unfold updateRoutes, updateMasquerade, addRoutingPolicyForSourceIp,
      removeRoutingPolicyForSourceIp.
    repeat case_decide; try done; congruence.
  - unfold updateRoutes. cbv zeta. unfold shellExecute at 1.
    change (shell_log (set_shell_log ?l ?k)) with l. apply last_snoc.
Qed.

(** X12: [updateSplitTunnel] replaces the bypass default route when gateway
    and interface of the scan are both known and leaves it in place
    otherwise, does the same for the vpn-only route with the tunnel's remote
    address and device, rewrites the masquerade anchor only when the
    interface name differs from the stored one (to nothing for an empty
    name), ends its commands with a flush of the route cache, and leaves
    the anchor switches and rp_filter alone. *)
Theorem updateSplitTunnel_network fuel proc params tn tl tr ex vo s s' :
  updateSplitTunnel fuel proc params tn tl tr ex vo s = Some s' →
  let scan := splitTunnelNetScan params in
  route_bypass (sys s')
  = (if decide (gatewayIp scan = "" ∨ interfaceName scan = "")
     then route_bypass (sys s)
     else Some (gatewayIp scan, interfaceName scan))
  ∧ route_vpnOnly (sys s')
    = (if decide (tr = "" ∨ tn = "") then route_vpnOnly (sys s)
       else Some (tr, tn))
  ∧ transIp_rules (sys s')
    = (if decide (interfaceName (_previousNetScan (self s))
                  = interfaceName scan)
       then transIp_rules (sys s)
       else if decide (interfaceName scan = "") then []
       else ["-o " +:+ interfaceName scan +:+ " -j MASQUERADE";
             "-o tun+ -j MASQUERADE"])
  ∧ last (shell_log (sys s')) = Some IpRouteFlushCache
  ∧ anchor_tagPkts (sys s') = anchor_tagPkts (sys s)
  ∧ anchor_transIp (sys s') = anchor_transIp (sys s)
  ∧ rp_filter (sys s') = rp_filter (sys s).
Proof.
  unfold updateSplitTunnel. intros H. cbv zeta.
  apply updateApps_sys in H as (_ & Hb & Hv & Ht & Hi & Hr & Hp & Hl).
  destruct (updateNetwork_routes params tn tl tr s) as (Rb & Rv & Rm & Rl).
  destruct (updateNetwork_frame params tn tl tr s) as (_ & Ft & Fi & Fp & _).
  cbv zeta in *.
  rewrite Hb, Hv, Ht, Hi, Hr, Hp, Hl. done.
Qed.

Lemma updateSplitTunnel_network_witness :
  ∃ s',
    updateSplitTunnel 4 proc_tree
      (mkParams (mkScan "10.1.1.1" "wlan0" "10.1.1.7") [] [])
      "" "" "" [] [] tracking_foo_bar = Some s'
    ∧ route_bypass (sys s') = Some ("10.1.1.1", "wlan0")
    ∧ route_vpnOnly (sys s') = None
    ∧ transIp_rules (sys s')
      = ["-o wlan0 -j MASQUERADE"; "-o tun+ -j MASQUERADE"].
Proof.
  eexists. split; [vm_compute; reflexivity|].
  pose proof (updateSplitTunnel_network 4%nat proc_tree
                (mkParams (mkScan "10.1.1.1" "wlan0" "10.1.1.7") [] [])
                "" "" "" [] [] tracking_foo_bar _
                ltac:(vm_compute; reflexivity)) as (Hb & Hv & Hm & _).
  cbv zeta in Hb, Hv, Hm.
  split; [exact Hb|]. split; [exact Hv|exact Hm].
Defined.

(** ** Session start *)

(** X13: when socket, bind and subscription succeed, [initiateConnection]
    leaves a session: the descriptor and the notifier are those of the new
    socket, both anchors are enabled, the scan and the tunnel address passed
    in are stored, the maps hold the scans of the lists of [params] (the
    excluded ones only under a valid scan); rp_filter reads as 2 when the
    sysctl read succeeded, and no value is held for restoring when it
    failed. *)
Theorem initiateConnection_starts_session fuel proc env params tn tl tr s s' :
  socket_ret env ≠ -1 → bind_ret env ≠ -1 → send_ret env ≠ -1 →
  initiateConnection fuel proc env params tn tl tr s = Some s' →
  _sockFd (self s') = socket_ret env
  ∧ _readNotifier (self s') = Some (socket_ret env)
  ∧ anchor_tagPkts (sys s') = true ∧ anchor_transIp (sys s') = true
  ∧ _previousNetScan (self s') = splitTunnelNetScan params
  ∧ _previousTunnelDeviceLocalAddress (self s') = tl
  ∧ (∀ a, _exclusionsMap (self s') !! a =
          if decide (a ∈ excludeApps params
                     ∧ isValid (splitTunnelNetScan params) = true)
          then Some (pidsForPath proc a) else None)
  ∧ (∀ a, _vpnOnlyMap (self s') !! a =
          if decide (a ∈ vpnOnlyApps params)
          then Some (pidsForPath proc a) else None)
  ∧ (sysctl_exit env = 0 → toInt (rp_filter (sys s')) = 2)
  ∧ (sysctl_exit env ≠ 0 → _previousRPFilter (self s') = "").
Proof.
  intros Hsock Hbind Hsend H. unfold initiateConnection in H.
  apply bind_Some in H as (s1 & _ & H). cbv zeta in H.
  rewrite decide_False in H by done.
  rewrite decide_False in H by done.
  rewrite decide_False in H
    by (unfold subscribeToProcEvents; by rewrite decide_False).
  apply bind_Some in H as (s2 & Hupd & [= <-]).
  unfold updateSplitTunnel in Hupd.
  pose proof (updateApps_self _ _ _ _ _ _ Hupd)
    as (Hex & Hvo & Hfd & _ & Hscan & Htun & _).
  pose proof (updateApps_sys _ _ _ _ _ _ Hupd)
    as (_ & _ & _ & Ht & Hi & _ & _ & _).
  set (s1' := mkState (set_sockFd (socket_ret env) (self s1))
                (setupFirewall (sys s1))) in *.
  destruct (updateNetwork_sets params tn tl tr s1') as (Es & Et & _).
  destruct (updateNetwork_frame params tn tl tr s1')
    as (_ & Ft & Fi & _ & Ffd & _).
  cbv zeta in *.
  pose proof (setupReversePathFiltering_maps (sysctl_exit env) s2)
    as (M1 & M2 & M3 & M4 & M5).
  cbv zeta in M1, M2, M3, M4, M5.
  assert (anchor_tagPkts (sys (setupReversePathFiltering (sysctl_exit env) s2))
          = true
          ∧ anchor_transIp
              (sys (setupReversePathFiltering (sysctl_exit env) s2)) = true)
    as [A1 A2].
  { unfold setupReversePathFiltering. cbv zeta.
    repeat case_decide; simpl; rewrite Ht, Hi, Ft, Fi; done. }
  assert (sysctl_exit env = 0 →
          toInt (rp_filter
                   (sys (setupReversePathFiltering (sysctl_exit env) s2))) = 2)
    as R1.
  { intros He. unfold setupReversePathFiltering. cbv zeta.
    rewrite decide_True by done. case_decide as Hn; simpl; done. }
  assert (sysctl_exit env ≠ 0 →
          _previousRPFilter
            (self (setupReversePathFiltering (sysctl_exit env) s2)) = "")
    as R2.
  { intros He. unfold setupReversePathFiltering. cbv zeta.
    by rewrite decide_False. }
  set (s3 := setupReversePathFiltering (sysctl_exit env) s2) in *.
  clearbody s3.
  cbn [self sys set_readNotifier _sockFd _readNotifier _exclusionsMap
       _vpnOnlyMap _previousNetScan _previousTunnelDeviceLocalAddress
       _previousRPFilter].
  rewrite M1, M2, M3, M4, M5, Hfd, Ffd, Hscan, Es, Htun, Et, A1, A2.
  split; [done|]. split; [done|].
  split; [done|]. split; [done|]. split; [done|]. split; [done|].
  split; [|split; [done|done]].
  - intros a. rewrite Hex. rewrite Es.
    destruct (isValid (splitTunnelNetScan params)).
    + destruct (decide (a ∈ excludeApps params)).
      * by rewrite decide_True.
      * rewrite decide_False; [done|]. by intros [? _].
    + rewrite decide_False by apply not_elem_of_nil.
      rewrite decide_False; [done|]. by intros [_ ?].
Qed.

Lemma initiateConnection_starts_session_witness :
  ∃ s',
    initiateConnection 4 proc_tree env_ok
      (mkParams scan_up ["/usr/bin/foo"] []) "tun0" "10.0.0.2" "10.0.0.1"
      (initial "1") = Some s'
    ∧ _sockFd (self s') = 7 ∧ _readNotifier (self s') = Some 7.
Proof.
  eexists. split; [vm_compute; reflexivity|].
  pose proof (initiateConnection_starts_session 4%nat proc_tree env_ok
                (mkParams scan_up ["/usr/bin/foo"] [])
                "tun0" "10.0.0.2" "10.0.0.1" (initial "1") _
                ltac:(discriminate) ltac:(discriminate) ltac:(discriminate)
                ltac:(vm_compute; reflexivity)) as (H1 & H2 & _).
  split; [exact H1|exact H2].
Defined.

(** X14: a second [initiateConnection] on an open session is a full
    [shutdownConnection] followed by an [initiateConnection] on the state
    the shutdown leaves. *)
Theorem initiateConnection_restarts fuel proc env params tn tl tr s :
  _sockFd (self s) ≠ -1 →
  initiateConnection fuel proc env params tn tl tr s
  = (s1 ← shutdownConnection fuel proc s;
     initiateConnection fuel proc env params tn tl tr s1).
Proof.
  intros Hopen. unfold initiateConnection at 1.
  rewrite decide_True by done.
  destruct (shutdownConnection fuel proc s) as [s1|] eqn:Hsh; [|done].
  cbn [mbind option_bind].
  apply shutdownConnection_self in Hsh.
  assert (_sockFd (self s1) = -1) as Hfd by by rewrite Hsh.
  unfold initiateConnection. rewrite Hfd.
  rewrite (decide_False (P := -1 ≠ -1)) by (intros Hne; by apply Hne).
  done.
Qed.

Lemma initiateConnection_restarts_witness :
  initiateConnection 4 proc_tree env_ok
    (mkParams scan_up ["/usr/bin/foo"] []) "tun0" "10.0.0.2" "10.0.0.1"
    (mkState (set_sockFd 7 (self tracking_foo_bar)) (sys tracking_foo_bar))
  = (s1 ← shutdownConnection 4 proc_tree
            (mkState (set_sockFd 7 (self tracking_foo_bar))
               (sys tracking_foo_bar));
     initiateConnection 4 proc_tree env_ok
       (mkParams scan_up ["/usr/bin/foo"] []) "tun0" "10.0.0.2" "10.0.0.1"
       s1).
Proof. apply initiateConnection_restarts. discriminate. Defined.

(** ** Session end *)

Lemma shutdownConnection_inv fuel proc s s' :
  shutdownConnection fuel proc s = Some s' →
  ∃ w1 w2,
    collect (evict_writes fuel proc [] (_exclusionsMap (self s)))
      (elements (dom (_exclusionsMap (self s)))) = Some w1
    ∧ collect (evict_writes fuel proc [] (_vpnOnlyMap (self s)))
        (elements (dom (_vpnOnlyMap (self s)))) = Some w2
    ∧ sys s' =
      let k2 := write_all proc ParentVpnExclusionsFile w2
                  (write_all proc ParentVpnExclusionsFile w1
                     (teardownFirewall (sys s))) in
      let k4 := removeRoutingPolicyForSourceIp
                  (_previousTunnelDeviceLocalAddress (self s))
                  kVpnOnlyRtableName
                  (removeRoutingPolicyForSourceIp
                     (ipAddress (_previousNetScan (self s))) kRtableName k2) in
      if decide (_previousRPFilter (self s) ≠ "")
      then shellExecute (SysctlWrite (_previousRPFilter (self s))) k4
      else k4.
Proof.
  unfold shutdownConnection, removeAllApps. intros H.
  apply bind_Some in H as (s2 & H2 & [= <-]).
  rewrite removeApps_eq in H2.
  cbn [self sys set_readNotifier _exclusionsMap _vpnOnlyMap] in H2.
  destruct (collect (evict_writes fuel proc [] (_exclusionsMap (self s))) _)
    as [w1|] eqn:E1; [|done].
  cbn [mbind option_bind] in H2. rewrite removeApps_eq in H2.
  destruct (collect (evict_writes fuel proc [] (_vpnOnlyMap (self s))) _)
    as [w2|] eqn:E2; [|done].
  cbn [mbind option_bind] in H2. injection H2 as <-.
  exists w1, w2. split; [done|]. split; [done|].
  unfold teardownReversePathFiltering. cbv zeta. simpl.
  by case_decide.
Qed.

Lemma rules_for_all_nil rs :
  rules_for kRtableName rs = [] → rules_for kVpnOnlyRtableName rs = [] →
  rs = [].
Proof. destruct rs as [|[a []] rs]; simpl; done. Qed.

(** What [shutdownConnection] leaves in the kernel. *)
Lemma shutdownConnection_post fuel proc s s' :
  shutdownConnection fuel proc s = Some s' →
  anchor_tagPkts (sys s') = false ∧ anchor_transIp (sys s') = false
  ∧ route_bypass (sys s') = route_bypass (sys s)
  ∧ route_vpnOnly (sys s') = route_vpnOnly (sys s)
  ∧ transIp_rules (sys s') = transIp_rules (sys s)
  ∧ rp_filter (sys s')
    = (if decide (_previousRPFilter (self s) ≠ "")
       then _previousRPFilter (self s) else rp_filter (sys s))
  ∧ (rules_inv s → ip_rules (sys s') = [])
  ∧ (∀ path pid q,
       tracked (_exclusionsMap (self s)) path pid
       ∨ tracked (_vpnOnlyMap (self s)) path pid →
       rtc (child_of proc) pid q → is_Some (proc !! q) →
       cgroup_procs (sys s') !! q = Some ParentVpnExclusionsFile).
Proof.
  intros H. apply shutdownConnection_inv in H as (w1 & w2 & E1 & E2 & ->).
  cbv zeta.
  set (k1 := write_all proc ParentVpnExclusionsFile w1
               (teardownFirewall (sys s))).
  set (k2 := write_all proc ParentVpnExclusionsFile w2 k1).
  set (k3 := removeRoutingPolicyForSourceIp
               (ipAddress (_previousNetScan (self s))) kRtableName k2).
  set (k4 := removeRoutingPolicyForSourceIp
               (_previousTunnelDeviceLocalAddress (self s))
               kVpnOnlyRtableName k3).
  pose proof (write_all_frame proc ParentVpnExclusionsFile w1
                (teardownFirewall (sys s))) as F1.
  pose proof (write_all_frame proc ParentVpnExclusionsFile w2 k1) as F2.
  pose proof (routingPolicy_frame (ipAddress (_previousNetScan (self s)))
                kRtableName k2) as F3.
  pose proof (routingPolicy_frame (_previousTunnelDeviceLocalAddress (self s))
                kVpnOnlyRtableName k3) as F4.
  cbv zeta in F1, F2, F3, F4. fold k1 in F1. fold k2 in F2.
  fold k3 in F3. fold k4 in F4.
  destruct F1 as (R1 & B1 & V1 & T1 & I1 & M1 & P1 & L1).
  destruct F2 as (R2 & B2 & V2 & T2 & I2 & M2 & P2 & L2).
  destruct F3 as (_ & C3 & _ & T3 & _ & I3 & _ & M3 & _ & P3 & _ & B3 & _ & V3).
  destruct F4 as (_ & C4 & _ & T4 & _ & I4 & _ & M4 & _ & P4 & _ & B4 & _ & V4).
  assert (cgroup_procs k4 = cgroup_procs k2) as C by congruence.
  assert (∀ path pid q,
            tracked (_exclusionsMap (self s)) path pid
            ∨ tracked (_vpnOnlyMap (self s)) path pid →
            rtc (child_of proc) pid q → is_Some (proc !! q) →
            cgroup_procs k2 !! q = Some ParentVpnExclusionsFile) as Hcg.
  { intros path pid q Ht Hq Hlive. unfold k2. rewrite write_all_lookup.
    destruct (decide (q ∈ w2 ∧ is_Some (proc !! q))) as [|Hn]; [done|].
    unfold k1. rewrite write_all_lookup. rewrite decide_True; [done|].
    split; [|done]. destruct Ht as [Ht|Ht].
    - apply (evict_writes_mem _ _ _ _ _ q E1). exists path, pid.
      split; [apply not_elem_of_nil|done].
    - destruct Hn. split; [|done].
      apply (evict_writes_mem _ _ _ _ _ q E2). exists path, pid.
      split; [apply not_elem_of_nil|done]. }
  assert (rules_inv s → ip_rules k4 = []) as Hrules.
  { intros (Hlog & Hby & Hvo).
    assert (ip_rules (teardownFirewall (sys s)) = ip_rules (sys s)) as R0
      by done.
    assert (shell_log (teardownFirewall (sys s)) = shell_log (sys s)) as L0
      by done.
    assert (log_ok k2) as Hlog2.
    { eapply log_ok_same; [| |exact Hlog]; congruence. }
    destruct (removeRouting_inv kRtableName
                (ipAddress (_previousNetScan (self s))) k2 Hlog2)
      as (Hl3 & Hn3 & Ho3).
    { eapply rule_inv_same; [|exact Hby]. congruence. }
    cbv zeta in Hl3, Hn3, Ho3. fold k3 in Hl3, Hn3, Ho3.
    destruct (removeRouting_inv kVpnOnlyRtableName
                (_previousTunnelDeviceLocalAddress (self s)) k3 Hl3)
      as (Hl4 & Hn4 & Ho4).
    { eapply rule_inv_same; [|exact Hvo]. rewrite Ho3 by done. congruence. }
    cbv zeta in Hl4, Hn4, Ho4. fold k4 in Hl4, Hn4, Ho4.
    apply rules_for_all_nil; [|done]. rewrite Ho4 by done. done. }
  destruct (decide (_previousRPFilter (self s) ≠ "")) as [Hrp|Hrp].
  - unfold shellExecute.
    cbn [run_cmd set_shell_log set_rp_filter anchor_tagPkts anchor_transIp
         route_bypass route_vpnOnly transIp_rules rp_filter ip_rules
         cgroup_procs].
    rewrite T4, T3, I4, I3, B4, B3, V4, V3, M4, M3, T2, T1, I2, I1, B2, B1,
      V2, V1, M2, M1, C.
    repeat split; try done.
  - rewrite T4, T3, I4, I3, B4, B3, V4, V3, M4, M3, P4, P3, T2, T1, I2, I1,
      B2, B1, V2, V1, M2, M1, P2, P1, C.
    repeat split; try done.
Qed.

Lemma run_rules_inv rp fuel calls s :
  run fuel calls (initial rp) = Some s → rules_inv s.
Proof.
  apply (run_invariant rules_inv fuel calls (initial rp) s);
    [|by compute; auto].
  intros proc op s1 s2. apply step_rules_inv.
Qed.

(** X15: in any state reached by public operations, [shutdownConnection]
    empties both maps, resets the descriptor, the notifier and the stored
    scan, disables both anchors, leaves no source-IP rule, and moves every
    running process at or below a tracked pid to the parent cgroup; the
    default routes and the content of the masquerade anchor are left in
    place. *)
Theorem shutdownConnection_tears_down rp fuel0 calls fuel proc s s' :
  run fuel0 calls (initial rp) = Some s →
  shutdownConnection fuel proc s = Some s' →
  _exclusionsMap (self s') = ∅ ∧ _vpnOnlyMap (self s') = ∅
  ∧ _sockFd (self s') = -1 ∧ _readNotifier (self s') = None
  ∧ _previousNetScan (self s') = noScan
  ∧ anchor_tagPkts (sys s') = false ∧ anchor_transIp (sys s') = false
  ∧ ip_rules (sys s') = []
  ∧ route_bypass (sys s') = route_bypass (sys s)
  ∧ route_vpnOnly (sys s') = route_vpnOnly (sys s)
  ∧ transIp_rules (sys s') = transIp_rules (sys s)
  ∧ (∀ path pid q,
       tracked (_exclusionsMap (self s)) path pid
       ∨ tracked (_vpnOnlyMap (self s)) path pid →
       rtc (child_of proc) pid q → is_Some (proc !! q) →
       cgroup_procs (sys s') !! q = Some ParentVpnExclusionsFile).
Proof.
  intros Hrun H. apply run_rules_inv in Hrun.
  pose proof (shutdownConnection_self _ _ _ _ H) as Hself.
  apply shutdownConnection_post in H
    as (A1 & A2 & B & V & M & _ & R & C).
  rewrite Hself. simpl. repeat split; try done. by apply R.
Qed.

Lemma shutdownConnection_tears_down_witness :
  ∃ s s',
    run 3 calls_family (initial "1") = Some s
    ∧ shutdownConnection 3 proc_family s = Some s'
    ∧ ip_rules (sys s') = []
    ∧ cgroup_procs (sys s') !! 3001 = Some ParentVpnExclusionsFile.
Proof.
  destruct (run 3 calls_family (initial "1")) as [s|] eqn:E1;
    [|by vm_compute in E1].
  destruct (shutdownConnection 3 proc_family s) as [s'|] eqn:E2.
  - exists s, s'. split; [reflexivity|]. split; [exact E2|].
    destruct (shutdownConnection_tears_down "1" 3%nat calls_family 3%nat
                proc_family s s' E1 E2)
      as (_ & _ & _ & _ & _ & _ & _ & R & _ & _ & _ & C).
    split; [exact R|].
    apply (C "/usr/bin/foo" 3000 3001).
    + left. vm_compute in E1. injection E1 as <-.
      exists {[3000]}. split; [vm_compute; reflexivity|].
      by apply elem_of_singleton.
    + apply rtc_once. apply elem_of_childPidsOf. eexists. split; reflexivity.
    + by eexists.
  - vm_compute in E1. injection E1 as <-. by vm_compute in E2.
Defined.

Lemma shutdownConnection_empty fuel proc s :
  _exclusionsMap (self s) = ∅ → _vpnOnlyMap (self s) = ∅ →
  is_Some (shutdownConnection fuel proc s).
Proof.
  intros E V. unfold shutdownConnection, removeAllApps.
  rewrite removeApps_eq.
  cbn [self sys set_readNotifier _exclusionsMap _vpnOnlyMap].
  rewrite E, dom_empty_L, elements_empty.
  cbn [collect mbind option_bind]. rewrite removeApps_eq.
  rewrite V, dom_empty_L, elements_empty.
  cbn [collect mbind option_bind]. by eexists.
Qed.

(** X16: in any state reached by public operations, a [shutdownConnection]
    right after a [shutdownConnection] returns whatever /proc reads then,
    and leaves the tracker and the observable kernel state as the first
    left them. *)
Theorem shutdownConnection_twice rp fuel0 calls fuel proc fuel' proc' s s1 :
  run fuel0 calls (initial rp) = Some s →
  shutdownConnection fuel proc s = Some s1 →
  ∃ s2, shutdownConnection fuel' proc' s1 = Some s2
        ∧ self s2 = self s1
        ∧ observable (sys s2) = observable (sys s1).
Proof.
  intros Hrun H. apply run_rules_inv in Hrun.
  pose proof (shutdownConnection_self _ _ _ _ H) as Hself.
  apply shutdownConnection_post in H as (A1 & A2 & _ & _ & _ & P & R & _).
  specialize (R Hrun).
  destruct (shutdownConnection_empty fuel' proc' s1) as [s2 H2];
    [by rewrite Hself..|].
  exists s2. split; [done|].
  pose proof (shutdownConnection_self _ _ _ _ H2) as Hself2.
  split; [by rewrite Hself2, Hself|].
  apply shutdownConnection_inv in H2 as (w1 & w2 & C1 & C2 & ->).
  rewrite Hself in C1, C2. cbn [_exclusionsMap _vpnOnlyMap] in C1, C2.
  rewrite dom_empty_L, elements_empty in C1, C2.
  injection C1 as <-. injection C2 as <-.
  rewrite Hself.
  cbn [_previousNetScan _previousTunnelDeviceLocalAddress _previousRPFilter
       ipAddress noScan].
  cbv zeta. rewrite !write_all_nil.
  unfold removeRoutingPolicyForSourceIp at 2.
  rewrite (decide_False (P := "" ≠ "")) by (intros Hne; by apply Hne).
  set (tun := _previousTunnelDeviceLocalAddress (self s)) in *.
  set (rpf := _previousRPFilter (self s)) in *.
  clearbody tun rpf.
  destruct s1 as [T1 K1]. cbn [sys] in *. clear Hself Hself2.
  assert (observable
            (removeRoutingPolicyForSourceIp tun kVpnOnlyRtableName
               (teardownFirewall K1)) = observable K1) as Hobs.
  { apply observable_eq. unfold removeRoutingPolicyForSourceIp.
    destruct K1 as [cg rs rb rv at_ ai tr rp' lg]. simpl in *. subst.
    case_decide; simpl; repeat split; done. }
  destruct (decide (rpf ≠ "")) as [Hr|Hr]; [|exact Hobs].
  apply observable_eq in Hobs as (O1&O2&O3&O4&O5&O6&O7&O8).
  apply observable_eq. unfold shellExecute.
  cbn [run_cmd set_shell_log set_rp_filter anchor_tagPkts anchor_transIp
       route_bypass route_vpnOnly transIp_rules rp_filter ip_rules
       cgroup_procs].
  repeat split; done.
Qed.

Lemma shutdownConnection_twice_witness :
  ∃ s s1,
    run 3 calls_family (initial "1") = Some s
    ∧ shutdownConnection 3 proc_family s = Some s1
    ∧ ∃ s2, shutdownConnection 0 cyclic_proc s1 = Some s2
            ∧ self s2 = self s1
            ∧ observable (sys s2) = observable (sys s1).
Proof.
  destruct (run 3 calls_family (initial "1")) as [s|] eqn:E1;
    [|by vm_compute in E1].
  destruct (shutdownConnection 3 proc_family s) as [s1|] eqn:E2.
  - exists s, s1. split; [reflexivity|]. split; [exact E2|].
    exact (shutdownConnection_twice "1" 3%nat calls_family 3%nat proc_family
             0%nat cyclic_proc s s1 E1 E2).
  - vm_compute in E1. injection E1 as <-. by vm_compute in E2.
Defined.

(** ** The bypass rule follows the stored scan *)

Lemma replaceRouting_exact t prev new k :
  log_ok k → rule_inv t prev k →
  rules_for t (ip_rules (addRoutingPolicyForSourceIp new t
                           (removeRoutingPolicyForSourceIp prev t k))) =
  if decide (new = "") then [] else [new].
Proof.
  intros Hlog Hinv.
  destruct (removeRouting_inv t prev k Hlog Hinv) as (_ & Hnil & _).
  cbv zeta in Hnil. unfold addRoutingPolicyForSourceIp.
  destruct (decide (new ≠ "")) as [Hne|He].
  - rewrite decide_False by done. unfold shellExecute.
    change (ip_rules (set_shell_log ?l ?k)) with (ip_rules k).
    rewrite ip_rules_run_cmd. cbn [rules_step].
    rewrite rules_for_app, Hnil. simpl. by rewrite decide_True.
  - apply dec_stable in He. by rewrite decide_True.
Qed.

Lemma bypass_rule_exact_same s s' :
  _previousNetScan (self s') = _previousNetScan (self s) →
  ip_rules (sys s') = ip_rules (sys s) →
  bypass_rule_exact s → bypass_rule_exact s'.
Proof. unfold bypass_rule_exact. by intros -> ->. Qed.

Lemma updateNetwork_bypass_exact params tn tl tr s :
  rules_inv s → bypass_rule_exact s →
  bypass_rule_exact (updateNetwork params tn tl tr s).
Proof.
  intros (Hlog & Hby & Hvo) Hex. unfold updateNetwork. cbv zeta.
  set (scan := splitTunnelNetScan params).
  set (k1 := if decide (interfaceName (_previousNetScan (self s))
                        ≠ interfaceName scan)
             then updateMasquerade (interfaceName scan) (sys s) else sys s).
  assert (ip_rules k1 = ip_rules (sys s) ∧ shell_log k1 = shell_log (sys s))
    as [R1 L1].
  { subst k1. case_decide; [apply updateMasquerade_rules|done]. }
  assert (log_ok k1) as Hlog1 by by eapply log_ok_same.
  assert (rule_inv kRtableName (ipAddress (_previousNetScan (self s))) k1)
    as Hby1 by (eapply rule_inv_same; [by rewrite R1|done]).
  unfold bypass_rule_exact in Hex. rewrite <- R1 in Hex.
  clearbody k1. clear Hlog Hby Hvo R1 L1.
  set (k2 := if decide (ipAddress (_previousNetScan (self s)) ≠ ipAddress scan)
             then addRoutingPolicyForSourceIp (ipAddress scan) kRtableName
                    (removeRoutingPolicyForSourceIp
                       (ipAddress (_previousNetScan (self s))) kRtableName k1)
             else k1).
  assert (log_ok k2
          ∧ rules_for kRtableName (ip_rules k2) =
            if decide (ipAddress scan = "") then [] else [ipAddress scan])
    as (Hlog2 & Hex2).
  { subst k2. destruct (decide (_ ≠ _)) as [Hne|Heq].
    - split; [|by apply replaceRouting_exact].
      by destruct (replaceRouting_inv kRtableName _ (ipAddress scan) k1
                     Hlog1 Hby1) as (Hl & _).
    - apply dec_stable in Heq. rewrite <- Heq. done. }
  clearbody k2. clear Hlog1 Hby1 Hex.
  set (k3 := if decide (_previousTunnelDeviceLocalAddress (self s) ≠ tl)
             then addRoutingPolicyForSourceIp tl kVpnOnlyRtableName
                    (removeRoutingPolicyForSourceIp
                       (_previousTunnelDeviceLocalAddress (self s))
                       kVpnOnlyRtableName k2)
             else k2).
  assert (rules_for kRtableName (ip_rules k3)
          = rules_for kRtableName (ip_rules k2)) as R3.
  { subst k3. clear Hex2.
    destruct (decide (_previousTunnelDeviceLocalAddress (self s) ≠ tl));
      [|done].
    unfold addRoutingPolicyForSourceIp, removeRoutingPolicyForSourceIp,
      shellExecute.
    repeat case_decide;
      repeat (change (ip_rules (set_shell_log ?l ?k)) with (ip_rules k);
              rewrite ip_rules_run_cmd; cbn [rules_step]);
      rewrite ?rules_for_app, ?rules_for_del_other by done; simpl;
      rewrite ?app_nil_r; done. }
  clearbody k3.
  destruct (updateRoutes_rules (gatewayIp scan) (interfaceName scan) tn tr k3)
    as [R4 _]. cbv zeta in R4.
  unfold bypass_rule_exact.
  cbn [sys self _previousNetScan set_previousTunnelDeviceLocalAddress
       set_previousNetScan].
  by rewrite R4, R3.
Qed.

Lemma step_bypass_exact fuel proc op s s' :
  rules_inv s ∧ bypass_rule_exact s → step fuel proc op s = Some s' →
  rules_inv s' ∧ bypass_rule_exact s'.
Proof.
  intros [Hinv Hex] Hstep. split; [by eapply step_rules_inv|].
  assert (∀ fuel proc s s', rules_inv s →
            shutdownConnection fuel proc s = Some s' → bypass_rule_exact s')
    as Hshut.
  { intros f p t t' Ht H.
    pose proof (shutdownConnection_self _ _ _ _ H) as Hself.
    apply shutdownConnection_post in H as (_ & _ & _ & _ & _ & _ & R & _).
    unfold bypass_rule_exact. rewrite (R Ht), Hself. done. }
  assert (∀ fuel proc params tn tl tr ex vo s s',
            rules_inv s → bypass_rule_exact s →
            updateSplitTunnel fuel proc params tn tl tr ex vo s = Some s' →
            bypass_rule_exact s') as Hupd.
  { intros f p params tn tl tr ex vo t t' Ht He H.
    unfold updateSplitTunnel in H.
    pose proof (updateApps_self _ _ _ _ _ _ H) as (_ & _ & _ & _ & Es & _).
    pose proof (updateApps_sys _ _ _ _ _ _ H) as (Er & _).
    eapply bypass_rule_exact_same; [done..|].
    by apply updateNetwork_bypass_exact. }
  destruct op as [env params tn tl tr|params tn tl tr ex vo| |pid|pid];
    simpl in Hstep.
  - apply initiateConnection_inv in Hstep as (s1 & Hs1 & Hs').
    assert (rules_inv s1 ∧ bypass_rule_exact s1) as [Hinv1 Hex1].
    { destruct Hs1 as [[-> _]|[Hsh _]]; [done|].
      split; [by eapply shutdownConnection_rules_inv|by eapply Hshut]. }
    destruct Hs' as [->|(s2 & H2 & ->)]; [done|].
    apply Hupd in H2.
    + pose proof (setupReversePathFiltering_maps (sysctl_exit env) s2)
        as (_ & _ & Es & _).
      pose proof (setupReversePathFiltering_rules (sysctl_exit env) s2)
        as (Er & _).
      cbv zeta in *. unfold bypass_rule_exact. simpl. by rewrite Es, Er.
    + destruct Hinv1 as (Hlog & Hby & Hvo). done.
    + done.
  - by eapply Hupd.
  - by eapply Hshut.
  - apply addLaunchedApp_frame in Hstep as (_ & ? & _ & _ & ? & _).
    by eapply bypass_rule_exact_same.
  - injection Hstep as <-. done.
Qed.

(** X17: in every state reached from a fresh tracker by public operations,
    the bypass table holds exactly the source-IP rule of the stored scan's
    address, and no rule at all when the stored address is empty. *)
Theorem bypass_rule_follows_scan rp fuel calls s :
  run fuel calls (initial rp) = Some s →
  rules_for kRtableName (ip_rules (sys s)) =
  if decide (ipAddress (_previousNetScan (self s)) = "") then []
  else [ipAddress (_previousNetScan (self s))].
Proof.
  intros Hrun.
  apply (run_invariant (λ s, rules_inv s ∧ bypass_rule_exact s)
           fuel calls (initial rp) s); [|by compute; auto|done].
  intros proc op s1 s2. apply step_bypass_exact.
Qed.

Lemma bypass_rule_follows_scan_witness :
  ∃ s, run 3 calls_roaming (initial "1") = Some s
       ∧ rules_for kRtableName (ip_rules (sys s)) = ["192.168.1.5"].
Proof.
  destruct (run 3 calls_roaming (initial "1")) as [s|] eqn:E;
    [|by vm_compute in E].
  exists s. split; [reflexivity|].
  rewrite (bypass_rule_follows_scan "1" 3%nat calls_roaming s E).
  vm_compute in E. injection E as <-. reflexivity.
Defined.

(** ** rp_filter over a session *)

(** Calls made while a session runs leave rp_filter and the saved value
    alone. *)
Lemma step_within_session fuel proc op s s' :
  within_session (proc, op) → step fuel proc op s = Some s' →
  _previousRPFilter (self s') = _previousRPFilter (self s)
  ∧ rp_filter (sys s') = rp_filter (sys s).
Proof.
  destruct op as [env params tn tl tr|params tn tl tr ex vo| |pid|pid];
    simpl; intros Hq H; try done.
  - unfold updateSplitTunnel in H.
    pose proof (updateApps_self _ _ _ _ _ _ H) as (_ & _ & _ & _ & _ & _ & Ep).
    pose proof (updateApps_sys _ _ _ _ _ _ H) as (_ & _ & _ & _ & _ & _ & Er & _).
    pose proof (updateNetwork_frame params tn tl tr s)
      as (_ & _ & _ & Fr & _ & _ & Fp).
    cbv zeta in Fr, Fp. by rewrite Ep, Er, Fr, Fp.
  - by apply addLaunchedApp_frame in H as (_ & _ & _ & ? & _ & ? & _).
  - by injection H as <-.
Qed.

Lemma initiateConnection_rp_filter fuel proc env params tn tl tr s s' :
  _previousRPFilter (self s) = "" →
  initiateConnection fuel proc env params tn tl tr s = Some s' →
  (_previousRPFilter (self s') = "" ∧ rp_filter (sys s') = rp_filter (sys s))
  ∨ _previousRPFilter (self s') = rp_filter (sys s).
Proof.
  intros Hp H. apply initiateConnection_inv in H as (s1 & Hs1 & Hs').
  assert (_previousRPFilter (self s1) = ""
          ∧ rp_filter (sys s1) = rp_filter (sys s)) as [Hp1 Hr1].
  { destruct Hs1 as [[-> _]|[Hsh _]]; [done|].
    pose proof (shutdownConnection_self _ _ _ _ Hsh) as Hself.
    apply shutdownConnection_post in Hsh as (_ & _ & _ & _ & _ & R & _).
    rewrite Hself, R, Hp. done. }
  destruct Hs' as [->|(s2 & H2 & ->)]; [by left|].
  unfold updateSplitTunnel in H2.
  pose proof (updateApps_self _ _ _ _ _ _ H2) as (_ & _ & _ & _ & _ & _ & Ep).
  pose proof (updateApps_sys _ _ _ _ _ _ H2) as (_ & _ & _ & _ & _ & _ & Er & _).
  pose proof (updateNetwork_frame params tn tl tr
                (mkState (set_sockFd (socket_ret env) (self s1))
                   (setupFirewall (sys s1))))
    as (_ & _ & _ & Fr & _ & _ & Fp).
  cbv zeta in Fr, Fp. rewrite Fp in Ep. rewrite Fr in Er.
  change (_previousRPFilter (self s2) = _previousRPFilter (self s1)) in Ep.
  change (rp_filter (sys s2) = rp_filter (sys s1)) in Er.
  rewrite Hp1 in Ep. rewrite Hr1 in Er.
  unfold setupReversePathFiltering.
  change (rp_filter (shellExecute SysctlRead (sys s2)))
    with (rp_filter (sys s2)).
  repeat case_decide; cbn [self sys set_readNotifier set_previousRPFilter
                            _previousRPFilter];
    [by right|by left|by left].
Qed.

(** X18: when no rp_filter value is held over from an earlier session and
    the kernel's value is not empty, a session opened by
    [initiateConnection], whether the connect succeeds or fails, followed
    by any calls other than a connect or a shutdown, and closed by
    [shutdownConnection], leaves rp_filter at the value it had before. *)
Theorem rp_filter_round_trip fuel proc env params tn tl tr fuel1 calls
    fuel2 proc2 s s1 s2 s3 :
  _previousRPFilter (self s) = "" → rp_filter (sys s) ≠ "" →
  initiateConnection fuel proc env params tn tl tr s = Some s1 →
  Forall within_session calls → run fuel1 calls s1 = Some s2 →
  shutdownConnection fuel2 proc2 s2 = Some s3 →
  rp_filter (sys s3) = rp_filter (sys s).
Proof.
  intros Hp Hne H1 Hq Hrun H3.
  apply initiateConnection_rp_filter in H1; [|done].
  assert (_previousRPFilter (self s2) = _previousRPFilter (self s1)
          ∧ rp_filter (sys s2) = rp_filter (sys s1)) as [Ep Er].
  { apply (run_invariant_on within_session
             (λ t, _previousRPFilter (self t) = _previousRPFilter (self s1)
                   ∧ rp_filter (sys t) = rp_filter (sys s1))
             fuel1 calls s1 s2); [|done|done|done].
    intros p op t t' Hw [Et1 Et2] Hstep.
    destruct (step_within_session _ _ _ _ _ Hw Hstep) as [-> ->]. done. }
  apply shutdownConnection_post in H3 as (_ & _ & _ & _ & _ & R & _).
  rewrite R, Ep, Er.
  destruct H1 as [[-> ->] | ->]; [done|]. by rewrite decide_True.
Qed.

Lemma rp_filter_round_trip_witness :
  ∃ s1 s2 s3,
    initiateConnection 3 proc_foo env_ok
      (mkParams scan_up ["/usr/bin/foo"] []) "tun0" "10.0.0.2" "10.0.0.1"
      (initial "1") = Some s1
    ∧ rp_filter (sys s1) = "2"
    ∧ run 3 calls_in_session s1 = Some s2
    ∧ shutdownConnection 3 proc_foo s2 = Some s3
    ∧ rp_filter (sys s3) = "1".
Proof.
  destruct (initiateConnection 3 proc_foo env_ok
              (mkParams scan_up ["/usr/bin/foo"] []) "tun0" "10.0.0.2"
              "10.0.0.1" (initial "1")) as [s1|] eqn:E1;
    [|by vm_compute in E1].
  assert (rp_filter (sys s1) = "2") as Hrp.
  { vm_compute in E1. injection E1 as <-. reflexivity. }
  destruct (run 3 calls_in_session s1) as [s2|] eqn:E2.
  - destruct (shutdownConnection 3 proc_foo s2) as [s3|] eqn:E3.
    + exists s1, s2, s3. split; [reflexivity|]. split; [exact Hrp|].
      split; [exact E2|]. split; [exact E3|].
      apply (rp_filter_round_trip 3%nat proc_foo env_ok
               (mkParams scan_up ["/usr/bin/foo"] []) "tun0" "10.0.0.2"
               "10.0.0.1" 3%nat calls_in_session 3%nat proc_foo (initial "1")
               s1 s2 s3); try done.
      repeat constructor.
    + vm_compute in E1. injection E1 as <-.
      vm_compute in E2. injection E2 as <-. by vm_compute in E3.
  - vm_compute in E1. injection E1 as <-. by vm_compute in E2.
Defined.

(** ** A second [updateSplitTunnel] *)

(** X19: a second [updateSplitTunnel] with the same arguments, under the
    same /proc, returns when the first did and leaves the tracker, the
    rules, the routes, the anchors and rp_filter as the first left them.
    The cgroup memberships differ exactly on the processes that the first
    call wrote to the exclusions cgroup and then evicted together with a
    vpn-only app that left the list: the first call leaves them in the
    parent cgroup, the second puts them into the exclusions cgroup.  When
    there is no such process the observable kernel state is the same. *)
Theorem updateSplitTunnel_second_call fuel proc params tn tl tr ex vo s s1 :
  updateSplitTunnel fuel proc params tn tl tr ex vo s = Some s1 →
  ∃ s2, updateSplitTunnel fuel proc params tn tl tr ex vo s1 = Some s2
        ∧ self s2 = self s1
        ∧ ip_rules (sys s2) = ip_rules (sys s1)
        ∧ route_bypass (sys s2) = route_bypass (sys s1)
        ∧ route_vpnOnly (sys s2) = route_vpnOnly (sys s1)
        ∧ anchor_tagPkts (sys s2) = anchor_tagPkts (sys s1)
        ∧ anchor_transIp (sys s2) = anchor_transIp (sys s1)
        ∧ transIp_rules (sys s2) = transIp_rules (sys s1)
        ∧ rp_filter (sys s2) = rp_filter (sys s1)
        ∧ (∀ q, evicted_excluded proc params ex vo s q →
                cgroup_procs (sys s1) !! q = Some ParentVpnExclusionsFile
                ∧ cgroup_procs (sys s2) !! q = Some VpnExclusionsFile)
        ∧ (∀ q, ¬ evicted_excluded proc params ex vo s q →
                cgroup_procs (sys s2) !! q = cgroup_procs (sys s1) !! q)
        ∧ ((∀ q, ¬ evicted_excluded proc params ex vo s q) →
           observable (sys s2) = observable (sys s1)).
Proof.
  intros H1. unfold updateSplitTunnel in *.
  destruct (updateNetwork_sets params tn tl tr s)
    as (Hscan & Htun & Hem & Hvm & Hroutes).
  cbv zeta in *. unfold evicted_excluded. rewrite <- Hvm, <- Hscan.
  set (s0 := updateNetwork params tn tl tr s) in *.
  clearbody s0. clear Hem Hvm.
  apply updateApps_inv in H1
    as (wR1 & wE & wR2 & wV & E1 & E2 & E3 & E4 & ->).
  cbv zeta in *.
  set (exl := if isValid (_previousNetScan (self s0)) then ex else []) in *.
  set (em := _exclusionsMap (self s0)) in *.
  set (vm := _vpnOnlyMap (self s0)) in *.
  set (em1 := scan_map proc exl (evict exl (elements (dom em)) em)).
  set (vm1 := scan_map proc vo (evict vo (elements (dom vm)) vm)).
  set (Y := write_all proc ParentVpnExclusionsFile wR1 (sys s0)).
  set (K1 := write_all proc VpnOnlyFile wV
               (write_all proc ParentVpnExclusionsFile wR2
                  (write_all proc VpnExclusionsFile wE Y))).
  set (T1 := set_vpnOnlyMap vm1 (set_exclusionsMap em1 (self s0))).
  assert (routes_set (gatewayIp (splitTunnelNetScan params))
            (interfaceName (splitTunnelNetScan params)) tn tr K1) as HroutesK1.
  { destruct Hroutes as [Hb Hv].
    pose proof (write_all_frame proc ParentVpnExclusionsFile wR1 (sys s0))
      as (_ & B1 & V1 & _).
    pose proof (write_all_frame proc VpnExclusionsFile wE Y)
      as (_ & B2 & V2 & _).
    pose proof (write_all_frame proc ParentVpnExclusionsFile wR2
                  (write_all proc VpnExclusionsFile wE Y))
      as (_ & B3 & V3 & _).
    pose proof (write_all_frame proc VpnOnlyFile wV
                  (write_all proc ParentVpnExclusionsFile wR2
                     (write_all proc VpnExclusionsFile wE Y)))
      as (_ & B4 & V4 & _).
    fold Y in B1, V1. fold K1 in B4, V4.
    unfold routes_set. rewrite B4, B3, B2, B1, V4, V3, V2, V1. done. }
  rewrite updateNetwork_again by done.
  rewrite updateApps_eq. cbv zeta.
  cbn [self sys].
  replace (_previousNetScan T1) with (_previousNetScan (self s0)) by done.
  replace (_exclusionsMap T1) with em1 by done.
  replace (_vpnOnlyMap T1) with vm1 by done.
  fold exl.
  rewrite (evict_writes_all_kept fuel proc exl em1)
    by (intros app; apply dom_scan_evict).
  rewrite E2.
  rewrite (evict_writes_all_kept fuel proc vo vm1)
    by (intros app; apply dom_scan_evict).
  rewrite E4.
  eexists. split; [reflexivity|].
  cbn [self sys]. rewrite !write_all_nil.
  split.
  { subst T1. unfold em1, vm1.
    pose proof (scan_evict_again proc exl em) as A1.
    pose proof (scan_evict_again proc vo vm) as A2.
    cbv zeta in A1, A2. rewrite A1, A2. done. }
  set (K1' := updateRoutes _ _ tn tr K1).
  pose proof (updateRoutes_again _ _ tn tr K1 HroutesK1) as Hobs.
  fold K1' in Hobs. apply observable_eq in Hobs
    as (O1 & O2 & O3 & O4 & O5 & O6 & O7 & O8).
  pose proof (write_all_frame proc VpnExclusionsFile wE K1')
    as (F2 & F3 & F4 & F5 & F6 & F7 & F8 & _).
  pose proof (write_all_frame proc VpnOnlyFile wV
                (write_all proc VpnExclusionsFile wE K1'))
    as (G2 & G3 & G4 & G5 & G6 & G7 & G8 & _).
  cbv zeta in *.
  assert (∀ q, q ∈ wE ↔
               isValid (_previousNetScan (self s0)) = true
               ∧ ∃ app pid, app ∈ ex ∧ pid ∈ pidsForPath proc app
                            ∧ rtc (child_of proc) pid q) as HwE.
  { intros q. rewrite (app_writes_mem _ _ _ _ q E2). subst exl.
    destruct (isValid (_previousNetScan (self s0))).
    - split; [by intros ?|by intros [_ ?]].
    - split; [|by intros [? _]].
      intros (app & _ & Happ & _). by apply elem_of_nil in Happ. }
  pose proof (λ q, evict_writes_mem _ _ _ _ _ q E3) as HwR2.
  pose proof (λ q, app_writes_mem _ _ _ _ q E4) as HwV.
  assert (∀ q, cgroup_procs
                 (write_all proc VpnOnlyFile wV
                    (write_all proc VpnExclusionsFile wE K1')) !! q
               = if decide (q ∈ wV ∧ is_Some (proc !! q)) then Some VpnOnlyFile
                 else if decide (q ∈ wE ∧ is_Some (proc !! q))
                      then Some VpnExclusionsFile
                      else cgroup_procs K1 !! q) as C2.
  { intros q. by rewrite !write_all_lookup, O1. }
  assert (∀ q, cgroup_procs K1 !! q
               = if decide (q ∈ wV ∧ is_Some (proc !! q)) then Some VpnOnlyFile
                 else if decide (q ∈ wR2 ∧ is_Some (proc !! q))
                      then Some ParentVpnExclusionsFile
                      else if decide (q ∈ wE ∧ is_Some (proc !! q))
                           then Some VpnExclusionsFile
                           else cgroup_procs Y !! q) as C1.
  { intros q. unfold K1. by rewrite !write_all_lookup. }
  assert (∀ q, ¬ (isValid (_previousNetScan (self s0)) = true
                  ∧ (∃ app pid, app ∈ ex ∧ pid ∈ pidsForPath proc app
                                ∧ rtc (child_of proc) pid q)
                  ∧ (∃ app pid, (app ∉ vo) ∧ tracked vm app pid
                                ∧ rtc (child_of proc) pid q)
                  ∧ ¬ (∃ app pid, app ∈ vo ∧ pid ∈ pidsForPath proc app
                                  ∧ rtc (child_of proc) pid q)) →
               cgroup_procs
                 (write_all proc VpnOnlyFile wV
                    (write_all proc VpnExclusionsFile wE K1')) !! q
               = cgroup_procs K1 !! q) as Hsame.
  { intros q Hn. rewrite C2, C1.
    destruct (decide (q ∈ wV ∧ is_Some (proc !! q))) as [|HnV]; [done|].
    destruct (decide (q ∈ wE ∧ is_Some (proc !! q))) as [[HE Hl]|]; [|done].
    destruct (decide (q ∈ wR2 ∧ is_Some (proc !! q))) as [[HR _]|]; [|done].
    destruct Hn. apply HwE in HE as [Hv HE]. apply HwR2 in HR.
    split; [done|]. split; [done|]. split; [done|].
    intros HV. apply HwV in HV. by apply HnV. }
  repeat (split; [congruence|]).
  split; [|split].
  - intros q (Hv & HE & HR & HnV).
    assert (is_Some (proc !! q)) as Hl.
    { destruct HE as (app & pid & _ & Hpid & Hr).
      apply elem_of_pidsForPath in Hpid as [_ Hpid].
      by eapply rtc_child_of_listed. }
    assert (q ∈ wE) as HE' by by apply HwE.
    apply HwR2 in HR. rewrite <- HwV in HnV.
    rewrite C2, C1.
    rewrite !(decide_False (P := q ∈ wV ∧ _)) by (by intros [? _]).
    rewrite !decide_True by done. done.
  - exact Hsame.
  - intros Hno. apply observable_eq.
    split; [|repeat split; congruence].
    apply map_eq. intros q. by apply Hsame.
Qed.

Lemma updateSplitTunnel_second_call_witness :
  ∃ s s1,
    run 3 calls_bar_vpnOnly (initial "1") = Some s
    ∧ updateSplitTunnel 3 proc_cross (mkParams scan_up ["/usr/bin/foo"] [])
        "tun0" "10.0.0.2" "10.0.0.1" ["/usr/bin/foo"] [] s = Some s1
    ∧ ∃ s2,
        updateSplitTunnel 3 proc_cross (mkParams scan_up ["/usr/bin/foo"] [])
          "tun0" "10.0.0.2" "10.0.0.1" ["/usr/bin/foo"] [] s1 = Some s2
        ∧ self s2 = self s1
        ∧ cgroup_procs (sys s1) !! 11 = Some ParentVpnExclusionsFile
        ∧ cgroup_procs (sys s2) !! 11 = Some VpnExclusionsFile
        ∧ cgroup_procs (sys s2) !! 10 = cgroup_procs (sys s1) !! 10.
Proof.
  destruct (run 3 calls_bar_vpnOnly (initial "1")) as [s|] eqn:E;
    [|by vm_compute in E].
  assert (_vpnOnlyMap (self s) = <["/usr/bin/bar" := {[10]}]> ∅) as Hvm.
  { vm_compute in E. injection E as <-. vm_compute. reflexivity. }
  destruct (updateSplitTunnel 3 proc_cross
              (mkParams scan_up ["/usr/bin/foo"] []) "tun0" "10.0.0.2"
              "10.0.0.1" ["/usr/bin/foo"] [] s) as [s1|] eqn:E1.
  2:{ vm_compute in E. injection E as <-. by vm_compute in E1. }
  exists s, s1. split; [reflexivity|]. split; [exact E1|].
  destruct (updateSplitTunnel_second_call 3%nat proc_cross
              (mkParams scan_up ["/usr/bin/foo"] []) "tun0" "10.0.0.2"
              "10.0.0.1" ["/usr/bin/foo"] [] s s1 E1)
    as (s2 & E2 & Hself & _ & _ & _ & _ & _ & _ & _ & Hev & Hsame & _).
  exists s2. split; [exact E2|]. split; [exact Hself|].
  assert (evicted_excluded proc_cross (mkParams scan_up ["/usr/bin/foo"] [])
            ["/usr/bin/foo"] [] s 11) as H11.
  { split; [reflexivity|]. split; [|split].
    - exists "/usr/bin/foo", 11. split; [by left|].
      split; [|done]. apply elem_of_pidsForPath.
      split; [reflexivity|by eexists].
    - exists "/usr/bin/bar", 10. split; [apply not_elem_of_nil|].
      split.
      + rewrite Hvm. exists {[10]}. rewrite lookup_insert_eq.
        split; [done|]. by apply elem_of_singleton.
      + apply rtc_once. apply elem_of_childPidsOf. by eexists.
    - intros (app & _ & Happ & _). by apply elem_of_nil in Happ. }
  destruct (Hev 11 H11) as [C1 C2].
  split; [exact C1|]. split; [exact C2|].
  apply Hsame. intros (_ & (app & pid & Happ & Hpid & Hr) & _).
  apply list_elem_of_singleton in Happ. subst app.
  apply elem_of_pidsForPath in Hpid as [Hpath [st Hst]].
  unfold proc_cross in Hst.
  destruct (decide (pid = 10)) as [->|H10]; [by vm_compute in Hpath|].
  rewrite lookup_insert_ne in Hst by done.
  destruct (decide (pid = 11)) as [->|H11']; [|
    by rewrite lookup_insert_ne, lookup_empty in Hst].
  apply rtc_inv in Hr as [Heq|(c & Hc & _)]; [done|].
  apply elem_of_childPidsOf in Hc as (st' & Hst' & Hpp).
  unfold proc_cross in Hst'.
  destruct (decide (c = 10)) as [->|Hc10].
  { rewrite lookup_insert_eq in Hst'. injection Hst' as <-. done. }
  rewrite lookup_insert_ne in Hst' by done.
  destruct (decide (c = 11)) as [->|Hc11].
  { rewrite lookup_insert_eq in Hst'. injection Hst' as <-. done. }
  by rewrite lookup_insert_ne, lookup_empty in Hst'.
Defined.
